(** * fotora: the prediction pipeline (store, feature engine, model, orchestrator)

    A shallow embedding of [database.py], [feature_engineering.py],
    [model.py] and [football_prediction_system.py], and the properties of
    the pipeline stated over it.

    Conventions of the embedding:
    - a Python exception is a value [PyErr] carrying the name of its class;
      fallible code returns [result A];
    - numbers are rationals ([Q]) and arithmetic on them is exact.  The
      floats that the code computes are sums of 0, 0.5 and 1, or of 0, 1
      and 3, divided once by a small integer: Python rounds that quotient
      once, to the float that a decimal literal such as 0.7 also denotes,
      so that an equation with a decimal of the specification holds in
      Python exactly when it holds here up to [Qeq];
    - a string is a sequence of one-byte characters;
    - [datetime.now().isoformat()] is an explicit argument [now : string];
      SQLite compares such TEXT values bytewise, which is [String.compare];
    - the [predictions] table, whose primary key is [fixture_id], is a finite
      map from [fixture_id] to the remaining columns, scanned in the order
      of its keys (the rowid of the table); the [cache] and
      [feature_importance] tables, which have no key, are lists of rows in
      insertion (rowid) order;
    - a Python [int] is unbounded ([Z]); one that is bound to a statement
      must fit SQLite's signed 64-bit INTEGER, or sqlite3 raises
      [OverflowError]. *)

From Stdlib Require Import Ascii QArith Lqa.
From stdpp Require Import gmap strings list fin_maps pretty sorting.

Set Warnings "-register-all".

Local Open Scope string_scope.
Local Open Scope Z_scope.

(** ** Python values and exceptions *)

Module Py.

Record PyErr := Exc { exc_class : string }.

Inductive result (A : Type) : Type :=
| Ok (a : A)
| Raise (e : PyErr).
Arguments Ok {A} a.
Arguments Raise {A} e.

Definition bind {A B} (m : result A) (k : A -> result B) : result B :=
  match m with
  | Ok a => k a
  | Raise e => Raise e
  end.

Definition TypeError := Exc "TypeError".
Definition KeyError := Exc "KeyError".
Definition AttributeError := Exc "AttributeError".
Definition ValueError := Exc "ValueError".
Definition OverflowError := Exc "OverflowError".
(* sklearn.exceptions.NotFittedError *)
Definition NotFittedError := Exc "NotFittedError".

(** What [json.load] produces: null, booleans, finite numbers, strings,
    lists, and dicts with string keys in their order. *)
Inductive json : Type :=
| JNull
| JBool (b : bool)
| JNum (q : Q)
| JStr (s : string)
| JArr (l : list json)
| JObj (kv : list (string * json)).

(** [str(n)] for an [int]. *)
Definition str (n : Z) : string := pretty n.
Arguments str : simpl never.

(** Lookup in a [dict] with [str] keys. *)
Fixpoint assoc {A} (k : string) (kv : list (string * A)) : option A :=
  match kv with
  | [] => None
  | (k', v) :: kv' => if String.eqb k' k then Some v else assoc k kv'
  end.

(** Lookup in a [dict] with [int] keys. *)
Fixpoint assoc_Z {A} (k : Z) (kv : list (Z * A)) : option A :=
  match kv with
  | [] => None
  | (k', v) :: kv' => if Z.eqb k' k then Some v else assoc_Z k kv'
  end.

(** [bool(v)] *)
Definition truthy (v : json) : bool :=
  match v with
  | JNull => false
  | JBool b => b
  | JNum q => negb (Qeq_bool q 0)
  | JStr s => negb (String.eqb s "")
  | JArr l => match l with [] => false | _ :: _ => true end
  | JObj kv => match kv with [] => false | _ :: _ => true end
  end.

(** [v[k]] for a [str] key: only a [dict] can be subscripted by a [str]. *)
Definition getitem (v : json) (k : string) : result json :=
  match v with
  | JObj kv =>
      match assoc k kv with
      | Some x => Ok x
      | None => Raise KeyError
      end
  | _ => Raise TypeError
  end.

(** [v.get(k, d)]: only a [dict] has the attribute [get]. *)
Definition get (v : json) (k : string) (d : json) : result json :=
  match v with
  | JObj kv => Ok (default d (assoc k kv))
  | _ => Raise AttributeError
  end.

(** [v.keys()] *)
Definition keys (v : json) : result (list string) :=
  match v with
  | JObj kv => Ok (kv.*1)
  | _ => Raise AttributeError
  end.

Definition num_of (v : json) : option Q :=
  match v with
  | JNum q => Some q
  | JBool b => Some (if b then 1%Q else 0%Q)
  | _ => None
  end.

(** [v == n] for an [int] [n]: [True == 1] holds in Python. *)
Definition eq_int (v : json) (n : Z) : bool :=
  match num_of v with
  | Some q => Qeq_bool q (inject_Z n)
  | None => false
  end.

(** [v == s] for a [str] [s] *)
Definition eq_str (v : json) (s : string) : bool :=
  match v with
  | JStr t => String.eqb t s
  | _ => false
  end.

Fixpoint is_substring (s t : string) : bool :=
  String.prefix s t ||
  match t with
  | EmptyString => false
  | String _ t' => is_substring s t'
  end.

(** [s in v] for a [str] [s]: key of a dict, element of a list, substring
    of a string; the other values are not containers. *)
Definition contains (s : string) (v : json) : result bool :=
  match v with
  | JObj kv => Ok (bool_decide (is_Some (assoc s kv)))
  | JArr l => Ok (existsb (fun x => eq_str x s) l)
  | JStr t => Ok (is_substring s t)
  | _ => Raise TypeError
  end.

(** [for x in v]: the elements of a list, the keys of a dict, the
    characters of a string. *)
Definition iter (v : json) : result (list json) :=
  match v with
  | JArr l => Ok l
  | JObj kv => Ok (JStr <$> kv.*1)
  | JStr s => Ok ((fun c => JStr (String c EmptyString)) <$> String.list_ascii_of_string s)
  | _ => Raise TypeError
  end.

(** [a == b] *)
Fixpoint py_eq (a b : json) {struct a} : bool :=
  match a, b with
  | JNull, JNull => true
  | JStr s, JStr t => String.eqb s t
  | JArr l, JArr m =>
      (fix go (l m : list json) {struct l} : bool :=
         match l, m with
         | [], [] => true
         | x :: l', y :: m' => py_eq x y && go l' m'
         | _, _ => false
         end) l m
  | JObj kv, JObj kw =>
      Nat.eqb (length kv) (length kw) &&
      (fix go (kv : list (string * json)) : bool :=
         match kv with
         | [] => true
         | (k, x) :: kv' =>
             match assoc k kw with
             | Some y => py_eq x y
             | None => false
             end && go kv'
         end) kv
  | _, _ =>
      match num_of a, num_of b with
      | Some p, Some q => Qeq_bool p q
      | _, _ => false
      end
  end.

Definition Qltb (p q : Q) : bool := negb (Qle_bool q p).

(** [a < b]: numbers with numbers, strings with strings, lists with lists
    (at the first position where they differ); anything else is a
    [TypeError]. *)
Fixpoint py_lt (a b : json) {struct a} : result bool :=
  match a, b with
  | JStr s, JStr t => Ok (String.ltb s t)
  | JArr l, JArr m =>
      (fix go (l m : list json) {struct l} : result bool :=
         match l, m with
         | [], [] => Ok false
         | [], _ :: _ => Ok true
         | _ :: _, [] => Ok false
         | x :: l', y :: m' => if py_eq x y then go l' m' else py_lt x y
         end) l m
  | _, _ =>
      match num_of a, num_of b with
      | Some p, Some q => Ok (Qltb p q)
      | _, _ => Raise TypeError
      end
  end.

(** [a > b] is [b < a] for these types. *)
Definition py_gt (a b : json) : result bool := py_lt b a.

(** [[f(x) for x in l]] *)
Fixpoint mapM {A B} (f : A -> result B) (l : list A) : result (list B) :=
  match l with
  | [] => Ok []
  | x :: l' =>
      match f x with
      | Raise e => Raise e
      | Ok y =>
          match mapM f l' with
          | Raise e => Raise e
          | Ok ys => Ok (y :: ys)
          end
      end
  end.

(** [[x for x in l if p(x)]] *)
Fixpoint filterM {A} (p : A -> result bool) (l : list A) : result (list A) :=
  match l with
  | [] => Ok []
  | x :: l' =>
      match p x with
      | Raise e => Raise e
      | Ok b =>
          match filterM p l' with
          | Raise e => Raise e
          | Ok ys => Ok (if b then x :: ys else ys)
          end
      end
  end.

(** [next((x for x in l if p(x)), d)] *)
Fixpoint next_or {A} (p : A -> result bool) (l : list A) (d : A) : result A :=
  match l with
  | [] => Ok d
  | x :: l' =>
      match p x with
      | Raise e => Raise e
      | Ok true => Ok x
      | Ok false => next_or p l' d
      end
  end.

(** State and exceptions: code that mutates [self] and may raise returns
    the state it leaves behind together with its outcome. *)
Definition M (S A : Type) : Type := S -> S * result A.

Definition mret {S A} (a : A) : M S A := fun s => (s, Ok a).

Definition mraise {S A} (e : PyErr) : M S A := fun s => (s, Raise e).

Definition mbind {S A B} (m : M S A) (k : A -> M S B) : M S B :=
  fun s =>
    match m s with
    | (s', Ok a) => k a s'
    | (s', Raise e) => (s', Raise e)
    end.

Definition lift {S A} (r : result A) : M S A := fun s => (s, r).

Definition mget {S} : M S S := fun s => (s, Ok s).

Definition mmodify {S} (f : S -> S) : M S unit := fun s => (f s, Ok tt).

(** [try: m  except Exception as e: h(e)] *)
Definition try_except {S A} (m : M S A) (h : PyErr -> M S A) : M S A :=
  fun s =>
    match m s with
    | (s', Ok a) => (s', Ok a)
    | (s', Raise e) => h e s'
    end.

End Py.

Export Py.

Declare Scope py_scope.
Delimit Scope py_scope with py.
Notation "x <- m ;; k" := (bind m (fun x => k))
  (at level 100, m at next level, right associativity) : py_scope.

Declare Scope m_scope.
Delimit Scope m_scope with m.
Notation "x <- m ;; k" := (mbind m (fun x => k))
  (at level 100, m at next level, right associativity) : m_scope.
Notation "m ;;; k" := (mbind m (fun _ => k))
  (at level 100, right associativity) : m_scope.

(** The [json] module of the Python standard library, used by the cache. *)
Class JsonCodec := {
  json_dumps : json -> string;
  json_loads : string -> json
}.

(** ** database.py *)

Module Database.

(** A row of table [cache (endpoint, params, data, timestamp)]. *)
Record CacheRow := {
  endpoint : string;
  params : string;
  data : string;
  cache_timestamp : string
}.

(** A row of table [predictions], without its key [fixture_id]. *)
Record Prediction := {
  league_id : Z;
  home_team : string;
  away_team : string;
  predicted_outcome : string;
  actual_outcome : option string;
  probability : Q;
  accuracy : option Q;
  temperature : option Q;
  wind_speed : option Q;
  precipitation : option Q;
  timestamp : string
}.

(** A row of table [feature_importance (feature, importance, timestamp)]. *)
Record FeatureImportanceRow := {
  feature : string;
  importance : Q;
  fi_timestamp : string
}.

Record FootballDatabase := {
  cache : list CacheRow;
  predictions : gmap Z Prediction;
  feature_importance : list FeatureImportanceRow
}.

(** [init_db] on a fresh file: three empty tables. *)
Definition init_db : FootballDatabase :=
  {| cache := []; predictions := ∅; feature_importance := [] |}.

(** sqlite3 binds a Python [int] to a statement as SQLite's INTEGER, a
    signed 64-bit number; with any other [int] the binding raises
    [OverflowError] and the statement is not run. *)
Definition sqlite_int (n : Z) : bool := (- 2 ^ 63 <=? n) && (n <? 2 ^ 63).

(** [INSERT OR REPLACE INTO predictions (fixture_id, league_id, home_team,
    away_team, predicted_outcome, probability, temperature, wind_speed,
    precipitation, timestamp)]: a row with the same key is deleted and the
    new one inserted; the columns that are not listed, [actual_outcome]
    and [accuracy], take their default, NULL. *)
Definition insert_or_replace (db : FootballDatabase) (fixture_id league : Z)
    (home away outcome : string) (prob : Q) (weather_data : gmap string Q)
    (now : string) : FootballDatabase :=
  let temperature := weather_data !! "temp_c" in
  let wind_speed := weather_data !! "wind_kph" in
  let precipitation := weather_data !! "precip_mm" in
  {| cache := cache db;
     predictions :=
       <[fixture_id :=
           {| league_id := league; home_team := home; away_team := away;
              predicted_outcome := outcome; actual_outcome := None;
              probability := prob; accuracy := None;
              temperature := temperature; wind_speed := wind_speed;
              precipitation := precipitation; timestamp := now |}]>
         (predictions db);
     feature_importance := feature_importance db |}.

(** [store_prediction]: the two integers among the parameters of the
    statement are [fixture_id] and [league_id]. *)
Definition store_prediction (db : FootballDatabase) (fixture_id league : Z)
    (home away outcome : string) (prob : Q) (weather_data : gmap string Q)
    (now : string) : result FootballDatabase :=
  if sqlite_int fixture_id && sqlite_int league then
    Ok (insert_or_replace db fixture_id league home away outcome prob
          weather_data now)
  else Raise OverflowError.

(** [UPDATE predictions SET actual_outcome=?, accuracy=?] on one row. *)
Definition set_outcome (actual : string) (acc : Q) (row : Prediction)
    : Prediction :=
  {| league_id := league_id row; home_team := home_team row;
     away_team := away_team row;
     predicted_outcome := predicted_outcome row;
     actual_outcome := Some actual; probability := probability row;
     accuracy := Some acc; temperature := temperature row;
     wind_speed := wind_speed row; precipitation := precipitation row;
     timestamp := timestamp row |}.

(** The SELECT of the stored forecast and, when a row is found, the
    UPDATE of that row. *)
Definition select_then_update (db : FootballDatabase)
    (fixture_id : Z) (actual : string) : FootballDatabase :=
  match predictions db !! fixture_id with
  | Some row =>
      let accuracy :=
        if String.eqb (predicted_outcome row) actual then 1%Q else 0%Q in
      {| cache := cache db;
         predictions :=
           <[fixture_id := set_outcome actual accuracy row]> (predictions db);
         feature_importance := feature_importance db |}
  | None => db
  end.

(** [update_prediction_accuracy]: [fixture_id] is bound to the SELECT
    before anything is read. *)
Definition update_prediction_accuracy (db : FootballDatabase)
    (fixture_id : Z) (actual : string) : result FootballDatabase :=
  if sqlite_int fixture_id then Ok (select_then_update db fixture_id actual)
  else Raise OverflowError.

(** SQL [AVG]: NULLs are skipped; NULL when nothing is left. *)
Definition Qsum (xs : list Q) : Q := foldr Qplus 0%Q xs.


Definition is_graded (row : Prediction) : bool :=
  match actual_outcome row with Some _ => true | None => false end.


Definition rows (db : FootballDatabase) : list Prediction :=
  (map_to_list (predictions db)).*2.


(** The table is scanned in the order of its rowid, which is the primary
    key [fixture_id]. *)
Definition rowid_le (a b : Z * Prediction) : Prop := a.1 <= b.1.

#[global] Instance rowid_le_dec (a b : Z * Prediction) :
  Decision (rowid_le a b) := Z_le_dec a.1 b.1.

Definition table_scan (db : FootballDatabase) : list (Z * Prediction) :=
  merge_sort rowid_le (map_to_list (predictions db)).

(** [SELECT * FROM predictions WHERE actual_outcome IS NOT NULL], as the
    list of (fixture_id, other columns). *)
Definition get_historical_data (db : FootballDatabase)
    : list (Z * Prediction) :=
  filter (fun kr => is_graded kr.2 = true) (table_scan db).

(** The method is declared [def get_historical_data(self)]: a call that
    passes any keyword argument cannot be bound to it. *)
Definition call_get_historical_data {V} (db : FootballDatabase)
    (kwargs : list (string * V)) : result (list (Z * Prediction)) :=
  match kwargs with
  | [] => Ok (get_historical_data db)
  | _ :: _ => Raise TypeError
  end.

(** [ORDER BY timestamp DESC LIMIT 1]: a row whose timestamp is greatest.
    SQLite does not say which of several rows with the same greatest
    timestamp comes first; here it is the one scanned first, and the
    properties below hold for any choice. *)
Fixpoint latest_from {A} (ts : A -> string) (best : A) (l : list A) : A :=
  match l with
  | [] => best
  | r :: l' =>
      if String.ltb (ts best) (ts r) then latest_from ts r l'
      else latest_from ts best l'
  end.

Definition order_by_timestamp_desc_limit_1 {A} (ts : A -> string)
    (l : list A) : option A :=
  match l with
  | [] => None
  | r :: l' => Some (latest_from ts r l')
  end.

Section Cache.
Context `{JsonCodec}.

Definition cache_data (db : FootballDatabase) (ep : string)
    (ps dt : json) (now : string) : FootballDatabase :=
  {| cache := cache db ++
       [{| endpoint := ep; params := json_dumps ps;
           data := json_dumps dt; cache_timestamp := now |}];
     predictions := predictions db;
     feature_importance := feature_importance db |}.

Definition cache_matches (ep : string) (ps : json) (r : CacheRow) : bool :=
  String.eqb (endpoint r) ep && String.eqb (params r) (json_dumps ps).

Definition get_cached_data (db : FootballDatabase) (ep : string)
    (ps : json) : option json :=
  let result :=
    order_by_timestamp_desc_limit_1 cache_timestamp
      (List.filter (cache_matches ep ps) (cache db)) in
  match result with
  | Some r => Some (json_loads (data r))
  | None => None
  end.

(** [{'fixture_id': fixture_id}] *)
Definition weather_params (fixture_id : Z) : json :=
  JObj [("fixture_id", JNum (inject_Z fixture_id))].

Definition cache_weather_data (db : FootballDatabase) (fixture_id : Z)
    (weather_data : json) (now : string) : FootballDatabase :=
  cache_data db "weather" (weather_params fixture_id) weather_data now.

Definition get_cached_weather_data (db : FootballDatabase) (fixture_id : Z)
    : option json :=
  get_cached_data db "weather" (weather_params fixture_id).
End Cache.

(** [store_feature_importance]: the rows of the frame are inserted one by
    one, each with the clock reading taken when it is inserted. *)
Definition store_feature_importance (db : FootballDatabase)
    (frame : list (string * Q * string)) : FootballDatabase :=
  {| cache := cache db;
     predictions := predictions db;
     feature_importance := feature_importance db ++
       ((fun '(f, i, now) =>
           {| feature := f; importance := i; fi_timestamp := now |})
          <$> frame) |}.

(** [SELECT feature, importance FROM feature_importance
     ORDER BY timestamp DESC LIMIT 1] *)
Definition get_feature_importance (db : FootballDatabase)
    : list (string * Q) :=
  match order_by_timestamp_desc_limit_1 fi_timestamp (feature_importance db)
  with
  | Some r => [(feature r, importance r)]
  | None => []
  end.

End Database.

(** ** feature_engineering.py *)

Module FeatureEngineering.
Local Open Scope py_scope.

(** [sorted(l, key=..., reverse=True)] on decorated pairs (key, element):
    a stable sort by [<] on the keys, greatest first, elements with equal
    keys in their original order.  The keys of the feed are ISO date
    strings.  A comparison that fails raises [TypeError]; when the keys
    are all strings, or all numbers, none fails. *)
Fixpoint insert_desc (kx : json * json) (l : list (json * json))
    : result (list (json * json)) :=
  match l with
  | [] => Ok [kx]
  | ky :: l' =>
      b <- py_lt kx.1 ky.1 ;;
      if b then (r <- insert_desc kx l' ;; Ok (ky :: r))
      else Ok (kx :: ky :: l')
  end.

Fixpoint sorted_desc (l : list (json * json)) : result (list (json * json)) :=
  match l with
  | [] => Ok []
  | kx :: l' => r <- sorted_desc l' ;; insert_desc kx r
  end.

(** [calculate_form(form_string)] *)
Definition form_points (r : json) : Q :=
  if eq_str r "W" then 1%Q else if eq_str r "D" then (1 # 2)%Q else 0%Q.

Definition Qsum (xs : list Q) : Q := foldr Qplus 0%Q xs.

Definition calculate_form (form_string : json) : result Q :=
  if negb (truthy form_string) then Ok 0%Q
  else
    results <- iter form_string ;;
    Ok (Qsum (form_points <$> results)
        / inject_Z (Z.of_nat (length results)))%Q.

(** One term of the sum in [calculate_recent_performance]; [and], [or]
    and the conditional expression evaluate their operands left to right
    and only as far as needed. *)
Definition goals_of (m : json) (side : string) : result json :=
  g <- getitem m "goals" ;; getitem g side.

Definition team_id_of (m : json) (side : string) : result json :=
  t <- getitem m "teams" ;; s <- getitem t side ;; getitem s "id".

Definition won_as (m : json) (team_id : Z) (side other : string)
    : result bool :=
  i <- team_id_of m side ;;
  if eq_int i team_id then
    a <- goals_of m side ;; b <- goals_of m other ;; py_gt a b
  else Ok false.

Definition match_points (team_id : Z) (m : json) : result Z :=
  h <- won_as m team_id "home" "away" ;;
  if h then Ok 3
  else
    a <- won_as m team_id "away" "home" ;;
    if a then Ok 3
    else
      gh <- goals_of m "home" ;; ga <- goals_of m "away" ;;
      Ok (if py_eq gh ga then 1 else 0).

Definition match_date (m : json) : result (json * json) :=
  f <- getitem m "fixture" ;; d <- getitem f "date" ;; Ok (d, m).

Definition Zsum (xs : list Z) : Z := foldr Z.add 0 xs.

(** The part of [calculate_recent_performance] after the selection of
    [recent_matches]. *)
Definition performance_of (team_id : Z) (recent_matches : list json)
    : result Q :=
  match recent_matches with
  | [] => Ok 0%Q
  | _ :: _ =>
      points <- mapM (match_points team_id) recent_matches ;;
      Ok (inject_Z (Zsum points)
          / inject_Z (Z.of_nat (length recent_matches) * 3))%Q
  end.

Definition calculate_recent_performance (h2h_data : json) (team_id : Z)
    (num_matches : nat) : result Q :=
  if negb (truthy h2h_data) then Ok 0%Q
  else
    ms <- iter h2h_data ;;
    keyed <- mapM match_date ms ;;
    ordered <- sorted_desc keyed ;;
    performance_of team_id (take num_matches (ordered.*2)).

Section WithData.
(** The module-level [football_data]: the dict read from
    [football_data.json], or [{}] when the file is missing. *)
Variable football_data : list (string * json).

Definition has_league (table : string) (league_id : Z) : result bool :=
  c <- contains table (JObj football_data) ;;
  if c then
    t <- getitem (JObj football_data) table ;; contains (str league_id) t
  else Ok false.

Definition league_entry (table : string) (league_id : Z) : result json :=
  t <- getitem (JObj football_data) table ;; getitem t (str league_id).

Definition is_team (team_id : Z) (entry : json) : result bool :=
  t <- getitem entry "team" ;; i <- getitem t "id" ;; Ok (eq_int i team_id).

Definition get_team_data (team_id league_id : Z) : result (json * json) :=
  c <- has_league "team_statistics" league_id ;;
  team_stats <-
    (if c then
       team_stats_data <- league_entry "team_statistics" league_id ;;
       c' <- contains (str team_id) team_stats_data ;;
       if c' then getitem team_stats_data (str team_id) else Ok (JObj [])
     else Ok (JObj [])) ;;
  c <- has_league "standings" league_id ;;
  standings <-
    (if c then
       e <- league_entry "standings" league_id ;;
       standings_data <- getitem e "response" ;;
       teams <- iter standings_data ;;
       next_or (is_team team_id) teams (JObj [])
     else Ok (JObj [])) ;;
  (* the two logging calls print [team_stats.keys()] and
     [standings.keys()] *)
  _ <- keys team_stats ;;
  _ <- keys standings ;;
  Ok (team_stats, standings).

Definition get_injuries (team_id league_id : Z) : result (list json) :=
  c <- has_league "injuries" league_id ;;
  if c then
    e <- league_entry "injuries" league_id ;;
    response <- getitem e "response" ;;
    injuries <- iter response ;;
    filterM (is_team team_id) injuries
  else Ok [].

Definition get_h2h_data (home_team_id away_team_id : Z) : result json :=
  let h2h_key := str home_team_id +:+ "-" +:+ str away_team_id in
  c <- contains "h2h" (JObj football_data) ;;
  c' <- (if c then
           t <- getitem (JObj football_data) "h2h" ;; contains h2h_key t
         else Ok false) ;;
  if c' then
    t <- getitem (JObj football_data) "h2h" ;;
    e <- getitem t h2h_key ;;
    getitem e "response"
  else Ok (JArr []).

(** [stats.get(k1, {}).get(k2, {}) ... .get(kn, 0)] *)
Fixpoint get_path (v : json) (path : list string) : result json :=
  match path with
  | [] => Ok v
  | [k] => get v k (JNum 0)
  | k :: path' => x <- get v k (JObj []) ;; get_path x path'
  end.

Definition jint (n : nat) : json := JNum (inject_Z (Z.of_nat n)).

(** The one-row frame, as the dict it is built from, in order. *)
Definition feature_engineering (home_team_id away_team_id league_id : Z)
    : result (list (string * json)) :=
  home <- get_team_data home_team_id league_id ;;
  let '(home_team_stats, home_standings) := home in
  away <- get_team_data away_team_id league_id ;;
  let '(away_team_stats, away_standings) := away in
  home_injuries <- get_injuries home_team_id league_id ;;
  away_injuries <- get_injuries away_team_id league_id ;;
  h2h_data <- get_h2h_data home_team_id away_team_id ;;
  home_rank <- get home_standings "rank" (JNum 0) ;;
  away_rank <- get away_standings "rank" (JNum 0) ;;
  hf <- get home_standings "form" (JStr "") ;;
  home_form <- calculate_form hf ;;
  af <- get away_standings "form" (JStr "") ;;
  away_form <- calculate_form af ;;
  home_gd <- get home_standings "goalsDiff" (JNum 0) ;;
  away_gd <- get away_standings "goalsDiff" (JNum 0) ;;
  home_cs <- get_path home_team_stats ["clean_sheet"; "total"] ;;
  away_cs <- get_path away_team_stats ["clean_sheet"; "total"] ;;
  home_att <- get_path home_team_stats ["goals"; "for"; "average"; "total"] ;;
  away_att <- get_path away_team_stats ["goals"; "for"; "average"; "total"] ;;
  home_def <- get_path home_team_stats ["goals"; "against"; "average"; "total"] ;;
  away_def <- get_path away_team_stats ["goals"; "against"; "average"; "total"] ;;
  home_rp <- calculate_recent_performance h2h_data home_team_id 5 ;;
  away_rp <- calculate_recent_performance h2h_data away_team_id 5 ;;
  Ok [ ("home_team_rank", home_rank);
       ("away_team_rank", away_rank);
       ("home_team_form", JNum home_form);
       ("away_team_form", JNum away_form);
       ("home_team_injuries", jint (length home_injuries));
       ("away_team_injuries", jint (length away_injuries));
       ("home_team_goal_diff", home_gd);
       ("away_team_goal_diff", away_gd);
       ("home_team_clean_sheets", home_cs);
       ("away_team_clean_sheets", away_cs);
       ("home_team_attack", home_att);
       ("away_team_attack", away_att);
       ("home_team_defense", home_def);
       ("away_team_defense", away_def);
       ("home_team_recent_performance", JNum home_rp);
       ("away_team_recent_performance", JNum away_rp) ].
End WithData.

End FeatureEngineering.

(** ** model.py *)

Module Model.

(** A numeric [DataFrame] or array, row by row; a missing cell (NULL,
    NaN) is [None]. *)
Definition Frame := list (list (option Q)).

(** An array of class probabilities, row by row. *)
Definition Proba := list (list Q).

Record Metrics := {
  m_accuracy : Q; m_precision : Q; m_recall : Q; m_f1 : Q; m_roc_auc : Q
}.

(** How a call of [joblib.dump(value, filename)] ends: the file is
    written; or the call raises before the file is opened (no directory,
    no permission), and the file is what it was; or it raises while the
    value is written, and the file is left truncated. *)
Inductive dump_outcome :=
| Written
| NotOpened (e : PyErr)
| Truncated (e : PyErr).

(** What the code uses of scikit-learn and of joblib, beyond the
    behaviours that are written out below (the checks of
    [train_test_split] and the fitted check of
    [StandardScaler.transform]). *)
Class Sklearn := {
  fitted_scaler : Type;
  classifier : Type;
  (* the permutation drawn by [train_test_split] with [random_state=42] *)
  shuffle_42 : nat -> list nat;
  scaler_fit : Frame -> result fitted_scaler;
  scaler_transform : fitted_scaler -> Frame -> result Frame;
  (* [GridSearchCV(RandomForestClassifier(42), param_grid, cv=5).fit]
     and its [best_estimator_] *)
  grid_search_fit : Frame -> list string -> result classifier;
  clf_predict : classifier -> Frame -> result (list string);
  clf_predict_proba : classifier -> Frame -> result Proba;
  classes_ : classifier -> list string;
  feature_names_in_ : classifier -> result (list string);
  feature_importances_ : classifier -> list Q;
  (* accuracy, then weighted precision, recall and F1 *)
  label_scores : list string -> list string -> result (Q * Q * Q * Q);
  (* [roc_auc_score(y, proba, multi_class='ovr')] *)
  roc_auc_score : list string -> Proba -> result Q;
  (* [joblib.dump(self.model, self.model_path)] and
     [joblib.dump(self.scaler, self.scaler_path)] *)
  dump_model : option classifier -> dump_outcome;
  dump_scaler : option fitted_scaler -> dump_outcome
}.

Inductive LogRecord :=
| ModelPerformance (m : Metrics)
| ModelSaved
| ScalerSaved
| ModelLoaded
| ScalerLoaded
| NoExistingModel
| ErrorLoadingModel.

(** A joblib file: absent, unreadable, or holding a pickled value. *)
Inductive file (A : Type) := Absent | Corrupt | Holds (a : A).
Arguments Absent {A}.
Arguments Corrupt {A}.
Arguments Holds {A} a.

Section WithSklearn.
Context `{Sklearn}.
Local Open Scope m_scope.

(** [self.model] is [None] or a fitted classifier; [self.scaler] is a
    [StandardScaler], unfitted ([None] here) or fitted. *)
Record PredictionModel := {
  model : option classifier;
  scaler : option fitted_scaler;
  model_path : file (option classifier);
  scaler_path : file (option fitted_scaler);
  model_log : list LogRecord
}.

Definition logm (r : LogRecord) : M PredictionModel unit :=
  mmodify (fun pm =>
    {| model := model pm; scaler := scaler pm;
       model_path := model_path pm; scaler_path := scaler_path pm;
       model_log := model_log pm ++ [r] |}).

Definition set_model (c : option classifier) : M PredictionModel unit :=
  mmodify (fun pm =>
    {| model := c; scaler := scaler pm;
       model_path := model_path pm; scaler_path := scaler_path pm;
       model_log := model_log pm |}).

Definition set_scaler (sc : option fitted_scaler) : M PredictionModel unit :=
  mmodify (fun pm =>
    {| model := model pm; scaler := sc;
       model_path := model_path pm; scaler_path := scaler_path pm;
       model_log := model_log pm |}).

Definition exists_ {A} (f : file A) : bool :=
  match f with Absent => false | _ => true end.

Definition joblib_load {A} (f : file A) : result A :=
  match f with
  | Holds a => Ok a
  | _ => Raise (Exc "Exception")
  end.

Definition load_model : M PredictionModel unit :=
  try_except
    (pm <- mget ;;
     if exists_ (model_path pm) && exists_ (scaler_path pm) then
       c <- lift (joblib_load (model_path pm)) ;;
       set_model c ;;;
       sc <- lift (joblib_load (scaler_path pm)) ;;
       set_scaler sc ;;;
       logm ModelLoaded ;;; logm ScalerLoaded
     else logm NoExistingModel)
    (fun e => logm ErrorLoadingModel ;;; set_model None).

(** [PredictionModel()] over the two artifact files. *)
Definition init (mf : file (option classifier))
    (sf : file (option fitted_scaler))
    : PredictionModel :=
  (load_model {| model := None; scaler := None; model_path := mf;
                 scaler_path := sf; model_log := [] |}).1.

Definition joblib_dump {A} (outcome : dump_outcome) (a : A) (f : file A)
    : file A * result unit :=
  match outcome with
  | Written => (Holds a, Ok tt)
  | NotOpened e => (f, Raise e)
  | Truncated e => (Corrupt, Raise e)
  end.

Definition dump_model_file : M PredictionModel unit :=
  fun pm =>
    let '(f, r) :=
      joblib_dump (dump_model (model pm)) (model pm) (model_path pm) in
    ({| model := model pm; scaler := scaler pm;
        model_path := f; scaler_path := scaler_path pm;
        model_log := model_log pm |}, r).

Definition dump_scaler_file : M PredictionModel unit :=
  fun pm =>
    let '(f, r) :=
      joblib_dump (dump_scaler (scaler pm)) (scaler pm) (scaler_path pm) in
    ({| model := model pm; scaler := scaler pm;
        model_path := model_path pm; scaler_path := f;
        model_log := model_log pm |}, r).

(** [save_model]: the classifier is dumped, then the scaler, then the two
    records are logged. *)
Definition save_model : M PredictionModel unit :=
  dump_model_file ;;;
  dump_scaler_file ;;;
  logm ModelSaved ;;; logm ScalerSaved.

(** [train_test_split(X, y, test_size=0.2, random_state=42)]: [X] and
    [y] of different lengths are a [ValueError]; the test part has
    [ceil(0.2 n)] rows, the train part the others; an empty train part is
    a [ValueError]. *)
Definition n_test (n : nat) : nat := Nat.div (n + 4) 5.

Definition pick {A} (l : list A) (idx : list nat) : list A :=
  omap (fun i => l !! i) idx.

Definition train_test_split (X : Frame) (y : list string)
    : result (Frame * Frame * list string * list string) :=
  let n := length X in
  if negb (Nat.eqb n (length y)) then Raise ValueError
  else if Nat.eqb (n - n_test n) 0 then Raise ValueError
  else
    let perm := shuffle_42 n in
    let test := take (n_test n) perm in
    let train := drop (n_test n) perm in
    Ok (pick X train, pick X test, pick y train, pick y test).

(** [StandardScaler.fit]: the scaler is reset, then fitted. *)
Definition fit (X : Frame) : M PredictionModel unit :=
  set_scaler None ;;;
  sc <- lift (scaler_fit X) ;;
  set_scaler (Some sc).

(** [StandardScaler.transform]: [NotFittedError] before any fit. *)
Definition transform (X : Frame) : M PredictionModel Frame :=
  pm <- mget ;;
  match scaler pm with
  | None => mraise NotFittedError
  | Some sc => lift (scaler_transform sc X)
  end.

(** An attribute or method of [self.model]: [None] has none. *)
Definition with_model {A} (f : classifier -> result A)
    : M PredictionModel A :=
  pm <- mget ;;
  match model pm with
  | None => mraise AttributeError
  | Some c => lift (f c)
  end.

Definition metrics (X_scaled : Frame) (y y_pred : list string)
    : M PredictionModel Metrics :=
  s <- lift (label_scores y y_pred) ;;
  let '(accuracy, precision, recall, f1) := s in
  proba <- with_model (fun c => clf_predict_proba c X_scaled) ;;
  roc_auc <- lift (roc_auc_score y proba) ;;
  mret {| m_accuracy := accuracy; m_precision := precision;
          m_recall := recall; m_f1 := f1; m_roc_auc := roc_auc |}.

Definition train (X : Frame) (y : list string) : M PredictionModel unit :=
  parts <- lift (train_test_split X y) ;;
  let '(X_train, X_test, y_train, y_test) := parts in
  fit X_train ;;;
  X_train_scaled <- transform X_train ;;
  X_test_scaled <- transform X_test ;;
  best <- lift (grid_search_fit X_train_scaled y_train) ;;
  set_model (Some best) ;;;
  y_pred <- with_model (fun c => clf_predict c X_test_scaled) ;;
  m <- metrics X_test_scaled y_test y_pred ;;
  logm (ModelPerformance m) ;;;
  save_model.

(** [np.argmax]: the first position of the greatest entry. *)
Fixpoint argmax_from (best : nat) (bv : Q) (i : nat) (l : list Q) : nat :=
  match l with
  | [] => best
  | x :: l' =>
      if Qltb bv x then argmax_from i x (S i) l'
      else argmax_from best bv (S i) l'
  end.

Definition argmax (l : list Q) : result nat :=
  match l with
  | [] => Raise ValueError
  | x :: l' => Ok (argmax_from 0 x 1 l')
  end.

Definition index {A} (l : list A) (i : nat) : result A :=
  match l !! i with
  | Some a => Ok a
  | None => Raise (Exc "IndexError")
  end.

Definition predict (X : Frame) : M PredictionModel (string * Q) :=
  X_scaled <- transform X ;;
  proba <- with_model (fun c => clf_predict_proba c X_scaled) ;;
  probabilities <- lift (index proba 0) ;;
  i <- lift (argmax probabilities) ;;
  predicted_class <- with_model (fun c => index (classes_ c) i) ;;
  confidence <- lift (index probabilities i) ;;
  mret (predicted_class, confidence).

(** The frame of (feature, importance), greatest importance first (equal
    importances in the order of the features; pandas does not fix that
    order). *)
Fixpoint insert_by_importance (x : string * Q) (l : list (string * Q))
    : list (string * Q) :=
  match l with
  | [] => [x]
  | y :: l' =>
      if Qltb x.2 y.2 then y :: insert_by_importance x l' else x :: y :: l'
  end.

Definition get_feature_importance
    : M PredictionModel (list (string * Q)) :=
  names <- with_model feature_names_in_ ;;
  imps <- with_model (fun c => Ok (feature_importances_ c)) ;;
  if Nat.eqb (length names) (length imps) then
    mret (foldr insert_by_importance [] (zip names imps))
  else mraise ValueError.

Definition evaluate (X : Frame) (y : list string)
    : M PredictionModel Metrics :=
  X_scaled <- transform X ;;
  y_pred <- with_model (fun c => clf_predict c X_scaled) ;;
  metrics X_scaled y y_pred.
End WithSklearn.

End Model.

(** ** config.py *)

Module Config.

Definition TOP_LEAGUES : list (Z * string) :=
  [ (39, "English Premier League"); (140, "La Liga"); (78, "Bundesliga");
    (61, "Ligue 1"); (135, "Serie A"); (94, "Primeira Liga") ].

Definition CURRENT_SEASON : string := "2023".

End Config.

(** ** football_prediction_system.py *)

Module Orchestrator.
Import Database Model.
Local Open Scope m_scope.

Inductive LogRecord :=
| ProcessingLeague (name : string)
| FailedToFetch (league_id : Z)
| PredictionFor (home away : json) (outcome : string) (probability : Q)
| ModelUpdated
| NoHistoricalData
| RecentPerformance (m : Metrics)
| NoRecentPredictions
| CycleError (e : PyErr).

(** [logger.error] or [logger.info] *)
Definition is_error (r : LogRecord) : bool :=
  match r with
  | FailedToFetch _ | CycleError _ => true
  | _ => false
  end.

Section WithEnvironment.
Context `{Sklearn}.

(** [self.all_data], read from football_data.json. *)
Variable all_data : json.

(** [self.team_stats[self.team_stats['team_id'] == id]], a lookup in the
    frame read from football_data_team_stats.csv. *)
Variable TeamDetails : Type.
Variable team_details : json -> result TeamDetails.

Record MatchData := {
  md_fixture : json;
  team1_details : TeamDetails;
  team2_details : TeamDetails;
  md_standings : json;
  head_to_head : json;
  injuries_home : json;
  injuries_away : json
}.

(** [engineer_features], imported from [feature_engineering], which
    does not define it. *)
Variable engineer_features : MatchData -> result Frame.

(** The reading of [datetime.now()] at its k-th call. *)
Variable clock : nat -> string.

Record System := {
  db : FootballDatabase;
  pm : PredictionModel;
  log : list LogRecord;
  ticks : nat
}.

Definition logger (r : LogRecord) : M System unit :=
  mmodify (fun s =>
    {| db := db s; pm := pm s; log := log s ++ [r]; ticks := ticks s |}).

Definition set_db (d : FootballDatabase) : M System unit :=
  mmodify (fun s =>
    {| db := d; pm := pm s; log := log s; ticks := ticks s |}).

(** A method of [self.model] run on the model held by the system. *)
Definition on_model {A} (m : M PredictionModel A) : M System A :=
  fun s =>
    let '(pm', r) := m (pm s) in
    ({| db := db s; pm := pm'; log := log s; ticks := ticks s |}, r).

Definition now : M System string :=
  fun s =>
    ({| db := db s; pm := pm s; log := log s; ticks := S (ticks s) |},
     Ok (clock (ticks s))).

(** [fetch_data] for the endpoints answered from [all_data]. *)
Definition fetch_data (endpoint : string) : result json :=
  if String.eqb endpoint "fixtures" then get all_data "fixtures" (JObj [])
  else if String.eqb endpoint "standings" then
    get all_data "standings" (JObj [])
  else if String.eqb endpoint "head_to_head" then
    get all_data "head_to_head" (JObj [])
  else if String.eqb endpoint "injuries" then
    get all_data "injuries" (JObj [])
  else Ok JNull.

Definition path (v : json) (ks : list string) : result json :=
  foldl (fun r k => bind r (fun x => getitem x k)) (Ok v) ks.

(** [process_fixture].  The call of [store_prediction] passes six
    arguments to a method that requires seven ([weather_data] has no
    default): once the arguments are evaluated the call is a
    [TypeError], and the [logger.info] after it is not reached. *)
Definition process_fixture (fixture standings : json) : M System unit :=
  home_team_id <- lift (path fixture ["teams"; "home"; "id"]) ;;
  away_team_id <- lift (path fixture ["teams"; "away"; "id"]) ;;
  league_id <- lift (path fixture ["league"; "id"]) ;;
  t1 <- lift (team_details home_team_id) ;;
  t2 <- lift (team_details away_team_id) ;;
  h2h <- lift (fetch_data "head_to_head") ;;
  ih <- lift (fetch_data "injuries") ;;
  ia <- lift (fetch_data "injuries") ;;
  let match_data :=
    {| md_fixture := fixture; team1_details := t1; team2_details := t2;
       md_standings := standings; head_to_head := h2h;
       injuries_home := ih; injuries_away := ia |} in
  features <- lift (engineer_features match_data) ;;
  p <- on_model (predict features) ;;
  let '(predicted_outcome, probability) := p in
  fixture_id <- lift (path fixture ["fixture"; "id"]) ;;
  home_name <- lift (path fixture ["teams"; "home"; "name"]) ;;
  away_name <- lift (path fixture ["teams"; "away"; "name"]) ;;
  mraise TypeError.

(** [process_league] up to its [await] of the gathered tasks: the
    fixture tasks it creates. *)
Definition process_league (league_id : Z) (season : string)
    : M System (list (M System unit)) :=
  name <- lift (match assoc_Z league_id Config.TOP_LEAGUES with
                | Some n => Ok n
                | None => Raise KeyError
                end) ;;
  logger (ProcessingLeague name) ;;;
  fixtures <- lift (fetch_data "fixtures") ;;
  standings <- lift (fetch_data "standings") ;;
  if truthy fixtures && truthy standings then
    response <- lift (getitem fixtures "response") ;;
    fs <- lift (iter response) ;;
    mret ((fun fixture => process_fixture fixture standings) <$> fs)
  else
    logger (FailedToFetch league_id) ;;; mret [].

(** Tasks that never suspend run one after the other, each to its end;
    a task that raises does not stop the others. *)
Fixpoint run_tasks {A} (tasks : list (M System A)) (s : System)
    : System * list (result A) :=
  match tasks with
  | [] => (s, [])
  | t :: tasks' =>
      let '(s1, r) := t s in
      let '(s2, rs) := run_tasks tasks' s1 in
      (s2, r :: rs)
  end.

Fixpoint first_error {A} (rs : list (result A)) : option PyErr :=
  match rs with
  | [] => None
  | Raise e :: _ => Some e
  | Ok _ :: rs' => first_error rs'
  end.

Fixpoint created {A} (rs : list (result (list A))) : list A :=
  match rs with
  | [] => []
  | Ok l :: rs' => l ++ created rs'
  | Raise _ :: rs' => created rs'
  end.

(** [predict_matches_for_all_leagues].  No coroutine of the class
    suspends before its [gather], so the event loop first runs every
    league task up to its [gather], then every fixture task, league
    by league; [gather] hands the first exception to the caller. *)
Definition predict_matches_for_all_leagues : M System unit :=
  fun s =>
    let '(s1, leagues) :=
      run_tasks
        ((fun l => process_league l.1 Config.CURRENT_SEASON)
           <$> Config.TOP_LEAGUES) s in
    let '(s2, fixtures) := run_tasks (created leagues) s1 in
    match first_error leagues, first_error fixtures with
    | Some e, _ => (s2, Raise e)
    | None, Some e => (s2, Raise e)
    | None, None => (s2, Ok tt)
    end.

(** The columns left by [historical_data.drop([...], axis=1)]. *)
Definition features_of (r : Prediction) : list (option Q) :=
  [Some (probability r); temperature r; wind_speed r; precipitation r].

Definition labels_of (rows : list (Z * Prediction)) : list string :=
  omap (fun kr => actual_outcome kr.2) rows.

Fixpoint stamp (frame : list (string * Q)) : M System (list (string * Q * string)) :=
  match frame with
  | [] => mret []
  | (f, i) :: frame' =>
      t <- now ;; rest <- stamp frame' ;; mret ((f, i, t) :: rest)
  end.

Definition update_model : M System unit :=
  s <- mget ;;
  let historical_data := get_historical_data (db s) in
  match historical_data with
  | _ :: _ =>
      let X := (fun kr => features_of kr.2) <$> historical_data in
      let y := labels_of historical_data in
      on_model (train X y) ;;;
      feature_importance <- on_model get_feature_importance ;;
      rows <- stamp feature_importance ;;
      s <- mget ;;
      set_db (store_feature_importance (db s) rows) ;;;
      logger ModelUpdated
  | [] => logger NoHistoricalData
  end.

Definition evaluate_predictions : M System unit :=
  one_week_ago <- now ;;
  s <- mget ;;
  recent_predictions <-
    lift (call_get_historical_data (db s)
            [("timestamp_after", one_week_ago)]) ;;
  match recent_predictions with
  | _ :: _ =>
      let X := (fun kr => features_of kr.2) <$> recent_predictions in
      let y := labels_of recent_predictions in
      evaluation_metrics <- on_model (evaluate X y) ;;
      logger (RecentPerformance evaluation_metrics)
  | [] => logger NoRecentPredictions
  end.

(** One turn of the loop of [run], up to its [asyncio.sleep]. *)
Definition cycle : M System unit :=
  try_except
    (predict_matches_for_all_leagues ;;;
     update_model ;;;
     evaluate_predictions)
    (fun e => logger (CycleError e)).

(** The first [n] turns of [while True]. *)
Fixpoint run (n : nat) (s : System) : System :=
  match n with
  | O => s
  | S n' => run n' (cycle s).1
  end.
End WithEnvironment.

End Orchestrator.

(** * Specifications

    The sentences of the specification, written over the embedding, and
    the notions they use. *)

(** ** The text of a JSON value *)

Section JsonText.

Definition dquote : string := String "034"%char EmptyString.

(** [", ".join(items)] *)
Fixpoint join (items : list string) : string :=
  match items with
  | [] => EmptyString
  | x :: rest =>
      match rest with
      | [] => x
      | _ :: _ => x ++ ", " ++ join rest
      end
  end.

(** [json.dumps(v)] with its default separators, on the values whose
    numbers are integers and whose strings are made of printable ASCII
    characters other than the quote and the backslash (Python escapes
    the other characters and writes a float with its fraction; neither
    is covered here). *)
Fixpoint dumps (v : json) : string :=
  match v with
  | JNull => "null"
  | JBool true => "true"
  | JBool false => "false"
  | JNum q => pretty (Qnum q `div` Z.pos (Qden q))
  | JStr s => dquote ++ s ++ dquote
  | JArr l => "[" ++ join (List.map dumps l) ++ "]"
  | JObj kv =>
      "{" ++ join (List.map (fun kx => dquote ++ kx.1 ++ dquote ++ ": "
                                       ++ dumps kx.2) kv) ++ "}"
  end.

Fixpoint skip_spaces (s : string) : string :=
  match s with
  | String c s' => if Ascii.eqb c " "%char then skip_spaces s' else s
  | EmptyString => s
  end.

Fixpoint strip_prefix (p s : string) : option string :=
  match p, s with
  | EmptyString, _ => Some s
  | String c p', String d s' =>
      if Ascii.eqb c d then strip_prefix p' s' else None
  | String _ _, EmptyString => None
  end.

Definition digit_of (c : Ascii.ascii) : option Z :=
  let n := Ascii.nat_of_ascii c in
  if (48 <=? n)%nat && (n <=? 57)%nat then Some (Z.of_nat (n - 48)) else None.

(** The digits at the start of [s], read after the value [acc]. *)
Fixpoint read_digits (acc : Z) (s : string) : Z * string :=
  match s with
  | String c s' =>
      match digit_of c with
      | Some d => read_digits (10 * acc + d) s'
      | None => (acc, s)
      end
  | EmptyString => (acc, s)
  end.

(** The characters up to the closing quote. *)
Fixpoint read_string (s : string) : option (string * string) :=
  match s with
  | EmptyString => None
  | String c s' =>
      if Ascii.eqb c "034"%char then Some (EmptyString, s')
      else
        match read_string s' with
        | Some (t, r) => Some (String c t, r)
        | None => None
        end
  end.

(** A value at the start of the text, with the text that follows it;
    [read_items] and [read_members] read what follows the opening bracket
    of a non-empty list or dict. *)
Fixpoint read_value (fuel : nat) (s : string) : option (json * string) :=
  match fuel with
  | O => None
  | S fuel' =>
      let s := skip_spaces s in
      match strip_prefix "null" s with
      | Some r => Some (JNull, r)
      | None =>
      match strip_prefix "true" s with
      | Some r => Some (JBool true, r)
      | None =>
      match strip_prefix "false" s with
      | Some r => Some (JBool false, r)
      | None =>
      match strip_prefix dquote s with
      | Some r =>
          match read_string r with
          | Some (t, r') => Some (JStr t, r')
          | None => None
          end
      | None =>
      match strip_prefix "[" s with
      | Some r =>
          match strip_prefix "]" (skip_spaces r) with
          | Some r' => Some (JArr [], r')
          | None =>
              match read_items fuel' r with
              | Some (l, r') => Some (JArr l, r')
              | None => None
              end
          end
      | None =>
      match strip_prefix "{" s with
      | Some r =>
          match strip_prefix "}" (skip_spaces r) with
          | Some r' => Some (JObj [], r')
          | None =>
              match read_members fuel' r with
              | Some (kv, r') => Some (JObj kv, r')
              | None => None
              end
          end
      | None =>
      match strip_prefix "-" s with
      | Some r =>
          let '(n, r') := read_digits 0 r in
          if String.eqb r r' then None else Some (JNum (inject_Z (- n)), r')
      | None =>
          let '(n, r') := read_digits 0 s in
          if String.eqb s r' then None else Some (JNum (inject_Z n), r')
      end end end end end end end
  end
with read_items (fuel : nat) (s : string) : option (list json * string) :=
  match fuel with
  | O => None
  | S fuel' =>
      match read_value fuel' s with
      | Some (v, r) =>
          match strip_prefix "]" (skip_spaces r) with
          | Some r' => Some ([v], r')
          | None =>
              match strip_prefix "," (skip_spaces r) with
              | Some r' =>
                  match read_items fuel' r' with
                  | Some (l, r'') => Some (v :: l, r'')
                  | None => None
                  end
              | None => None
              end
          end
      | None => None
      end
  end
with read_members (fuel : nat) (s : string)
    : option (list (string * json) * string) :=
  match fuel with
  | O => None
  | S fuel' =>
      match strip_prefix dquote (skip_spaces s) with
      | Some r =>
          match read_string r with
          | Some (k, r1) =>
              match strip_prefix ":" (skip_spaces r1) with
              | Some r2 =>
                  match read_value fuel' r2 with
                  | Some (v, r3) =>
                      match strip_prefix "}" (skip_spaces r3) with
                      | Some r' => Some ([(k, v)], r')
                      | None =>
                          match strip_prefix "," (skip_spaces r3) with
                          | Some r' =>
                              match read_members fuel' r' with
                              | Some (kv, r'') => Some ((k, v) :: kv, r'')
                              | None => None
                              end
                          | None => None
                          end
                      end
                  | None => None
                  end
              | None => None
              end
          | None => None
          end
      | None => None
      end
  end.

(** [json.loads(s)] on a text that [json.dumps] wrote (the only texts
    that the cache holds; on any other text [json.loads] raises, and the
    value here is null). *)
Definition loads (s : string) : json :=
  match read_value (2 * String.length s + 2) s with
  | Some (v, _) => v
  | None => JNull
  end.

(** Python's [json] on the values described at [dumps]. *)
Definition python_json : JsonCodec :=
  {| json_dumps := dumps; json_loads := loads |}.

(** The values on which [dumps] is the text of [json.dumps]: integers,
    and strings of printable ASCII characters other than the quote and
    the backslash. *)
Definition plain_char (c : Ascii.ascii) : bool :=
  let n := Ascii.nat_of_ascii c in
  (32 <=? n)%nat && (n <=? 126)%nat && negb (n =? 34)%nat
  && negb (n =? 92)%nat.

Fixpoint plain_string (s : string) : bool :=
  match s with
  | EmptyString => true
  | String c s' => plain_char c && plain_string s'
  end.

Fixpoint plain (v : json) : bool :=
  match v with
  | JNull | JBool _ => true
  | JNum q => Pos.eqb (Qden q) 1
  | JStr s => plain_string s
  | JArr l => forallb plain l
  | JObj kv => forallb (fun kx => plain_string kx.1 && plain kx.2) kv
  end.

(** The fuel that [read_value] needs for the text of a value. *)
Fixpoint depth (v : json) : nat :=
  match v with
  | JArr l => S (foldr (fun x n => S (Nat.max (depth x) n)) 0%nat l)
  | JObj kv => S (foldr (fun kx n => S (Nat.max (depth kx.2) n)) 0%nat kv)
  | _ => 1
  end.

(** A text that does not go on with a digit: what may follow a number. *)
Definition tail_ok (s : string) : Prop :=
  match s with
  | String c _ => digit_of c = None
  | EmptyString => True
  end.

(** The first character of the text of a value is no space, bracket,
    brace or comma. *)
Definition value_head (t : string) : Prop :=
  ∃ c t', t = String c t'
          ∧ c ≠ " "%char ∧ c ≠ "]"%char ∧ c ≠ "}"%char ∧ c ≠ ","%char.

(** A value whose text the reader reads back, whatever follows it. *)
Definition reads (v : json) : Prop :=
  plain v = true ->
  ∀ fuel rest, (depth v <= fuel)%nat -> tail_ok rest ->
    read_value fuel (dumps v ++ rest) = Some (v, rest).

End JsonText.

(** ** The predictions ledger *)

Section LedgerSpec.
Import Database.

(** The forecast that a call of [store_prediction] writes. *)
Definition forecast_row (league : Z) (home away outcome : string) (prob : Q)
    (weather_data : gmap string Q) (now : string) : Prediction :=
  {| league_id := league; home_team := home; away_team := away;
     predicted_outcome := outcome; actual_outcome := None;
     probability := prob; accuracy := None;
     temperature := weather_data !! "temp_c";
     wind_speed := weather_data !! "wind_kph";
     precipitation := weather_data !! "precip_mm"; timestamp := now |}.

(** The sentence of the specification: a second prediction for a graded
    fixture keeps the recorded outcome and accuracy. *)
Definition reprediction_keeps_grading : Prop :=
  ∀ db fixture_id row league home away outcome prob weather_data now,
    sqlite_int fixture_id = true ->
    sqlite_int league = true ->
    predictions db !! fixture_id = Some row ->
    is_graded row = true ->
    ∃ db' row',
      store_prediction db fixture_id league home away outcome prob
        weather_data now = Ok db'
      ∧ predictions db' !! fixture_id = Some row'
      ∧ actual_outcome row' = actual_outcome row
      ∧ accuracy row' = accuracy row.

(** The database after a list of calls that all return; the calls of the
    examples below do. *)
Definition returned (r : result FootballDatabase) : FootballDatabase :=
  match r with
  | Ok db => db
  | Raise _ => init_db
  end.

(** A ledger with fixture 1 predicted "Home" and graded "Home". *)
Definition graded_ledger : FootballDatabase :=
  returned
    (db <- store_prediction init_db 1 39 "Arsenal" "Chelsea" "Home" (3 # 5)
             ∅ "2024-05-01T10:00:00" ;;
     update_prediction_accuracy db 1 "Home")%py.

(** The sentence of the specification on an unknown fixture: the call
    changes nothing and raises nothing. *)
Definition unknown_fixture_is_ignored : Prop :=
  ∀ db fixture_id actual,
    predictions db !! fixture_id = None ->
    update_prediction_accuracy db fixture_id actual = Ok db.

(** The grade that belongs to a forecast and an outcome. *)
Definition grade (predicted actual : string) : Q :=
  if bool_decide (predicted = actual) then 1%Q else 0%Q.

(** Every row is ungraded with no accuracy, or graded with the accuracy
    of its forecast. *)
Definition row_consistent (row : Prediction) : Prop :=
  match actual_outcome row with
  | Some actual => accuracy row = Some (grade (predicted_outcome row) actual)
  | None => accuracy row = None
  end.

Definition ledger_consistent (db : FootballDatabase) : Prop :=
  ∀ fixture_id row,
    predictions db !! fixture_id = Some row -> row_consistent row.

(** The databases that the operations of the store build; the writes to
    the cache and to the feature-importance table leave the ledger as it
    is. *)
Inductive reachable : FootballDatabase -> Prop :=
| reach_init : reachable init_db
| reach_store db db' fixture_id league home away outcome prob weather_data
    now :
    reachable db ->
    store_prediction db fixture_id league home away outcome prob
      weather_data now = Ok db' ->
    reachable db'
| reach_update db db' fixture_id actual :
    reachable db ->
    update_prediction_accuracy db fixture_id actual = Ok db' ->
    reachable db'
| reach_other db db' :
    reachable db -> predictions db' = predictions db -> reachable db'.




(** League 0 holds one graded miss, league 39 one graded hit. *)
Definition two_league_ledger : FootballDatabase :=
  returned
    (db <- store_prediction init_db 1 0 "A" "B" "Home" (1 # 2) ∅
             "2024-05-01T10:00:00" ;;
     db <- store_prediction db 2 39 "C" "D" "Home" (1 # 2) ∅
             "2024-05-01T10:00:01" ;;
     db <- update_prediction_accuracy db 1 "Away" ;;
     update_prediction_accuracy db 2 "Home")%py.

(** The sentence of the specification on feature importance: what is
    read back after a snapshot was appended is that snapshot, row by
    row. *)
Definition latest_snapshot_is_returned : Prop :=
  ∀ db (frame : list (string * Q * string)) f i t,
    (f, i, t) ∈ frame ->
    (f, i) ∈ get_feature_importance (store_feature_importance db frame).

(** One retrain over two features. *)
Definition two_feature_snapshot : list (string * Q * string) :=
  [ ("probability", (3 # 4)%Q, "2024-05-01T10:00:00.000001");
    ("temperature", (1 # 4)%Q, "2024-05-01T10:00:00.000002") ].

(** A call of [cache_data]. *)
Record CacheWrite := {
  w_endpoint : string;
  w_params : json;
  w_data : json;
  w_now : string
}.

Definition apply_writes `{JsonCodec} (db : FootballDatabase)
    (ws : list CacheWrite) : FootballDatabase :=
  foldl (fun db w => cache_data db (w_endpoint w) (w_params w) (w_data w)
                       (w_now w)) db ws.

(** The row that a write appends. *)
Definition row_of `{JsonCodec} (w : CacheWrite) : CacheRow :=
  {| endpoint := w_endpoint w; params := json_dumps (w_params w);
     data := json_dumps (w_data w); cache_timestamp := w_now w |}.

(** The key of a write is the pair of its endpoint and of the text of
    its parameters. *)
Definition same_key `{JsonCodec} (ep : string) (ps : json) (w : CacheWrite)
    : Prop :=
  w_endpoint w = ep ∧ json_dumps (w_params w) = json_dumps ps.

(** The sentence of the specification on the key: parameters that are
    equal as values are the same key, so that what was cached under one
    of them is found under the other. *)
Definition equal_params_share_entries `{JsonCodec} : Prop :=
  ∀ db ep (p1 p2 dt : json) now,
    py_eq p1 p2 = true ->
    get_cached_data (cache_data db ep p1 dt now) ep p2 ≠ None.

(** Three weather observations, two of them for fixture 1. *)
Definition sample_writes : list CacheWrite :=
  [ {| w_endpoint := "weather"; w_params := weather_params 1;
       w_data := JObj [("condition", JStr "rain"); ("temp_c", JNum 11)];
       w_now := "2024-05-01T10:00:00" |};
    {| w_endpoint := "weather"; w_params := weather_params 1;
       w_data := JObj [("condition", JStr "sun"); ("temp_c", JNum 19)];
       w_now := "2024-05-02T10:00:00" |};
    {| w_endpoint := "weather"; w_params := weather_params 2;
       w_data := JObj [("condition", JStr "snow"); ("temp_c", JNum (-2))];
       w_now := "2024-05-03T10:00:00" |} ].

(** The parameters of a request for the fixtures of a league, and the
    same dict with its keys in the other order. *)
Definition league_params : json :=
  JObj [("league", JNum 39); ("season", JStr "2023")].

Definition league_params_reordered : json :=
  JObj [("season", JStr "2023"); ("league", JNum 39)].

End LedgerSpec.

(** ** The feature engine *)

Section FeatureSpec.
Import FeatureEngineering.

Definition jz (n : Z) : json := JNum (inject_Z n).

(** A head-to-head match as the feed gives it: an ISO date, the two team
    ids and the goals of a played match. *)
Record H2HMatch := {
  m_date : string;
  m_home : Z;
  m_away : Z;
  m_goals_home : Z;
  m_goals_away : Z
}.

Definition encode (m : H2HMatch) : json :=
  JObj [ ("fixture", JObj [("date", JStr (m_date m))]);
         ("teams", JObj [ ("home", JObj [("id", jz (m_home m))]);
                          ("away", JObj [("id", jz (m_away m))]) ]);
         ("goals", JObj [ ("home", jz (m_goals_home m));
                          ("away", jz (m_goals_away m)) ]) ].

(** A head-to-head match that is not played yet: the feed gives null for
    both goals. *)
Definition unplayed (date : string) (home away : Z) : json :=
  JObj [ ("fixture", JObj [("date", JStr date)]);
         ("teams", JObj [ ("home", JObj [("id", jz home)]);
                          ("away", JObj [("id", jz away)]) ]);
         ("goals", JObj [("home", JNull); ("away", JNull)]) ].



(** A match paired with its sort key, its date. *)
Definition keyed (m : H2HMatch) : json * json := (JStr (m_date m), encode m).

Definition won (team : Z) (m : H2HMatch) : Prop :=
  (m_home m = team ∧ m_goals_away m < m_goals_home m)
  ∨ (m_away m = team ∧ m_goals_home m < m_goals_away m).

Definition drawn (m : H2HMatch) : Prop := m_goals_home m = m_goals_away m.

(** 3 for a win of the team, 1 for a draw, 0 otherwise. *)
Definition points (team : Z) (m : H2HMatch) : Z :=
  if bool_decide (won team m) then 3
  else if bool_decide (drawn m) then 1 else 0.

(** The sum of the points divided by (matches considered × 3). *)
Definition points_ratio (team : Z) (sel : list H2HMatch) : Q :=
  (inject_Z (Zsum (points team <$> sel))
   / inject_Z (Z.of_nat (length sel) * 3))%Q.


(** The matches by date, most recent first, equal dates in their order
    in the list. *)
Fixpoint insert_match (x : H2HMatch) (l : list H2HMatch) : list H2HMatch :=
  match l with
  | [] => [x]
  | y :: l' =>
      if String.ltb (m_date x) (m_date y) then y :: insert_match x l'
      else x :: y :: l'
  end.

Definition by_date_desc (ms : list H2HMatch) : list H2HMatch :=
  foldr insert_match [] ms.

(** The standing of a team in the league table. *)
Definition standing (team_id rank : Z) (form : string) (goalsDiff : Z)
    : json :=
  JObj [ ("team", JObj [("id", jz team_id)]);
         ("rank", jz rank);
         ("form", JStr form);
         ("goalsDiff", jz goalsDiff) ].

(** The data of the end-to-end scenario: the two standings, and no
    statistics, injuries or head-to-head matches. *)
Definition scenario_data (home away league : Z) : list (string * json) :=
  [ ("standings",
     JObj [ (str league,
             JObj [ ("response",
                     JArr [ standing home 3 "WWDLW" 10;
                            standing away 10 "LLDWL" (-4) ]) ]) ]) ].

(** Field [name] of the feature row is a number equal to [q]. *)
Definition has_value (fs : list (string * json)) (name : string) (q : Q)
    : Prop :=
  ∃ q', assoc name fs = Some (JNum q') ∧ (q' == q)%Q.

(** The fields of the scenario on which specification and code agree. *)
Definition scenario_common (fs : list (string * json)) : Prop :=
  has_value fs "home_team_rank" 3
  ∧ has_value fs "away_team_rank" 10
  ∧ has_value fs "home_team_form" (7 # 10)
  ∧ has_value fs "home_team_goal_diff" 10
  ∧ has_value fs "away_team_goal_diff" (-4)
  ∧ has_value fs "home_team_injuries" 0
  ∧ has_value fs "away_team_injuries" 0
  ∧ has_value fs "home_team_clean_sheets" 0
  ∧ has_value fs "away_team_clean_sheets" 0
  ∧ has_value fs "home_team_attack" 0
  ∧ has_value fs "away_team_attack" 0
  ∧ has_value fs "home_team_defense" 0
  ∧ has_value fs "away_team_defense" 0
  ∧ has_value fs "home_team_recent_performance" 0
  ∧ has_value fs "away_team_recent_performance" 0.

(** The sentence of the specification: the away form is 0.1. *)
Definition scenario_as_specified : Prop :=
  ∀ home away league,
    home ≠ away ->
    ∃ fs,
      feature_engineering (scenario_data home away league) home away league
      = Ok fs
      ∧ scenario_common fs
      ∧ has_value fs "away_team_form" (1 # 10).

End FeatureSpec.

(** ** The model and the orchestrator *)

Section PipelineSpec.
Import Database Model Orchestrator.

(** The sentences of the specification on the model that is not ready:
    [predict] raises an error of class ModelNotReadyError, and
    [process_fixture] absorbs it, so that the fixture is skipped and the
    task ends normally. *)
Definition predict_raises_model_not_ready : Prop :=
  ∀ (sk : Sklearn) (m : PredictionModel) (X : Frame),
    model m = None ->
    ∃ e, (predict X m).2 = Raise e
         ∧ exc_class e = "ModelNotReadyError".

Definition fixture_is_skipped : Prop :=
  ∀ (sk : Sklearn) (all_data : json) (TeamDetails : Type)
    (team_details : json -> result TeamDetails)
    (engineer_features : MatchData TeamDetails -> result Frame)
    (s : System) (fixture standings : json),
    model (pm s) = None ->
    ∃ s', process_fixture all_data TeamDetails team_details
            engineer_features fixture standings s = (s', Ok tt).

(** The task of a fixture reaches the call of [predict], with the frame
    [X]: the fixture has the ids that [process_fixture] reads, the
    details of both teams are found, and [engineer_features] returns
    [X]. *)
Definition reaches_predict (all_data : json) (TeamDetails : Type)
    (team_details : json -> result TeamDetails)
    (engineer_features : MatchData TeamDetails -> result Frame)
    (fixture standings : json) (X : Frame) : Prop :=
  ∃ home away league t1 t2 h2h ih ia,
    path fixture ["teams"; "home"; "id"] = Ok home
    ∧ path fixture ["teams"; "away"; "id"] = Ok away
    ∧ path fixture ["league"; "id"] = Ok league
    ∧ team_details home = Ok t1
    ∧ team_details away = Ok t2
    ∧ fetch_data all_data "head_to_head" = Ok h2h
    ∧ fetch_data all_data "injuries" = Ok ih
    ∧ fetch_data all_data "injuries" = Ok ia
    ∧ engineer_features
        {| md_fixture := fixture; team1_details := t1; team2_details := t2;
           md_standings := standings; head_to_head := h2h;
           injuries_home := ih; injuries_away := ia |} = Ok X.

(** The sentence of the specification on training without data: the
    error is of class InsufficientDataError. *)
Definition train_raises_insufficient_data : Prop :=
  ∀ (sk : Sklearn) (m : PredictionModel) (y : list string),
    ∃ e, (train [] y m).2 = Raise e
         ∧ exc_class e = "InsufficientDataError".

(** The system with some records added to its log. *)
Definition with_log `{Sklearn} (s : System) (rs : list LogRecord) : System :=
  {| db := db s; pm := pm s; log := (log s ++ rs)%list; ticks := ticks s |}.

(** A library for the examples: one class, "Home", always predicted. *)
Definition sample_sklearn : Sklearn :=
  {| fitted_scaler := unit;
     classifier := unit;
     shuffle_42 := seq 0;
     scaler_fit := fun _ => Ok tt;
     scaler_transform := fun _ X => Ok X;
     grid_search_fit := fun _ _ => Ok tt;
     clf_predict := fun _ X => Ok ((fun _ => "Home") <$> X);
     clf_predict_proba := fun _ X => Ok ((fun _ => [1%Q]) <$> X);
     classes_ := fun _ => ["Home"];
     feature_names_in_ := fun _ => Ok ["probability"];
     feature_importances_ := fun _ => [1%Q];
     label_scores := fun _ _ => Ok (1%Q, 1%Q, 1%Q, 1%Q);
     roc_auc_score := fun _ _ => Ok 1%Q;
     dump_model := fun _ => Written;
     dump_scaler := fun _ => Written |}.

(** An environment for the examples: one fixture, a league table, and a
    feature row for every fixture. *)
Definition sample_fixture : json :=
  JObj [ ("fixture", JObj [("id", jz 1001)]);
         ("league", JObj [("id", jz 39)]);
         ("teams",
          JObj [ ("home", JObj [("id", jz 33); ("name", JStr "A")]);
                 ("away", JObj [("id", jz 34); ("name", JStr "B")]) ]) ].

Definition sample_all_data : json :=
  JObj [ ("fixtures", JObj [("response", JArr [sample_fixture])]);
         ("standings", JObj [("response", JArr [standing 33 3 "WWDLW" 10])]) ].

Definition sample_team_details (id : json) : result unit := Ok tt.

Definition sample_features (md : MatchData unit) : result Frame :=
  Ok [[Some (1 # 2)%Q]].

Definition sample_clock (k : nat) : string := "2024-05-01T10:00:00".

(** The system at startup when no artifact is on disk. *)
Definition fresh_system `{Sklearn} : System :=
  {| db := init_db; pm := init Absent Absent; log := []; ticks := 0 |}.

End PipelineSpec.


(** ** Further notions *)

Section MoreSpec.
Import FeatureEngineering.

(** The number of occurrences of a character in a string. *)
Fixpoint count_char (c : Ascii.ascii) (s : string) : nat :=
  match s with
  | EmptyString => 0
  | String c' s' => (if Ascii.eqb c' c then 1 else 0) + count_char c s'
  end.

(** The names of the sixteen features, in the order of the frame. *)
Definition feature_names : list string :=
  [ "home_team_rank"; "away_team_rank"; "home_team_form"; "away_team_form";
    "home_team_injuries"; "away_team_injuries"; "home_team_goal_diff";
    "away_team_goal_diff"; "home_team_clean_sheets";
    "away_team_clean_sheets"; "home_team_attack"; "away_team_attack";
    "home_team_defense"; "away_team_defense";
    "home_team_recent_performance"; "away_team_recent_performance" ].

End MoreSpec.

Section MoreModelSpec.
Import Model.

(** A model with a classifier and a fitted scaler of the sample library,
    and nothing on disk. *)
Definition sample_ready_model : @PredictionModel sample_sklearn :=
  {| model := Some (tt : @classifier sample_sklearn);
     scaler := Some (tt : @fitted_scaler sample_sklearn);
     model_path := Absent; scaler_path := Absent; model_log := [] |}.

End MoreModelSpec.

Section MoreOrchestratorSpec.
Import Database Model Orchestrator.
Context `{Sklearn}.

(** A step of the orchestrator that leaves the predictions table and the
    cache as they are. *)
Definition keeps_ledger {A} (m : M System A) : Prop :=
  ∀ s, predictions (db (m s).1) = predictions (db s)
       ∧ cache (db (m s).1) = cache (db s).

(** A task that raises in every state and changes nothing. *)
Definition always_raises {A} (t : M System A) : Prop :=
  ∀ s, ∃ e, t s = (s, Raise e).

(** What [SELECT feature, importance] reads of the feature-importance
    table, in the order of insertion. *)
Definition importance_rows (d : FootballDatabase) : list (string * Q) :=
  (fun r => (feature r, importance r)) <$> feature_importance d.

End MoreOrchestratorSpec.

Section MoreOrchestratorExamples.
Import Database Model Orchestrator.

(** A system with one graded fixture in its ledger and a ready model. *)
Definition one_graded_system : @System sample_sklearn :=
  {| db := graded_ledger; pm := sample_ready_model; log := [];
     ticks := 0 |}.

End MoreOrchestratorExamples.
(** * Properties *)

(** ** The byte order of TEXT values *)

Section StringOrder.

Lemma ascii_compare_N (a b : Ascii.ascii) :
  Ascii.compare a b = N.compare (Ascii.N_of_ascii a) (Ascii.N_of_ascii b).
Proof. reflexivity. Qed.

Lemma string_leb_trans (s1 s2 s3 : string) :
  String.leb s1 s2 = true -> String.leb s2 s3 = true ->
  String.leb s1 s3 = true.
Proof.
  unfold String.leb. revert s2 s3.
  induction s1 as [|c1 s1 IH]; intros [|c2 s2] [|c3 s3]; simpl; try done.
  rewrite !ascii_compare_N.
  destruct (N.compare_spec (Ascii.N_of_ascii c1) (Ascii.N_of_ascii c2)) as [E12|L12|G12];
    destruct (N.compare_spec (Ascii.N_of_ascii c2) (Ascii.N_of_ascii c3)) as [E23|L23|G23];
    destruct (N.compare_spec (Ascii.N_of_ascii c1) (Ascii.N_of_ascii c3)) as [E13|L13|G13];
    try done; try lia.
  apply IH.
Qed.

Lemma string_ltb_leb (s1 s2 : string) :
  String.ltb s1 s2 = true -> String.leb s1 s2 = true.
Proof. unfold String.ltb, String.leb. by destruct (String.compare s1 s2). Qed.

Lemma string_ltb_false_leb (s1 s2 : string) :
  String.ltb s1 s2 = false -> String.leb s2 s1 = true.
Proof.
  unfold String.ltb, String.leb. rewrite (String.compare_antisym s1 s2).
  by destruct (String.compare s2 s1).
Qed.

Lemma string_leb_refl (s : string) : String.leb s s = true.
Proof. destruct (String.leb_total s s); done. Qed.

End StringOrder.

(** ** ORDER BY timestamp DESC LIMIT 1 *)

Section Latest.
Import Database.
Context {A : Type} (ts : A -> string).

Lemma latest_from_elem (best : A) (l : list A) :
  latest_from ts best l ∈ best :: l.
Proof.
  revert best. induction l as [|r l IH]; intros best; simpl.
  - set_solver.
  - destruct (String.ltb (ts best) (ts r)).
    + apply elem_of_cons. right. apply IH.
    + pose proof (IH best) as Hb.
      apply elem_of_cons in Hb as [Hb|Hb].
      * rewrite Hb. apply elem_of_cons. by left.
      * apply elem_of_cons. right. apply elem_of_cons. by right.
Qed.

Lemma latest_from_max (best : A) (l : list A) (r : A) :
  r ∈ best :: l ->
  String.leb (ts r) (ts (latest_from ts best l)) = true.
Proof.
  revert best r. induction l as [|x l IH]; intros best r Hr; simpl.
  - apply list_elem_of_singleton in Hr as ->. apply string_leb_refl.
  - destruct (String.ltb (ts best) (ts x)) eqn:Hlt.
    + apply elem_of_cons in Hr as [->|Hr]; [|by apply IH].
      apply string_leb_trans with (ts x); [by apply string_ltb_leb|].
      apply IH. set_solver.
    + apply elem_of_cons in Hr as [->|Hr]; [apply IH; set_solver|].
      apply elem_of_cons in Hr as [->|Hr]; [|apply IH; set_solver].
      apply string_leb_trans with (ts best);
        [by apply string_ltb_false_leb|].
      apply IH. set_solver.
Qed.

Lemma order_by_limit_1_none (l : list A) :
  order_by_timestamp_desc_limit_1 ts l = None <-> l = [].
Proof. destruct l; simpl; split; done. Qed.

Lemma order_by_limit_1_some (l : list A) (r : A) :
  order_by_timestamp_desc_limit_1 ts l = Some r ->
  r ∈ l ∧ ∀ r', r' ∈ l -> String.leb (ts r') (ts r) = true.
Proof.
  destruct l as [|b l]; simpl; [done|]. intros [= <-]. split.
  - apply latest_from_elem.
  - intros r'. apply latest_from_max.
Qed.

End Latest.

(** ** The predictions ledger *)

Section Ledger.
Import Database.


Lemma store_prediction_inv db db' fixture_id league home away outcome prob
    weather_data now :
  store_prediction db fixture_id league home away outcome prob weather_data
    now = Ok db' ->
  sqlite_int fixture_id = true ∧ sqlite_int league = true
  ∧ db' = insert_or_replace db fixture_id league home away outcome prob
            weather_data now.
Proof.
  unfold store_prediction.
  destruct (sqlite_int fixture_id), (sqlite_int league); simpl;
    intros [= <-]; done.
Qed.

Lemma update_prediction_accuracy_inv db db' fixture_id actual :
  update_prediction_accuracy db fixture_id actual = Ok db' ->
  sqlite_int fixture_id = true
  ∧ db' = select_then_update db fixture_id actual.
Proof.
  unfold update_prediction_accuracy.
  destruct (sqlite_int fixture_id); intros [= <-]; done.
Qed.

Lemma lookup_insert_or_replace db fixture_id league home away outcome prob
    weather_data now :
  predictions (insert_or_replace db fixture_id league home away outcome prob
                 weather_data now) !! fixture_id
  = Some (forecast_row league home away outcome prob weather_data now).
Proof. unfold insert_or_replace; simpl. by rewrite lookup_insert_eq. Qed.

Lemma update_unknown db fixture_id actual :
  predictions db !! fixture_id = None ->
  select_then_update db fixture_id actual = db.
Proof. intros Hn. unfold select_then_update. by rewrite Hn. Qed.

Lemma update_known db fixture_id actual row :
  predictions db !! fixture_id = Some row ->
  predictions (select_then_update db fixture_id actual)
  = <[fixture_id :=
        set_outcome actual
          (if String.eqb (predicted_outcome row) actual then 1%Q else 0%Q)
          row]> (predictions db).
Proof. intros Hs. unfold select_then_update. by rewrite Hs. Qed.

Lemma grade_eqb predicted actual :
  (if String.eqb predicted actual then 1%Q else 0%Q) = grade predicted actual.
Proof.
  unfold grade. destruct (String.eqb_spec predicted actual).
  - by rewrite bool_decide_eq_true_2.
  - by rewrite bool_decide_eq_false_2.
Qed.

Lemma insert_or_replace_consistent db fixture_id league home away outcome
    prob weather_data now :
  ledger_consistent db ->
  ledger_consistent (insert_or_replace db fixture_id league home away outcome
                       prob weather_data now).
Proof.
  intros Hc k row. unfold insert_or_replace; simpl.
  destruct (decide (fixture_id = k)) as [->|Hne].
  - rewrite lookup_insert_eq. by intros [= <-].
  - rewrite lookup_insert_ne by done. apply Hc.
Qed.

Lemma update_consistent db fixture_id actual :
  ledger_consistent db ->
  ledger_consistent (select_then_update db fixture_id actual).
Proof.
  intros Hc k row.
  destruct (predictions db !! fixture_id) as [old|] eqn:Hold.
  - rewrite (update_known _ _ _ _ Hold).
    destruct (decide (fixture_id = k)) as [->|Hne].
    + rewrite lookup_insert_eq. intros [= <-].
      unfold row_consistent; simpl. by rewrite grade_eqb.
    + rewrite lookup_insert_ne by done. apply Hc.
  - rewrite (update_unknown _ _ _ Hold). apply Hc.
Qed.

Lemma reachable_consistent db :
  reachable db -> ledger_consistent db.
Proof.
  induction 1 as [|db db' ???????? _ IH Hst|db db' ?? _ IH Hup
                  |db db' _ IH Heq].
  - intros k row. change (predictions init_db) with (∅ : gmap Z Prediction).
    by rewrite lookup_empty.
  - apply store_prediction_inv in Hst as (_ & _ & ->).
    by apply insert_or_replace_consistent.
  - apply update_prediction_accuracy_inv in Hup as (_ & ->).
    by apply update_consistent.
  - intros k row. rewrite Heq. apply IH.
Qed.

(** Every key of a table that the store built is an integer of SQLite. *)
Lemma reachable_keys db k row :
  reachable db -> predictions db !! k = Some row -> sqlite_int k = true.
Proof.
  intros Hr. revert k row.
  induction Hr as [|db db' fixture_id ??????? _ IH Hst
                   |db db' fixture_id actual _ IH Hup
                   |db db' _ IH Heq]; intros k row Hk.
  - change (predictions init_db) with (∅ : gmap Z Prediction) in Hk.
    by rewrite lookup_empty in Hk.
  - apply store_prediction_inv in Hst as (Hf & _ & ->).
    unfold insert_or_replace in Hk; simpl in Hk.
    destruct (decide (fixture_id = k)) as [<-|Hne]; [done|].
    rewrite lookup_insert_ne in Hk by done. by apply (IH k row).
  - apply update_prediction_accuracy_inv in Hup as (Hf & ->).
    destruct (predictions db !! fixture_id) as [old|] eqn:Hold.
    + rewrite (update_known _ _ _ _ Hold) in Hk.
      destruct (decide (fixture_id = k)) as [<-|Hne]; [done|].
      rewrite lookup_insert_ne in Hk by done. by apply (IH k row).
    + rewrite (update_unknown _ _ _ Hold) in Hk. by apply (IH k row).
  - rewrite Heq in Hk. by apply (IH k row).
Qed.

Lemma graded_ledger_built :
  (db <- store_prediction init_db 1 39 "Arsenal" "Chelsea" "Home" (3 # 5) ∅
           "2024-05-01T10:00:00" ;;
   update_prediction_accuracy db 1 "Home")%py
  = Ok graded_ledger.
Proof. reflexivity. Qed.

Lemma two_league_ledger_built :
  (db <- store_prediction init_db 1 0 "A" "B" "Home" (1 # 2) ∅
           "2024-05-01T10:00:00" ;;
   db <- store_prediction db 2 39 "C" "D" "Home" (1 # 2) ∅
           "2024-05-01T10:00:01" ;;
   db <- update_prediction_accuracy db 1 "Away" ;;
   update_prediction_accuracy db 2 "Home")%py
  = Ok two_league_ledger.
Proof. reflexivity. Qed.




(** C1, as stated, fails: on [graded_ledger] a second prediction for
    fixture 1 leaves the row without outcome and accuracy. *)
Lemma reprediction_erases_grading : ¬ reprediction_keeps_grading.
Proof.
  intros Hclaim.
  destruct (Hclaim graded_ledger 1
              (set_outcome "Home" 1
                 (forecast_row 39 "Arsenal" "Chelsea" "Home" (3 # 5) ∅
                    "2024-05-01T10:00:00"))
              39 "Arsenal" "Chelsea" "Away" (1 # 2)%Q ∅
              "2024-05-02T10:00:00" eq_refl eq_refl eq_refl eq_refl)
    as (db' & row' & Hst & Hrow & Hout & _).
  apply store_prediction_inv in Hst as (_ & _ & ->).
  rewrite lookup_insert_or_replace in Hrow.
  injection Hrow as <-. discriminate Hout.
Qed.

(** C1, amended: [store_prediction] replaces the whole row of the
    fixture.  When it returns (the two ids are integers of SQLite; with
    another id the call raises [OverflowError]), the forecast fields are
    those of the call, [actual_outcome] and [accuracy] are reset to NULL
    whatever they were, every other row and the other tables are
    untouched, and a later [update_prediction_accuracy] grades the new
    forecast. *)
Theorem store_prediction_replaces_row db fixture_id league home away
    outcome prob weather_data now :
  match store_prediction db fixture_id league home away outcome prob
          weather_data now with
  | Ok db' =>
      sqlite_int fixture_id = true
      ∧ sqlite_int league = true
      ∧ predictions db' !! fixture_id
        = Some (forecast_row league home away outcome prob weather_data now)
      ∧ (predictions db' !! fixture_id ≫= actual_outcome) = None
      ∧ (predictions db' !! fixture_id ≫= accuracy) = None
      ∧ delete fixture_id (predictions db')
        = delete fixture_id (predictions db)
      ∧ cache db' = cache db
      ∧ feature_importance db' = feature_importance db
      ∧ ∀ actual,
          ∃ db'',
            update_prediction_accuracy db' fixture_id actual = Ok db''
            ∧ predictions db'' !! fixture_id
              = Some (set_outcome actual (grade outcome actual)
                        (forecast_row league home away outcome prob
                           weather_data now))
  | Raise e =>
      e = OverflowError
      ∧ sqlite_int fixture_id && sqlite_int league = false
  end.
Proof.
  unfold store_prediction.
  destruct (sqlite_int fixture_id) eqn:Hf; [|done].
  destruct (sqlite_int league) eqn:Hl; [|done]. cbn [andb].
  rewrite lookup_insert_or_replace.
  repeat split.
  - unfold insert_or_replace; simpl. apply delete_insert_eq.
  - intros actual. eexists. unfold update_prediction_accuracy.
    rewrite Hf. split; [reflexivity|].
    rewrite (update_known _ _ _ _
               (lookup_insert_or_replace _ _ _ _ _ _ _ _ _)).
    rewrite lookup_insert_eq. simpl. by rewrite grade_eqb.
Qed.

(** C6, as stated, fails: for an unknown fixture id that is not an
    integer of SQLite the call raises [OverflowError]. *)
Lemma unknown_fixture_raises : ¬ unknown_fixture_is_ignored.
Proof.
  intros Hclaim.
  pose proof (Hclaim init_db (2 ^ 63) "Home" eq_refl) as Hup.
  discriminate Hup.
Qed.

(** C6, amended: with a fixture id that SQLite cannot hold,
    [update_prediction_accuracy] raises [OverflowError]; with any other
    unknown id it leaves the database as it is and raises nothing; for a
    known fixture it records the outcome and the accuracy 1 when the
    stored forecast equals the outcome, 0 otherwise, and changes nothing
    else; and in every database built by the store every key is an
    integer of SQLite and every graded row carries the accuracy of its
    forecast. *)
Theorem update_prediction_accuracy_spec db fixture_id actual :
  (sqlite_int fixture_id = false ->
     update_prediction_accuracy db fixture_id actual = Raise OverflowError)
  ∧ (sqlite_int fixture_id = true ->
     predictions db !! fixture_id = None ->
     update_prediction_accuracy db fixture_id actual = Ok db)
  ∧ (∀ row,
       sqlite_int fixture_id = true ->
       predictions db !! fixture_id = Some row ->
       ∃ db' row',
         update_prediction_accuracy db fixture_id actual = Ok db'
         ∧ predictions db' !! fixture_id = Some row'
         ∧ actual_outcome row' = Some actual
         ∧ accuracy row' = Some (grade (predicted_outcome row) actual)
         ∧ (accuracy row' = Some 1%Q <-> predicted_outcome row = actual)
         ∧ set_outcome actual (grade (predicted_outcome row) actual) row
           = row'
         ∧ delete fixture_id (predictions db')
           = delete fixture_id (predictions db)
         ∧ cache db' = cache db
         ∧ feature_importance db' = feature_importance db)
  ∧ (reachable db ->
     ∀ k row, predictions db !! k = Some row ->
       sqlite_int k = true
       ∧ match actual_outcome row with
         | Some a => accuracy row = Some (grade (predicted_outcome row) a)
         | None => accuracy row = None
         end).
Proof.
  unfold update_prediction_accuracy.
  split; [by intros ->|].
  split; [intros -> Hn; by rewrite update_unknown|]. split.
  - intros row -> Hrow.
    exists (select_then_update db fixture_id actual),
      (set_outcome actual (grade (predicted_outcome row) actual) row).
    rewrite (update_known _ _ _ _ Hrow), grade_eqb, lookup_insert_eq.
    repeat split; try done.
    + simpl. unfold grade. case_bool_decide; [done|]. intros [=].
    + simpl. unfold grade. intros ->. by rewrite bool_decide_eq_true_2.
    + apply delete_insert_eq.
    + unfold select_then_update. by rewrite Hrow.
    + unfold select_then_update. by rewrite Hrow.
  - intros Hr k row Hk. split; [by apply (reachable_keys db k row)|].
    by apply (reachable_consistent db Hr k row).
Qed.

Lemma update_prediction_accuracy_witness :
  sqlite_int 7 = true
  ∧ predictions
      (insert_or_replace init_db 7 39 "A" "B" "Draw" (1 # 2) ∅
         "2024-05-01T10:00:00") !! 7
    = Some (forecast_row 39 "A" "B" "Draw" (1 # 2) ∅ "2024-05-01T10:00:00")
  ∧ ∃ db' row',
      update_prediction_accuracy
        (insert_or_replace init_db 7 39 "A" "B" "Draw" (1 # 2) ∅
           "2024-05-01T10:00:00") 7 "Draw" = Ok db'
      ∧ predictions db' !! 7 = Some row'
      ∧ actual_outcome row' = Some "Draw"
      ∧ accuracy row' = Some 1%Q.
Proof.
  split; [reflexivity|]. split; [reflexivity|].
  destruct (proj1 (proj2 (proj2 (update_prediction_accuracy_spec
              (insert_or_replace init_db 7 39 "A" "B" "Draw" (1 # 2) ∅
                 "2024-05-01T10:00:00") 7 "Draw")))
              (forecast_row 39 "A" "B" "Draw" (1 # 2) ∅
                 "2024-05-01T10:00:00") eq_refl eq_refl)
    as (db' & row' & H0 & H1 & H2 & H3 & _).
  exists db', row'. repeat split; assumption.
Defined.

End Ledger.

(** ** Mean accuracy *)

Section MeanAccuracy.
Import Database.






End MeanAccuracy.

(** ** Historical data and feature importance *)

Section History.
Import Database.

#[local] Instance rowid_le_total : Total rowid_le.
Proof. intros a b. unfold rowid_le. lia. Qed.

#[local] Instance rowid_le_trans : Transitive rowid_le.
Proof. intros a b c. unfold rowid_le. lia. Qed.

Lemma table_scan_perm db : table_scan db ≡ₚ map_to_list (predictions db).
Proof. apply merge_sort_Permutation. Qed.

Lemma StronglySorted_filter {A} (R : relation A) (P : A -> Prop)
    `{∀ x, Decision (P x)} (l : list A) :
  StronglySorted R l -> StronglySorted R (filter P l).
Proof.
  induction 1 as [|x l Hs IH Hx]; [constructor|].
  rewrite filter_cons. case_decide; [|done].
  constructor; [done|].
  apply Forall_forall. intros y [_ Hy]%list_elem_of_filter.
  rewrite Forall_forall in Hx. by apply Hx.
Qed.

Lemma StronglySorted_strict (l : list (Z * Prediction)) :
  StronglySorted rowid_le l -> NoDup l.*1 ->
  StronglySorted (fun a b => a.1 < b.1) l.
Proof.
  induction 1 as [|x l Hs IH Hx]; [constructor|].
  rewrite fmap_cons. intros [Hnin Hnd]%NoDup_cons.
  constructor; [by apply IH|].
  apply Forall_forall. intros y Hy.
  rewrite Forall_forall in Hx. pose proof (Hx y Hy) as Hle.
  unfold rowid_le in Hle.
  assert (x.1 ≠ y.1); [|lia].
  intros Heq. apply Hnin. rewrite Heq.
  apply list_elem_of_fmap. by exists y.
Qed.

Lemma table_scan_ascending db :
  StronglySorted (fun a b => a.1 < b.1) (table_scan db).
Proof.
  apply StronglySorted_strict.
  - apply StronglySorted_merge_sort; apply _.
  - rewrite table_scan_perm. apply NoDup_fst_map_to_list.
Qed.

Lemma get_historical_data_elem db k row :
  (k, row) ∈ get_historical_data db
  <-> predictions db !! k = Some row ∧ is_graded row = true.
Proof.
  unfold get_historical_data.
  rewrite list_elem_of_filter, table_scan_perm, elem_of_map_to_list.
  simpl. tauto.
Qed.

Lemma get_historical_data_ascending db :
  StronglySorted (fun a b => a.1 < b.1) (get_historical_data db).
Proof. apply StronglySorted_filter, table_scan_ascending. Qed.

(** C8, as stated, fails: after one retrain over two features only one
    row is read back. *)
Lemma latest_snapshot_is_not_returned : ¬ latest_snapshot_is_returned.
Proof.
  intros Hclaim.
  pose proof (Hclaim init_db two_feature_snapshot "probability" (3 # 4)%Q
                "2024-05-01T10:00:00.000001") as Hin.
  assert (Hget : get_feature_importance
                   (store_feature_importance init_db two_feature_snapshot)
                 = [("temperature", (1 # 4)%Q)]) by reflexivity.
  rewrite Hget in Hin.
  assert (Hmem : ("probability", (3 # 4)%Q, "2024-05-01T10:00:00.000001")
                 ∈ two_feature_snapshot) by (apply elem_of_cons; by left).
  specialize (Hin Hmem).
  apply list_elem_of_singleton in Hin. discriminate Hin.
Qed.

(** C8, amended: [get_feature_importance] returns at most one row: the
    empty table when nothing was ever appended, and otherwise the
    feature and importance of one stored row whose timestamp is the
    latest of the table. *)
Theorem get_feature_importance_latest_row db :
  (feature_importance db = [] -> get_feature_importance db = [])
  ∧ (feature_importance db ≠ [] ->
     ∃ r, r ∈ feature_importance db
          ∧ (∀ r', r' ∈ feature_importance db ->
               String.leb (fi_timestamp r') (fi_timestamp r) = true)
          ∧ get_feature_importance db = [(feature r, importance r)]).
Proof.
  unfold get_feature_importance. split.
  - by intros ->.
  - intros Hne.
    destruct (order_by_timestamp_desc_limit_1 fi_timestamp
                (feature_importance db)) as [r|] eqn:Hr.
    + apply order_by_limit_1_some in Hr as [Hin Hmax]. by exists r.
    + by apply order_by_limit_1_none in Hr.
Qed.

Lemma get_feature_importance_witness :
  feature_importance (store_feature_importance init_db two_feature_snapshot)
    ≠ []
  ∧ ∃ r, get_feature_importance
           (store_feature_importance init_db two_feature_snapshot)
         = [(feature r, importance r)].
Proof.
  split; [discriminate|].
  destruct (proj2 (get_feature_importance_latest_row
              (store_feature_importance init_db two_feature_snapshot)))
    as (r & _ & _ & Hr); [discriminate|].
  by exists r.
Defined.

End History.

(** ** The text of a JSON value, read back *)

Section JsonRoundTrip.

Lemma digit_of_pretty_N_char (x : N) :
  (x < 10)%N -> digit_of (pretty_N_char x) = Some (Z.of_N x).
Proof.
  intros Hx.
  assert (x = 0 ∨ x = 1 ∨ x = 2 ∨ x = 3 ∨ x = 4 ∨ x = 5 ∨ x = 6 ∨ x = 7
          ∨ x = 8 ∨ x = 9)%N as Hc by lia.
  repeat (destruct Hc as [->|Hc]; [reflexivity|]). by subst.
Qed.

Lemma string_app_cons (c : Ascii.ascii) (s1 s2 : string) :
  String c s1 ++ s2 = String c (s1 ++ s2).
Proof. reflexivity. Qed.

Lemma string_app_assoc (s1 s2 s3 : string) :
  (s1 ++ s2) ++ s3 = s1 ++ (s2 ++ s3).
Proof.
  induction s1 as [|c s1 IH]; [done|]. by rewrite !string_app_cons, IH.
Qed.

Lemma string_length_app (s1 s2 : string) :
  String.length (s1 ++ s2) = (String.length s1 + String.length s2)%nat.
Proof.
  induction s1 as [|c s1 IH]; [done|].
  rewrite string_app_cons. simpl. by rewrite IH.
Qed.

Lemma pretty_N_go_app (x : N) (s : string) :
  pretty_N_go x s = pretty_N_go x EmptyString ++ s.
Proof.
  revert s. induction (N.lt_wf_0 x) as [x _ IH]; intros s.
  assert (x = 0 ∨ 0 < x)%N as [->|Hx] by lia; [done|].
  rewrite !(pretty_N_go_step x) by done.
  assert (Hlt : (x `div` 10 < x)%N) by (by apply N.div_lt).
  rewrite (IH _ Hlt (String _ s)), (IH _ Hlt (String _ EmptyString)).
  by rewrite string_app_assoc.
Qed.

Lemma read_digits_tail (acc : Z) (s : string) :
  tail_ok s -> read_digits acc s = (acc, s).
Proof. destruct s as [|c s]; simpl; [done|]. by intros ->. Qed.

Lemma read_digits_pretty_N_go (x : N) :
  ∃ p, ∀ acc s,
    read_digits acc (pretty_N_go x s) = read_digits (acc * p + Z.of_N x) s.
Proof.
  induction (N.lt_wf_0 x) as [x _ IH].
  assert (x = 0 ∨ 0 < x)%N as [->|Hx] by lia.
  - exists 1. intros acc s. rewrite pretty_N_go_0. f_equal. lia.
  - destruct (IH (x `div` 10)%N) as [p Hp]; [by apply N.div_lt|].
    exists (10 * p). intros acc s. rewrite pretty_N_go_step by done.
    rewrite Hp. cbn [read_digits].
    rewrite digit_of_pretty_N_char by (by apply N.mod_lt).
    f_equal.
    pose proof (N.div_mod x 10 ltac:(done)) as Hdm.
    apply (f_equal Z.of_N) in Hdm.
    rewrite N2Z.inj_add, N2Z.inj_mul in Hdm.
    change (Z.of_N 10) with 10 in Hdm. nia.
Qed.

Lemma pretty_N_go_head (x : N) (s : string) :
  (0 < x)%N ->
  ∃ c s', pretty_N_go x s = String c s' ∧ ∃ d, digit_of c = Some d.
Proof.
  revert s. induction (N.lt_wf_0 x) as [x _ IH]; intros s Hx.
  rewrite pretty_N_go_step by done.
  destruct (N.eq_0_gt_0_cases (x `div` 10)%N) as [->|Hd].
  - rewrite pretty_N_go_0. do 2 eexists. split; [done|].
    eexists. apply digit_of_pretty_N_char. by apply N.mod_lt.
  - apply IH; [by apply N.div_lt|done].
Qed.

Lemma string_eqb_app_ne (c : Ascii.ascii) (t s : string) :
  String.eqb (String c t ++ s) s = false.
Proof.
  apply String.eqb_neq. intros Heq. apply (f_equal String.length) in Heq.
  simpl in Heq. rewrite string_length_app in Heq. lia.
Qed.

Lemma json_ind' (P : json -> Prop) :
  P JNull -> (∀ b, P (JBool b)) -> (∀ q, P (JNum q)) -> (∀ s, P (JStr s)) ->
  (∀ l, Forall P l -> P (JArr l)) ->
  (∀ kv, Forall (fun kx => P kx.2) kv -> P (JObj kv)) ->
  ∀ v, P v.
Proof.
  intros Hnull Hbool Hnum Hstr Harr Hobj.
  fix IH 1. intros [|b|q|s|l|kv].
  - exact Hnull.
  - apply Hbool.
  - apply Hnum.
  - apply Hstr.
  - apply Harr. induction l as [|x l IHl]; constructor; [apply IH|exact IHl].
  - apply Hobj. induction kv as [|[k x] kv IHkv]; constructor;
      [apply IH|exact IHkv].
Qed.

Lemma string_app_nil_r (s : string) : s ++ EmptyString = s.
Proof.
  induction s as [|c s IH]; [done|]. by rewrite string_app_cons, IH.
Qed.

Lemma plain_char_not_quote (c : Ascii.ascii) :
  plain_char c = true -> Ascii.eqb c "034"%char = false.
Proof.
  intros Hp. apply Ascii.eqb_neq. intros ->. discriminate Hp.
Qed.

Lemma read_string_plain (s rest : string) :
  plain_string s = true ->
  read_string (s ++ String "034"%char rest) = Some (s, rest).
Proof.
  induction s as [|c s IH]; [done|].
  cbn [plain_string]. intros [Hc Hs]%andb_true_iff.
  rewrite string_app_cons. cbn [read_string].
  by rewrite (plain_char_not_quote c Hc), IH.
Qed.

(** The reader, one step at a time. *)
Lemma read_value_space (fuel : nat) (x : string) :
  read_value fuel (String " "%char x) = read_value fuel x.
Proof. by destruct fuel. Qed.

Lemma read_items_space (fuel : nat) (x : string) :
  read_items fuel (String " "%char x) = read_items fuel x.
Proof. destruct fuel; [done|]. cbn [read_items]. by rewrite read_value_space. Qed.

Lemma read_members_space (fuel : nat) (x : string) :
  read_members fuel (String " "%char x) = read_members fuel x.
Proof. by destruct fuel. Qed.

Lemma read_value_quote (fuel : nat) (x : string) :
  read_value (S fuel) (String "034"%char x)
  = match read_string x with
    | Some (t, r') => Some (JStr t, r')
    | None => None
    end.
Proof. reflexivity. Qed.

Lemma read_value_bracket (fuel : nat) (x : string) :
  read_value (S fuel) (String "["%char x)
  = match strip_prefix "]" (skip_spaces x) with
    | Some r' => Some (JArr [], r')
    | None =>
        match read_items fuel x with
        | Some (l, r') => Some (JArr l, r')
        | None => None
        end
    end.
Proof. reflexivity. Qed.

Lemma read_value_brace (fuel : nat) (x : string) :
  read_value (S fuel) (String "{"%char x)
  = match strip_prefix "}" (skip_spaces x) with
    | Some r' => Some (JObj [], r')
    | None =>
        match read_members fuel x with
        | Some (kv, r') => Some (JObj kv, r')
        | None => None
        end
    end.
Proof. reflexivity. Qed.

Lemma read_value_minus (fuel : nat) (x : string) :
  read_value (S fuel) (String "-"%char x)
  = (let '(n, r') := read_digits 0 x in
     if String.eqb x r' then None else Some (JNum (inject_Z (- n)), r')).
Proof. reflexivity. Qed.

Lemma digit_cases (c : Ascii.ascii) (d : Z) :
  digit_of c = Some d ->
  c ∈ ["0"; "1"; "2"; "3"; "4"; "5"; "6"; "7"; "8"; "9"]%char.
Proof.
  destruct c as [[] [] [] [] [] [] [] []]; intros Hd;
    try discriminate Hd; set_solver.
Qed.

Lemma read_value_digit (fuel : nat) (c : Ascii.ascii) (d : Z) (x : string) :
  digit_of c = Some d ->
  read_value (S fuel) (String c x)
  = (let '(n, r') := read_digits 0 (String c x) in
     if String.eqb (String c x) r' then None
     else Some (JNum (inject_Z n), r')).
Proof.
  intros Hd. apply digit_cases in Hd.
  repeat (apply elem_of_cons in Hd as [->|Hd]; [reflexivity|]).
  by apply elem_of_nil in Hd.
Qed.

Lemma string_app_nil_l (s : string) : EmptyString ++ s = s.
Proof. reflexivity. Qed.

Lemma pretty_pos_digits (p : positive) (rest : string) :
  tail_ok rest ->
  ∃ c x d,
    pretty (N.pos p) ++ rest = String c x
    ∧ digit_of c = Some d
    ∧ read_digits 0 (String c x) = (Z.pos p, rest)
    ∧ String.eqb (String c x) rest = false.
Proof.
  intros Hrest. unfold pretty, pretty_N.
  rewrite decide_False by done.
  destruct (pretty_N_go_head (N.pos p) EmptyString) as (c & s' & Hs & d & Hd);
    [done|].
  exists c, (s' ++ rest), d. rewrite Hs. split; [done|]. split; [done|].
  split.
  - rewrite <- string_app_cons, <- Hs.
    rewrite <- pretty_N_go_app.
    destruct (read_digits_pretty_N_go (N.pos p)) as [q Hq].
    rewrite Hq. rewrite read_digits_tail by done. f_equal.
  - rewrite <- string_app_cons. apply string_eqb_app_ne.
Qed.

Lemma read_value_int (fuel : nat) (z : Z) (rest : string) :
  tail_ok rest ->
  read_value (S fuel) (pretty z ++ rest) = Some (JNum (inject_Z z), rest).
Proof.
  intros Hrest. destruct z as [|p|p].
  - change (pretty 0 ++ rest) with (String "0"%char rest).
    rewrite (read_value_digit fuel "0"%char 0) by done.
    pose proof (string_eqb_app_ne "0"%char EmptyString rest) as He.
    change (String "0"%char EmptyString ++ rest)
      with (String "0"%char rest) in He.
    change (read_digits 0 (String "0"%char rest)) with (read_digits 0 rest).
    rewrite read_digits_tail by done. by rewrite He.
  - change (pretty (Z.pos p)) with (pretty (N.pos p)).
    destruct (pretty_pos_digits p rest Hrest) as (c & x & d & -> & Hd & Hr & He).
    rewrite (read_value_digit fuel c d) by done. by rewrite Hr, He.
  - change (pretty (Z.neg p)) with (String "-"%char (pretty (N.pos p))).
    rewrite string_app_cons, read_value_minus.
    destruct (pretty_pos_digits p rest Hrest) as (c & x & d & -> & Hd & Hr & He).
    by rewrite Hr, He.
Qed.

Lemma digit_value_head (c : Ascii.ascii) (d : Z) (t : string) :
  digit_of c = Some d -> value_head (String c t).
Proof.
  intros Hd. exists c, t. split; [done|].
  repeat split; intros ->; discriminate Hd.
Qed.

Lemma dumps_head (v : json) (rest : string) : value_head (dumps v ++ rest).
Proof.
  destruct v as [|[]|q|s|l|kv]; cbn [dumps].
  - by eexists _, _.
  - by eexists _, _.
  - by eexists _, _.
  - destruct (Qnum q `div` Z.pos (Qden q)) as [|p|p].
    + by eexists _, _.
    + change (pretty (Z.pos p)) with (pretty (N.pos p)).
      unfold pretty, pretty_N. rewrite decide_False by done.
      destruct (pretty_N_go_head (N.pos p) EmptyString)
        as (c & s' & -> & d & Hd); [done|].
      rewrite string_app_cons. by apply (digit_value_head c d).
    + by eexists _, _.
  - by eexists _, _.
  - by eexists _, _.
  - by eexists _, _.
Qed.

Lemma skip_spaces_head (t : string) : value_head t -> skip_spaces t = t.
Proof.
  intros (c & t' & -> & Hs & _). cbn [skip_spaces].
  by rewrite (proj2 (Ascii.eqb_neq c " "%char) Hs).
Qed.

Lemma strip_bracket_head (t : string) :
  value_head t -> strip_prefix "]" t = None.
Proof.
  intros (c & t' & -> & _ & Hb & _). cbn [strip_prefix].
  by rewrite (proj2 (Ascii.eqb_neq "]"%char c) (not_eq_sym Hb)).
Qed.

Ltac norm_text :=
  unfold dquote;
  rewrite ?string_app_assoc, ?string_app_cons, ?string_app_nil_l.

Lemma join_cons2 (x y : string) (l : list string) :
  join (x :: y :: l) = x ++ ", " ++ join (y :: l).
Proof. reflexivity. Qed.

Lemma read_items_ok (l : list json) :
  l ≠ [] -> Forall reads l -> forallb plain l = true ->
  ∀ fuel rest,
    (foldr (fun x n => S (Nat.max (depth x) n)) 0%nat l <= fuel)%nat ->
    read_items fuel (join (List.map dumps l) ++ String "]"%char rest)
    = Some (l, rest).
Proof.
  intros Hne Hall. induction Hall as [|v l Hv Hl IH]; [done|].
  clear Hne. cbn [forallb]. intros [Hpv Hpl]%andb_true_iff fuel rest Hfuel.
  cbn [foldr] in Hfuel. destruct fuel as [|fuel]; [lia|].
  destruct l as [|v2 l].
  - cbn [List.map join read_items].
    rewrite (Hv Hpv fuel (String "]"%char rest)) by (done || (simpl in *; lia)).
    reflexivity.
  - cbn [List.map]. rewrite join_cons2. norm_text.
    cbn [read_items].
    rewrite (Hv Hpv fuel) by (done || lia).
    cbn [skip_spaces strip_prefix Ascii.eqb Bool.eqb]. cbn.
    rewrite read_items_space.
    change (dumps v2 :: List.map dumps l) with (List.map dumps (v2 :: l)).
    rewrite IH; [done|done|done|lia].
Qed.

Lemma read_members_ok (kv : list (string * json)) :
  kv ≠ [] -> Forall (fun kx => reads kx.2) kv ->
  forallb (fun kx => plain_string kx.1 && plain kx.2) kv = true ->
  ∀ fuel rest,
    (foldr (fun kx n => S (Nat.max (depth kx.2) n)) 0%nat kv <= fuel)%nat ->
    read_members fuel
      (join (List.map (fun kx => dquote ++ kx.1 ++ dquote ++ ": "
                                 ++ dumps kx.2) kv)
       ++ String "}"%char rest)
    = Some (kv, rest).
Proof.
  intros Hne Hall. induction Hall as [|[k v] kv Hv Hl IH]; [done|].
  clear Hne. cbn [forallb fst snd].
  intros [[Hpk Hpv]%andb_true_iff Hpl]%andb_true_iff fuel rest Hfuel.
  cbn [foldr snd] in Hfuel. destruct fuel as [|fuel]; [lia|].
  simpl in Hv.
  destruct kv as [|[k2 v2] kv].
  - cbn [List.map join fst snd]. norm_text.
    cbn [read_members skip_spaces strip_prefix]. cbn.
    rewrite read_string_plain by done.
    cbn. rewrite read_value_space.
    rewrite (Hv Hpv fuel (String "}"%char rest)) by (done || lia).
    reflexivity.
  - cbn [List.map]. rewrite join_cons2. cbn [fst snd].
    specialize (IH ltac:(done) Hpl fuel rest ltac:(lia)).
    cbn [List.map fst snd] in IH.
    remember (join (_ :: _)) as T eqn:HT in IH |- *. clear HT.
    norm_text.
    cbn [read_members skip_spaces strip_prefix]. cbn.
    rewrite read_string_plain by done.
    cbn. rewrite read_value_space.
    rewrite (Hv Hpv fuel) by (done || lia).
    cbn. rewrite read_members_space, IH.
    reflexivity.
Qed.

Theorem read_value_dumps (v : json) : reads v.
Proof.
  induction v as [|b|q|s|l IH|kv IH] using json_ind';
    intros Hp fuel rest Hfuel Hrest;
    (destruct fuel as [|fuel]; [simpl in Hfuel; lia|]).
  - reflexivity.
  - by destruct b.
  - cbn [plain] in Hp. apply Pos.eqb_eq in Hp.
    destruct q as [n d]. simpl in Hp. subst d. cbn [dumps Qnum Qden].
    rewrite Z.div_1_r. by apply read_value_int.
  - cbn [dumps plain] in *. norm_text.
    rewrite read_value_quote, read_string_plain by done. reflexivity.
  - cbn [dumps plain depth] in *.
    destruct l as [|v l]; [reflexivity|].
    norm_text. rewrite read_value_bracket.
    rewrite skip_spaces_head, strip_bracket_head.
    2, 3: destruct l; cbn [List.map];
      [change (join [dumps v]) with (dumps v)
      |rewrite join_cons2, string_app_assoc];
      apply dumps_head.
    rewrite read_items_ok; [done|done|done|done|lia].
  - cbn [dumps plain depth] in *.
    destruct kv as [|[k v] kv]; [reflexivity|].
    norm_text. rewrite read_value_brace.
    rewrite read_members_ok; [|done|done|done|lia].
    by destruct kv.
Qed.

Lemma dumps_nonempty (v : json) : (1 <= String.length (dumps v))%nat.
Proof.
  destruct (dumps_head v EmptyString) as (c & t & Heq & _).
  rewrite string_app_nil_r in Heq. rewrite Heq. simpl. lia.
Qed.

Lemma items_depth_le (l : list json) :
  Forall (fun x => (depth x <= String.length (dumps x))%nat) l ->
  (foldr (fun x n => S (Nat.max (depth x) n)) 0%nat l
   <= String.length (join (List.map dumps l)) + 1)%nat.
Proof.
  induction 1 as [|v l Hv Hl IH]; [simpl; lia|].
  cbn [foldr]. destruct l as [|v2 l].
  - simpl. lia.
  - cbn [List.map] in *. rewrite join_cons2.
    set (T := join (_ :: _)) in *. rewrite !string_length_app.
    simpl String.length. lia.
Qed.

Lemma members_depth_le (kv : list (string * json)) :
  Forall (fun kx => (depth kx.2 <= String.length (dumps kx.2))%nat) kv ->
  (foldr (fun kx n => S (Nat.max (depth kx.2) n)) 0%nat kv
   <= String.length
        (join (List.map (fun kx => dquote ++ kx.1 ++ dquote ++ ": "
                                   ++ dumps kx.2) kv)) + 1)%nat.
Proof.
  induction 1 as [|[k v] kv Hv Hl IH]; [simpl; lia|].
  cbn [foldr snd]. simpl in Hv. destruct kv as [|kx kv].
  - cbn [List.map join fst snd foldr]. rewrite !string_length_app. lia.
  - cbn [List.map] in *. rewrite join_cons2. cbn [fst snd].
    set (T := join (_ :: _)) in *. rewrite !string_length_app.
    simpl String.length. lia.
Qed.

Lemma depth_le_length (v : json) : (depth v <= String.length (dumps v))%nat.
Proof.
  induction v as [|b|q|s|l IH|kv IH] using json_ind';
    try (pose proof (dumps_nonempty JNull); by simpl in * ).
  - apply (dumps_nonempty (JBool b)).
  - apply (dumps_nonempty (JNum q)).
  - apply (dumps_nonempty (JStr s)).
  - cbn [depth dumps]. pose proof (items_depth_le l IH).
    rewrite !string_length_app. simpl String.length. lia.
  - cbn [depth dumps]. pose proof (members_depth_le kv IH).
    rewrite !string_length_app. simpl String.length. lia.
Qed.

(** [json.loads(json.dumps(v))] is [v]. *)
Theorem loads_dumps (v : json) : plain v = true -> loads (dumps v) = v.
Proof.
  intros Hp. unfold loads.
  pose proof (read_value_dumps v Hp (2 * String.length (dumps v) + 2)%nat
                EmptyString) as Hr.
  rewrite string_app_nil_r in Hr. rewrite Hr; [done| |done].
  pose proof (depth_le_length v). lia.
Qed.

(** Two values with the same text are the same value. *)
Theorem dumps_inj (v1 v2 : json) :
  plain v1 = true -> plain v2 = true -> dumps v1 = dumps v2 -> v1 = v2.
Proof.
  intros H1 H2 Heq.
  rewrite <- (loads_dumps v1 H1), <- (loads_dumps v2 H2). by rewrite Heq.
Qed.

End JsonRoundTrip.

(** ** The cache *)

Section CacheLookup.
Import Database.
Context `{JsonCodec}.

Lemma cache_apply_writes db ws :
  cache (apply_writes db ws) = (cache db ++ (row_of <$> ws))%list.
Proof.
  revert db. induction ws as [|w ws IH]; intros db; simpl.
  - by rewrite app_nil_r.
  - unfold apply_writes in *. simpl. rewrite IH. simpl.
    by rewrite <- app_assoc.
Qed.

Lemma cache_matches_row_of ep ps w :
  cache_matches ep ps (row_of w) = true <-> same_key ep ps w.
Proof.
  unfold cache_matches, same_key; simpl.
  rewrite andb_true_iff, !String.eqb_eq. done.
Qed.

Lemma matching_rows ep ps ws r :
  r ∈ List.filter (cache_matches ep ps) (row_of <$> ws)
  <-> ∃ w, w ∈ ws ∧ same_key ep ps w ∧ r = row_of w.
Proof.
  rewrite list_elem_of_In, filter_In, <- list_elem_of_In, list_elem_of_fmap.
  split.
  - intros [(w & -> & Hw) Hm]. exists w.
    by rewrite <- cache_matches_row_of.
  - intros (w & Hw & Hk & ->). split; [by exists w|].
    by rewrite cache_matches_row_of.
Qed.

(** The key of an entry is the text that [json.dumps] gives for the
    parameters, whatever the values are: a lookup returns nothing when no
    call had the same endpoint and the same parameter text, and otherwise
    the stored payload, read back by [json.loads], of one such call whose
    timestamp is the latest among them. *)
Lemma get_cached_data_by_text (ws : list CacheWrite) (ep : string)
    (ps : json) :
  let db := apply_writes init_db ws in
  ((∀ w, w ∈ ws -> ¬ same_key ep ps w) -> get_cached_data db ep ps = None)
  ∧ (∀ w0, w0 ∈ ws -> same_key ep ps w0 ->
       ∃ w, w ∈ ws
            ∧ same_key ep ps w
            ∧ (∀ w', w' ∈ ws -> same_key ep ps w' ->
                 String.leb (w_now w') (w_now w) = true)
            ∧ get_cached_data db ep ps
              = Some (json_loads (json_dumps (w_data w)))).
Proof.
  intros db. subst db. unfold get_cached_data.
  rewrite cache_apply_writes. simpl.
  destruct (order_by_timestamp_desc_limit_1 cache_timestamp
              (List.filter (cache_matches ep ps) (row_of <$> ws)))
    as [r|] eqn:Hr.
  - apply order_by_limit_1_some in Hr as [Hin Hmax].
    apply matching_rows in Hin as (w & Hw & Hk & ->).
    split.
    + intros Hnone. by destruct (Hnone w Hw).
    + intros _ _ _. exists w. repeat split; try done; try apply Hk.
      intros w' Hw' Hk'. apply (Hmax (row_of w')).
      apply matching_rows. by exists w'.
  - apply order_by_limit_1_none in Hr. split; [done|].
    intros w0 Hw0 Hk0.
    assert (Hin : row_of w0
                  ∈ List.filter (cache_matches ep ps) (row_of <$> ws))
      by (apply matching_rows; by exists w0).
    rewrite Hr in Hin. by apply elem_of_nil in Hin.
Qed.

(** C5, amended: after any sequence of [cache_data] calls on a fresh
    database, the entries that [get_cached_data] finds are those written
    with the same endpoint and with parameters that have the same
    [json.dumps] text; it returns nothing when there is none, and
    otherwise the payload, as [json.loads] reads its text, of one of them
    whose timestamp is the latest among them.  On values that [json.loads]
    reads back from their text as they were written, the parameters are
    then the same value, with the keys of every dict in the same order,
    and the payload comes back unchanged. *)
Theorem get_cached_data_latest (ws : list CacheWrite) (ep : string)
    (ps : json) :
  let db := apply_writes init_db ws in
  (((∀ w, w ∈ ws -> ¬ same_key ep ps w) -> get_cached_data db ep ps = None)
   ∧ (∀ w0, w0 ∈ ws -> same_key ep ps w0 ->
        ∃ w, w ∈ ws
             ∧ same_key ep ps w
             ∧ (∀ w', w' ∈ ws -> same_key ep ps w' ->
                  String.leb (w_now w') (w_now w) = true)
             ∧ get_cached_data db ep ps
               = Some (json_loads (json_dumps (w_data w)))))
  ∧ (∀ P : json -> Prop,
       (∀ v, P v -> json_loads (json_dumps v) = v) ->
       P ps ->
       (∀ w, w ∈ ws -> P (w_params w) ∧ P (w_data w)) ->
       ((∀ w, w ∈ ws -> w_endpoint w = ep -> w_params w ≠ ps) ->
          get_cached_data db ep ps = None)
       ∧ (∀ w0, w0 ∈ ws -> w_endpoint w0 = ep -> w_params w0 = ps ->
            ∃ w, w ∈ ws
                 ∧ w_endpoint w = ep
                 ∧ w_params w = ps
                 ∧ (∀ w', w' ∈ ws -> w_endpoint w' = ep ->
                      w_params w' = ps ->
                      String.leb (w_now w') (w_now w) = true)
                 ∧ get_cached_data db ep ps = Some (w_data w))).
Proof.
  intros db. split; [apply get_cached_data_by_text|].
  intros P Hback Hps Hws.
  assert (Hkey : ∀ w, w ∈ ws ->
            (same_key ep ps w <-> w_endpoint w = ep ∧ w_params w = ps)).
  { intros w Hw. unfold same_key. split; intros [Hep Hp]; split; try done.
    - rewrite <- (Hback _ (proj1 (Hws w Hw))), <- (Hback _ Hps).
      by rewrite Hp.
    - by rewrite Hp. }
  destruct (get_cached_data_by_text ws ep ps) as [Hnone Hsome]. split.
  - intros Hno. apply Hnone. intros w Hw Hk.
    apply (Hkey w Hw) in Hk as [Hep Hp]. by apply (Hno w).
  - intros w0 Hw0 Hep0 Hp0.
    destruct (Hsome w0 Hw0) as (w & Hw & Hk & Hmax & Hget);
      [by apply (Hkey w0 Hw0)|].
    exists w. apply (Hkey w Hw) in Hk as [Hep Hp].
    repeat split; try done.
    + intros w' Hw' Hep' Hp'. apply Hmax; [done|]. by apply (Hkey w' Hw').
    + fold db in Hget. rewrite Hget. f_equal. apply Hback, (Hws w Hw).
Qed.

End CacheLookup.

Section CacheExamples.
Import Database.

(** C5, as stated, fails: [json.dumps] writes the keys of a dict in their
    order, so that what was cached under a dict is not found under the
    same dict with its keys in another order, although the two are equal
    as values. *)
Lemma reordered_params_miss : ¬ equal_params_share_entries (H := python_json).
Proof.
  intros Hclaim.
  apply (Hclaim init_db "fixtures" league_params league_params_reordered
           (JObj [("response", JArr [])]) "2024-05-01T10:00:00");
    reflexivity.
Qed.

Example same_params_hit :
  get_cached_data (H := python_json)
    (cache_data (H := python_json) init_db "fixtures" league_params
       (JObj [("response", JArr [])]) "2024-05-01T10:00:00")
    "fixtures" league_params
  = Some (JObj [("response", JArr [])]).
Proof. reflexivity. Qed.

Lemma get_cached_data_witness :
  (∀ v, plain v = true ->
     json_loads (JsonCodec := python_json)
       (json_dumps (JsonCodec := python_json) v) = v)
  ∧ plain (weather_params 1) = true
  ∧ (∀ w, w ∈ sample_writes ->
       plain (w_params w) = true ∧ plain (w_data w) = true)
  ∧ get_cached_data (H := python_json)
      (apply_writes (H := python_json) init_db sample_writes)
      "odds" (weather_params 1) = None
  ∧ get_cached_data (H := python_json)
      (apply_writes (H := python_json) init_db sample_writes)
      "weather" (weather_params 1)
    = Some (JObj [("condition", JStr "sun"); ("temp_c", JNum 19)]).
Proof.
  assert (Hplain : ∀ w, w ∈ sample_writes ->
            plain (w_params w) = true ∧ plain (w_data w) = true).
  { intros w Hw. unfold sample_writes in Hw.
    repeat (apply elem_of_cons in Hw as [->|Hw]; [by split|]).
    by apply elem_of_nil in Hw. }
  split; [exact loads_dumps|]. split; [reflexivity|].
  split; [exact Hplain|]. split.
  - apply (proj2 (get_cached_data_latest (H := python_json) sample_writes
                    "odds" (weather_params 1))
             (fun v => plain v = true) loads_dumps eq_refl Hplain).
    intros w Hw Hep. unfold sample_writes in Hw.
    repeat (apply elem_of_cons in Hw as [->|Hw]; [discriminate Hep|]).
    by apply elem_of_nil in Hw.
  - pose (sun := {| w_endpoint := "weather"; w_params := weather_params 1;
                    w_data := JObj [("condition", JStr "sun");
                                    ("temp_c", JNum 19)];
                    w_now := "2024-05-02T10:00:00" |}).
    assert (Hsun : sun ∈ sample_writes)
      by (apply elem_of_cons; right; apply elem_of_cons; by left).
    destruct (proj2 (proj2 (get_cached_data_latest (H := python_json)
                              sample_writes "weather" (weather_params 1))
                       (fun v => plain v = true) loads_dumps eq_refl Hplain)
                sun Hsun eq_refl eq_refl)
      as (w & Hw & Hep & Hp & Hmax & Hget).
    rewrite Hget. specialize (Hmax sun Hsun eq_refl eq_refl).
    unfold sample_writes in Hw.
    apply elem_of_cons in Hw as [->|Hw]; [discriminate Hmax|].
    apply elem_of_cons in Hw as [->|Hw]; [reflexivity|].
    apply elem_of_cons in Hw as [->|Hw]; [discriminate Hp|].
    by apply elem_of_nil in Hw.
Defined.

End CacheExamples.

(** ** Numbers of the feed *)

Section Numbers.

Lemma Qeq_bool_inject_Z (a b : Z) :
  Qeq_bool (inject_Z a) (inject_Z b) = Z.eqb a b.
Proof.
  destruct (Z.eqb_spec a b) as [->|Hne].
  - apply Qeq_bool_iff. reflexivity.
  - destruct (Qeq_bool (inject_Z a) (inject_Z b)) eqn:E; [|done].
    apply Qeq_bool_eq in E. rewrite inject_Z_injective in E. by destruct Hne.
Qed.

Lemma Qltb_inject_Z (a b : Z) :
  Qltb (inject_Z a) (inject_Z b) = Z.ltb a b.
Proof.
  unfold Qltb.
  destruct (Z.ltb_spec a b) as [Hlt|Hge].
  - destruct (Qle_bool (inject_Z b) (inject_Z a)) eqn:E; [|done].
    apply Qle_bool_iff in E. rewrite <- Zle_Qle in E. lia.
  - assert (E : Qle_bool (inject_Z b) (inject_Z a) = true)
      by (apply Qle_bool_iff; by rewrite <- Zle_Qle).
    by rewrite E.
Qed.

Lemma eq_int_jz (a b : Z) : eq_int (jz a) b = Z.eqb a b.
Proof. apply Qeq_bool_inject_Z. Qed.

Lemma py_eq_jz (a b : Z) : py_eq (jz a) (jz b) = Z.eqb a b.
Proof. apply Qeq_bool_inject_Z. Qed.

Lemma py_gt_jz (a b : Z) : py_gt (jz a) (jz b) = Ok (Z.ltb b a).
Proof. unfold py_gt; simpl. by rewrite Qltb_inject_Z. Qed.

Lemma mapM_fmap {A B C} (f : B -> result C) (g : A -> B) (h : A -> C)
    (l : list A) :
  (∀ x, f (g x) = Ok (h x)) -> mapM f (g <$> l) = Ok (h <$> l).
Proof.
  intros Hf. induction l as [|x l IH]; [done|].
  simpl. rewrite Hf. fold (fmap g l). by rewrite IH.
Qed.

End Numbers.

(** ** Recent performance *)

Section RecentPerformance.
Import FeatureEngineering.

Lemma match_date_encode (m : H2HMatch) : match_date (encode m) = Ok (keyed m).
Proof. reflexivity. Qed.

Lemma goals_of_encode_home m :
  goals_of (encode m) "home" = Ok (jz (m_goals_home m)).
Proof. reflexivity. Qed.

Lemma goals_of_encode_away m :
  goals_of (encode m) "away" = Ok (jz (m_goals_away m)).
Proof. reflexivity. Qed.

Lemma won_as_home team m :
  won_as (encode m) team "home" "away"
  = Ok (Z.eqb (m_home m) team && Z.ltb (m_goals_away m) (m_goals_home m)).
Proof.
  unfold won_as; simpl. rewrite eq_int_jz.
  destruct (Z.eqb (m_home m) team); [|done].
  apply py_gt_jz.
Qed.

Lemma won_as_away team m :
  won_as (encode m) team "away" "home"
  = Ok (Z.eqb (m_away m) team && Z.ltb (m_goals_home m) (m_goals_away m)).
Proof.
  unfold won_as; simpl. rewrite eq_int_jz.
  destruct (Z.eqb (m_away m) team); [|done].
  apply py_gt_jz.
Qed.

Lemma match_points_encode team m :
  match_points team (encode m) = Ok (points team m).
Proof.
  unfold match_points.
  rewrite won_as_home; cbn [bind]. rewrite won_as_away; cbn [bind].
  rewrite (goals_of_encode_home m); cbn [bind].
  rewrite (goals_of_encode_away m); cbn [bind].
  rewrite py_eq_jz. unfold points, won, drawn.
  destruct (Z.eqb_spec (m_home m) team) as [Hh|Hh];
    destruct (Z.ltb_spec (m_goals_away m) (m_goals_home m)) as [Hg|Hg];
    destruct (Z.eqb_spec (m_away m) team) as [Ha|Ha];
    destruct (Z.ltb_spec (m_goals_home m) (m_goals_away m)) as [Hg'|Hg'];
    destruct (Z.eqb_spec (m_goals_home m) (m_goals_away m)) as [Hd|Hd];
    simpl; repeat case_bool_decide; try done; try lia;
    exfalso; intuition lia.
Qed.

Lemma insert_desc_keyed x l :
  insert_desc (keyed x) (keyed <$> l) = Ok (keyed <$> insert_match x l).
Proof.
  induction l as [|y l IH]; [done|].
  simpl. destruct (String.ltb (m_date x) (m_date y)); [|done].
  fold (fmap keyed l). by rewrite IH.
Qed.

Lemma sorted_desc_keyed ms :
  sorted_desc (keyed <$> ms) = Ok (keyed <$> by_date_desc ms).
Proof.
  induction ms as [|x ms IH]; [done|].
  simpl. fold (fmap keyed ms). rewrite IH. simpl.
  apply insert_desc_keyed.
Qed.






Lemma performance_of_encode team sel :
  sel ≠ [] ->
  performance_of team (encode <$> sel) = Ok (points_ratio team sel).
Proof.
  intros Hne. unfold performance_of.
  destruct sel as [|s sel]; [done|].
  rewrite fmap_cons, <- fmap_cons.
  rewrite (mapM_fmap (match_points team) encode (points team))
    by apply match_points_encode.
  cbn [bind]. unfold points_ratio. by rewrite !length_fmap.
Qed.


Lemma recent_performance_empty team n :
  calculate_recent_performance (JArr []) team n = Ok 0%Q.
Proof. reflexivity. Qed.









End RecentPerformance.

(** ** The end-to-end scenario *)

Section Scenario.
Import FeatureEngineering.

Variables home away league : Z.
Hypothesis distinct : home ≠ away.

Let football_data := scenario_data home away league.

Lemma scenario_has_standings :
  has_league football_data "standings" league = Ok true.
Proof.
  unfold has_league, football_data, scenario_data. simpl.
  rewrite String.eqb_refl. by rewrite bool_decide_eq_true_2.
Qed.

Lemma scenario_standings_entry :
  league_entry football_data "standings" league
  = Ok (JObj [ ("response",
                JArr [ standing home 3 "WWDLW" 10;
                       standing away 10 "LLDWL" (-4) ]) ]).
Proof.
  unfold league_entry, football_data, scenario_data. simpl.
  by rewrite String.eqb_refl.
Qed.

Lemma getitem_head k v kv : getitem (JObj ((k, v) :: kv)) k = Ok v.
Proof. simpl. by rewrite String.eqb_refl. Qed.

Lemma is_team_standing team id rank form gd :
  is_team team (standing id rank form gd) = Ok (Z.eqb id team).
Proof. unfold is_team; simpl. by rewrite eq_int_jz. Qed.

Lemma scenario_no_statistics :
  has_league football_data "team_statistics" league = Ok false.
Proof. reflexivity. Qed.

Lemma scenario_no_injury_table :
  has_league football_data "injuries" league = Ok false.
Proof. reflexivity. Qed.

Lemma scenario_team_data team (entry : json) :
  next_or (is_team team)
    [standing home 3 "WWDLW" 10; standing away 10 "LLDWL" (-4)] (JObj [])
  = Ok entry ->
  (∃ kv, entry = JObj kv) ->
  get_team_data football_data team league = Ok (JObj [], entry).
Proof.
  intros Hnext [kv ->]. unfold get_team_data.
  rewrite scenario_no_statistics. cbn [bind].
  rewrite scenario_has_standings. cbn [bind].
  rewrite scenario_standings_entry. cbn [bind].
  rewrite getitem_head. cbn [bind iter]. rewrite Hnext. reflexivity.
Qed.

Lemma scenario_home_data :
  get_team_data football_data home league
  = Ok (JObj [], standing home 3 "WWDLW" 10).
Proof.
  apply scenario_team_data; [|by eexists].
  cbn [next_or]. rewrite is_team_standing. by rewrite Z.eqb_refl.
Qed.

Lemma scenario_away_data :
  get_team_data football_data away league
  = Ok (JObj [], standing away 10 "LLDWL" (-4)).
Proof.
  apply scenario_team_data; [|by eexists].
  cbn [next_or]. rewrite !is_team_standing.
  destruct (Z.eqb_spec home away) as [Heq|_]; [by destruct distinct|].
  by rewrite Z.eqb_refl.
Qed.

Lemma scenario_no_injuries team :
  get_injuries football_data team league = Ok [].
Proof.
  unfold get_injuries. by rewrite scenario_no_injury_table.
Qed.

Lemma scenario_no_h2h :
  get_h2h_data football_data home away = Ok (JArr []).
Proof. reflexivity. Qed.

(** The frame that the code builds in the scenario. *)
Lemma scenario_features :
  feature_engineering football_data home away league
  = Ok [ ("home_team_rank", jz 3);
         ("away_team_rank", jz 10);
         ("home_team_form", JNum ((1 + (1 + ((1 # 2) + (0 + (1 + 0)))))
                                  / inject_Z 5));
         ("away_team_form", JNum ((0 + (0 + ((1 # 2) + (1 + (0 + 0)))))
                                  / inject_Z 5));
         ("home_team_injuries", jz 0);
         ("away_team_injuries", jz 0);
         ("home_team_goal_diff", jz 10);
         ("away_team_goal_diff", jz (-4));
         ("home_team_clean_sheets", JNum 0);
         ("away_team_clean_sheets", JNum 0);
         ("home_team_attack", JNum 0);
         ("away_team_attack", JNum 0);
         ("home_team_defense", JNum 0);
         ("away_team_defense", JNum 0);
         ("home_team_recent_performance", JNum 0);
         ("away_team_recent_performance", JNum 0) ].
Proof.
  unfold feature_engineering.
  rewrite scenario_home_data. cbn [bind].
  rewrite scenario_away_data. cbn [bind].
  rewrite !scenario_no_injuries. cbn [bind].
  rewrite scenario_no_h2h. cbn [bind].
  reflexivity.
Qed.

End Scenario.

Section ScenarioClaims.
Import FeatureEngineering.

Ltac field_value := eexists; split; [reflexivity | vm_compute; reflexivity].

(** C4, as stated, fails: for the away form string "LLDWL" the code
    computes (0 + 0 + 0.5 + 1 + 0) / 5 = 0.3, not 0.1. *)
Lemma scenario_away_form_is_not_a_tenth : ¬ scenario_as_specified.
Proof.
  intros Hclaim.
  destruct (Hclaim 33 34 39 ltac:(lia)) as (fs & Hfs & _ & (q & Hq & Heq)).
  rewrite scenario_features in Hfs by lia. injection Hfs as <-.
  vm_compute in Hq. injection Hq as <-.
  vm_compute in Heq. discriminate Heq.
Qed.

(** C4, amended: in the scenario, for any two distinct teams and any
    league, [feature_engineering] raises no error and yields the sixteen
    fields in their fixed order with home_team_rank=3, away_team_rank=10,
    home_team_form=0.7, away_team_form=0.3, home_team_goal_diff=10,
    away_team_goal_diff=-4 and every injury, clean-sheet, attack, defense
    and recent-performance field equal to 0. *)
Theorem feature_engineering_scenario (home away league : Z) :
  home ≠ away ->
  ∃ fs,
    feature_engineering (scenario_data home away league) home away league
    = Ok fs
    ∧ fs.*1 = [ "home_team_rank"; "away_team_rank"; "home_team_form";
                "away_team_form"; "home_team_injuries";
                "away_team_injuries"; "home_team_goal_diff";
                "away_team_goal_diff"; "home_team_clean_sheets";
                "away_team_clean_sheets"; "home_team_attack";
                "away_team_attack"; "home_team_defense";
                "away_team_defense"; "home_team_recent_performance";
                "away_team_recent_performance" ]
    ∧ scenario_common fs
    ∧ has_value fs "away_team_form" (3 # 10).
Proof.
  intros Hne. eexists. split; [by apply scenario_features|].
  split; [reflexivity|].
  split; [|field_value].
  unfold scenario_common. repeat split; field_value.
Qed.

Lemma feature_engineering_scenario_witness :
  33 ≠ 34
  ∧ ∃ fs,
      feature_engineering (scenario_data 33 34 39) 33 34 39 = Ok fs
      ∧ has_value fs "home_team_form" (7 # 10)
      ∧ has_value fs "away_team_form" (3 # 10).
Proof.
  split; [lia|].
  destruct (feature_engineering_scenario 33 34 39 ltac:(lia))
    as (fs & Hfs & _ & Hc & Ha).
  exists fs. split; [exact Hfs|]. split; [|exact Ha].
  exact (proj1 (proj2 (proj2 Hc))).
Defined.

End ScenarioClaims.

(** ** The model *)

Section ModelProperties.
Import Model.
Context `{Sklearn}.

Lemma init_no_model_file sf :
  model (init Absent sf) = None ∧ scaler (init Absent sf) = None.
Proof. split; reflexivity. Qed.

Lemma init_no_scaler_file mf :
  model (init mf Absent) = None ∧ scaler (init mf Absent) = None.
Proof. destruct mf; split; reflexivity. Qed.

Lemma predict_untrained (m : PredictionModel) (X : Frame) :
  model m = None ->
  ∃ e, predict X m = (m, Raise e)
       ∧ (scaler m = None -> e = NotFittedError)
       ∧ (∀ sc X', scaler m = Some sc -> scaler_transform sc X = Ok X' ->
            e = AttributeError).
Proof.
  intros Hm. unfold predict, transform, with_model, mbind, mget, mraise, lift.
  destruct (scaler m) as [sc|] eqn:Hsc.
  - destruct (scaler_transform sc X) as [X'|e] eqn:Ht.
    + rewrite Hm. exists AttributeError. repeat split; try done.
    + exists e. repeat split; try done.
      intros sc' X' [= <-]. by rewrite Ht.
  - exists NotFittedError. repeat split; try done.
Qed.

Lemma train_empty (m : PredictionModel) (y : list string) :
  train [] y m = (m, Raise ValueError).
Proof. unfold train, train_test_split, mbind, lift. by destruct y. Qed.

End ModelProperties.

(** ** The orchestrator *)

Section OrchestratorProperties.
Import Database Model Orchestrator.
Context `{Sklearn}.
Variable all_data : json.
Variable TeamDetails : Type.
Variable team_details : json -> result TeamDetails.
Variable engineer_features : MatchData TeamDetails -> result Frame.
Variable clock : nat -> string.

Local Abbreviation process_fixture :=
  (process_fixture all_data TeamDetails team_details engineer_features).
Local Abbreviation process_league :=
  (process_league all_data TeamDetails team_details engineer_features).
Local Abbreviation predict_matches_for_all_leagues :=
  (predict_matches_for_all_leagues all_data TeamDetails team_details
     engineer_features).
Local Abbreviation cycle :=
  (cycle all_data TeamDetails team_details engineer_features clock).

Lemma system_eta (s : System) :
  {| db := db s; pm := pm s; log := log s; ticks := ticks s |} = s.
Proof. by destruct s. Qed.

Lemma with_log_nil (s : System) : with_log s [] = s.
Proof. destruct s. unfold with_log; simpl. by rewrite app_nil_r. Qed.

Lemma with_log_app (s : System) l1 l2 :
  with_log (with_log s l1) l2 = with_log s (l1 ++ l2).
Proof. unfold with_log; simpl. by rewrite app_assoc. Qed.

Lemma logger_with_log (r : LogRecord) (s : System) :
  logger r s = (with_log s [r], Ok tt).
Proof. reflexivity. Qed.

(** [process_fixture] has no handler: with no model it raises and
    leaves the system as it was. *)
Lemma process_fixture_untrained (s : System) (fixture standings : json) :
  model (pm s) = None ->
  ∃ e, process_fixture fixture standings s = (s, Raise e).
Proof.
  intros Hm. destruct s as [d m l t]. simpl in Hm.
  unfold Orchestrator.process_fixture, mbind, lift.
  repeat match goal with
         | |- context [match ?r with Ok _ => _ | Raise _ => _ end] =>
             destruct r; [|by eexists]
         end.
  unfold on_model. simpl.
  match goal with
  | |- context [predict ?X m] =>
      destruct (predict_untrained m X Hm) as (e & -> & _)
  end.
  by eexists.
Qed.

Lemma run_tasks_all_raise {A} (tasks : list (M System A)) (s : System) :
  Forall (fun t => ∃ e, t s = (s, Raise e)) tasks ->
  ∃ rs, run_tasks tasks s = (s, rs)
        ∧ length rs = length tasks
        ∧ Forall (fun r => ∃ e, r = Raise e) rs.
Proof.
  induction 1 as [|t tasks [e He] _ (rs & IH & Hlen & Hrs)]; simpl.
  - by exists [].
  - rewrite He, IH. exists (Raise e :: rs). repeat split.
    + simpl. by rewrite Hlen.
    + constructor; [by exists e|done].
Qed.

Lemma evaluate_predictions_raises (s : System) :
  (evaluate_predictions clock s).2 = Raise TypeError.
Proof. reflexivity. Qed.

Lemma update_model_no_history (s : System) :
  get_historical_data (db s) = [] ->
  update_model clock s = (with_log s [NoHistoricalData], Ok tt).
Proof.
  intros Hh. unfold update_model, mbind, mget. by rewrite Hh.
Qed.

Lemma cycle_abandoned (s s' : System) (e : PyErr) :
  predict_matches_for_all_leagues s = (s', Raise e) ->
  cycle s = (with_log s' [CycleError e], Ok tt).
Proof.
  intros Hp. unfold Orchestrator.cycle, try_except, mbind. by rewrite Hp.
Qed.

Section WithFixtures.
(** The files hold a non-empty list of fixtures and a league table, and
    the task of the first fixture reaches [predict]. *)
Variables fixtures standings response f0 : json.
Variable fs : list json.
Variable X : Frame.
Hypothesis fetch_fixtures : fetch_data all_data "fixtures" = Ok fixtures.
Hypothesis fetch_standings : fetch_data all_data "standings" = Ok standings.
Hypothesis both_truthy : truthy fixtures && truthy standings = true.
Hypothesis fixtures_response : getitem fixtures "response" = Ok response.
Hypothesis response_list : iter response = Ok (f0 :: fs).
Hypothesis first_reaches :
  reaches_predict all_data TeamDetails team_details engineer_features f0
    standings X.

Let tasks : list (M System unit) :=
  (fun fixture => process_fixture fixture standings) <$> f0 :: fs.

(** The error of [predict] is the error of the task. *)
Lemma process_fixture_reaches (s : System) (e : PyErr) :
  predict X (pm s) = (pm s, Raise e) ->
  process_fixture f0 standings s = (s, Raise e).
Proof.
  intros Hp.
  destruct first_reaches
    as (home & away & league & t1 & t2 & h2h & ih & ia
        & Hh & Ha & Hl & H1 & H2 & Hh2h & Hih & Hia & Hf).
  assert (ia = ih) as -> by congruence.
  unfold Orchestrator.process_fixture, mbind, lift.
  rewrite Hh, Ha, Hl, H1, H2, Hh2h, Hih, Hf.
  unfold on_model. rewrite Hp. by rewrite system_eta.
Qed.

Lemma process_league_tasks (l : Z) (name season : string) (s : System) :
  assoc_Z l Config.TOP_LEAGUES = Some name ->
  process_league l season s
  = (with_log s [ProcessingLeague name], Ok tasks).
Proof.
  intros Hn. unfold Orchestrator.process_league, mbind, lift.
  rewrite Hn, logger_with_log, fetch_fixtures, fetch_standings,
    both_truthy, fixtures_response, response_list.
  reflexivity.
Qed.

Lemma run_leagues (leagues : list (Z * string)) (season : string)
    (s : System) :
  Forall (fun l => assoc_Z l.1 Config.TOP_LEAGUES = Some l.2) leagues ->
  run_tasks ((fun l => process_league l.1 season) <$> leagues) s
  = (with_log s (ProcessingLeague <$> leagues.*2),
     (fun _ => Ok tasks) <$> leagues).
Proof.
  intros Hl. revert s.
  induction Hl as [|l leagues Hn _ IH]; intros s; simpl.
  - by rewrite with_log_nil.
  - rewrite (process_league_tasks _ _ _ _ Hn), IH, with_log_app.
    reflexivity.
Qed.

Lemma first_error_all_ok {A B} (x : A) (l : list B) :
  first_error ((fun _ => Ok x) <$> l) = None.
Proof. induction l; [done|]. simpl. done. Qed.

Lemma created_elem {A B} (ts : list A) (l : list B) (t : A) :
  t ∈ created ((fun _ => Ok ts) <$> l) -> t ∈ ts.
Proof.
  induction l as [|b l IH]; simpl.
  - intros Hin. by apply elem_of_nil in Hin.
  - intros [Hin|Hin]%elem_of_app; [done|by apply IH].
Qed.

(** With no model, the prediction phase logs the six leagues, leaves
    database and model as they were, and raises the error that [predict]
    raises for the first fixture. *)
Lemma predict_phase_untrained (s : System) (e : PyErr) :
  model (pm s) = None ->
  predict X (pm s) = (pm s, Raise e) ->
  predict_matches_for_all_leagues s
  = (with_log s (ProcessingLeague <$> Config.TOP_LEAGUES.*2), Raise e).
Proof.
  intros Hm Hp. unfold Orchestrator.predict_matches_for_all_leagues.
  rewrite run_leagues by (repeat constructor).
  set (s1 := with_log s _).
  assert (Hhead : ∃ ts,
            created ((fun _ => Ok tasks) <$> Config.TOP_LEAGUES)
            = process_fixture f0 standings :: ts) by (by eexists).
  destruct Hhead as [ts Hts].
  destruct (run_tasks_all_raise
              (created ((fun _ => Ok tasks) <$> Config.TOP_LEAGUES)) s1)
    as (rs & Hrun & _ & _).
  { apply Forall_forall. intros t Ht%created_elem.
    apply list_elem_of_fmap in Ht as (f & -> & _).
    by apply process_fixture_untrained. }
  rewrite Hrun, first_error_all_ok. rewrite Hts in Hrun.
  cbn [run_tasks] in Hrun.
  rewrite (process_fixture_reaches s1 e Hp) in Hrun.
  destruct (run_tasks ts s1) as [s2 rs']. injection Hrun as _ <-.
  reflexivity.
Qed.

Lemma cycle_untrained (s : System) (e : PyErr) :
  model (pm s) = None ->
  predict X (pm s) = (pm s, Raise e) ->
  cycle s
  = (with_log s
       ((ProcessingLeague <$> Config.TOP_LEAGUES.*2) ++ [CycleError e]),
     Ok tt).
Proof.
  intros Hm Hp.
  rewrite (cycle_abandoned _ _ _ (predict_phase_untrained s e Hm Hp)).
  by rewrite with_log_app.
Qed.

(** Cycle after cycle the same happens: the system is what it was, with
    the records of one more abandoned cycle in its log. *)
Lemma run_untrained (n : nat) (s : System) (e : PyErr) :
  model (pm s) = None ->
  predict X (pm s) = (pm s, Raise e) ->
  run all_data TeamDetails team_details engineer_features clock n s
  = with_log s
      (mjoin (replicate n ((ProcessingLeague <$> Config.TOP_LEAGUES.*2)
                             ++ [CycleError e])%list)).
Proof.
  revert s. induction n as [|n IH]; intros s Hm Hp.
  - by rewrite with_log_nil.
  - change (run all_data TeamDetails team_details engineer_features clock
              (S n) s)
      with (run all_data TeamDetails team_details engineer_features clock n
              (cycle s).1).
    rewrite (cycle_untrained s e Hm Hp). cbn [fst].
    rewrite IH by done. by rewrite with_log_app.
Qed.

End WithFixtures.

End OrchestratorProperties.

(** ** The claims on the pipeline *)

Section PipelineClaims.
Import Database Model Orchestrator.

(** C2, as stated, fails: with no artifact, [predict] raises the
    [NotFittedError] of the unfitted scaler, and [process_fixture] lets
    it through instead of ending normally. *)
Lemma model_not_ready_is_not_raised :
  ¬ predict_raises_model_not_ready ∧ ¬ fixture_is_skipped.
Proof.
  split.
  - intros Hclaim.
    destruct (Hclaim sample_sklearn (init Absent Absent) [] eq_refl)
      as (e & He & Hclass).
    vm_compute in He. injection He as <-. discriminate Hclass.
  - intros Hclaim.
    destruct (Hclaim sample_sklearn sample_all_data unit sample_team_details
                sample_features fresh_system sample_fixture (JObj [])
                eq_refl) as (s' & Hs).
    vm_compute in Hs. discriminate Hs.
Qed.

(** C2, amended: when no classifier is loaded, [predict] raises and
    leaves the model as it is: [NotFittedError] when the scaler is
    unfitted too (the state at startup without artifact),
    [AttributeError] when a fitted scaler transforms the input.
    [process_fixture] does not catch the error.  When the files hold at
    least one fixture and the task of the first one reaches [predict],
    the error of that call of [predict] ends the prediction phase, after
    the six leagues were logged; the handler of [run] logs that one error
    and the cycle ends there, with the database and the model unchanged
    and neither retraining nor evaluation run; and every later cycle does
    the same. *)
Theorem untrained_model_abandons_cycle `{Sklearn} (all_data : json)
    (TeamDetails : Type) (team_details : json -> result TeamDetails)
    (engineer_features : MatchData TeamDetails -> result Frame)
    (clock : nat -> string) (s : System)
    (fixtures standings response f0 : json) (fs : list json) (X : Frame) :
  model (pm s) = None ->
  fetch_data all_data "fixtures" = Ok fixtures ->
  fetch_data all_data "standings" = Ok standings ->
  truthy fixtures && truthy standings = true ->
  getitem fixtures "response" = Ok response ->
  iter response = Ok (f0 :: fs) ->
  reaches_predict all_data TeamDetails team_details engineer_features f0
    standings X ->
  ∃ e,
    predict X (pm s) = (pm s, Raise e)
    ∧ (scaler (pm s) = None -> e = NotFittedError)
    ∧ (∀ sc X', scaler (pm s) = Some sc -> scaler_transform sc X = Ok X' ->
         e = AttributeError)
    ∧ process_fixture all_data TeamDetails team_details engineer_features
        f0 standings s = (s, Raise e)
    ∧ (∀ fixture,
         ∃ e', process_fixture all_data TeamDetails team_details
                 engineer_features fixture standings s = (s, Raise e'))
    ∧ predict_matches_for_all_leagues all_data TeamDetails team_details
        engineer_features s
      = (with_log s (ProcessingLeague <$> Config.TOP_LEAGUES.*2), Raise e)
    ∧ cycle all_data TeamDetails team_details engineer_features clock s
      = (with_log s
           ((ProcessingLeague <$> Config.TOP_LEAGUES.*2)
              ++ [CycleError e]), Ok tt)
    ∧ ∀ n,
        run all_data TeamDetails team_details engineer_features clock n s
        = with_log s
            (mjoin (replicate n
                      ((ProcessingLeague <$> Config.TOP_LEAGUES.*2)
                         ++ [CycleError e])%list)).
Proof.
  intros Hm Hf Hst Htr Hr Hi Hreach.
  destruct (predict_untrained (pm s) X Hm) as (e & Hp & Hnf & Hattr).
  exists e. split; [exact Hp|]. split; [exact Hnf|]. split; [exact Hattr|].
  split; [by apply (process_fixture_reaches all_data TeamDetails
                      team_details engineer_features standings f0 X)|].
  split; [intros fixture; by apply process_fixture_untrained|].
  split; [by apply (predict_phase_untrained all_data TeamDetails
                      team_details engineer_features fixtures standings
                      response f0 fs X)|].
  split; [by apply (cycle_untrained all_data TeamDetails team_details
                      engineer_features clock fixtures standings response
                      f0 fs X)|].
  intros n.
  by apply (run_untrained all_data TeamDetails team_details
              engineer_features clock fixtures standings response f0 fs X).
Qed.

Lemma sample_fixture_reaches_predict :
  reaches_predict sample_all_data unit
    sample_team_details sample_features sample_fixture
    (JObj [("response", JArr [standing 33 3 "WWDLW" 10])])
    [[Some (1 # 2)%Q]].
Proof.
  exists (jz 33), (jz 34), (jz 39), tt, tt, (JObj []), (JObj []), (JObj []).
  repeat split.
Qed.

Lemma untrained_model_abandons_cycle_witness :
  model (pm (fresh_system (H := sample_sklearn))) = None
  ∧ cycle (H := sample_sklearn) sample_all_data unit sample_team_details
      sample_features sample_clock fresh_system
    = (with_log fresh_system
         ((ProcessingLeague <$> Config.TOP_LEAGUES.*2)
            ++ [CycleError NotFittedError]), Ok tt).
Proof.
  split; [reflexivity|].
  destruct (untrained_model_abandons_cycle (H := sample_sklearn)
              sample_all_data unit sample_team_details sample_features
              sample_clock fresh_system
              (JObj [("response", JArr [sample_fixture])])
              (JObj [("response", JArr [standing 33 3 "WWDLW" 10])])
              (JArr [sample_fixture]) sample_fixture [] [[Some (1 # 2)%Q]]
              eq_refl eq_refl eq_refl eq_refl eq_refl eq_refl
              sample_fixture_reaches_predict)
    as (e & _ & Hnf & _ & _ & _ & _ & He & _).
  rewrite He. by rewrite (Hnf eq_refl).
Defined.

(** C9, as stated, fails: on an empty table [train] raises the
    [ValueError] of [train_test_split]. *)
Lemma insufficient_data_is_not_raised : ¬ train_raises_insufficient_data.
Proof.
  intros Hclaim.
  destruct (Hclaim sample_sklearn (init Absent Absent) [])
    as (e & He & Hclass).
  vm_compute in He. injection He as <-. discriminate Hclass.
Qed.

(** C9, amended: on an empty feature table [train] raises [ValueError]
    (there is no error class of its own) and leaves the model as it is;
    in the orchestrator, when no graded prediction is stored,
    [update_model] does not train, raises nothing and only logs that no
    historical data is available. *)
Theorem empty_history_skips_retraining `{Sklearn} (clock : nat -> string)
    (s : System) :
  (∀ m y, train [] y m = (m, Raise ValueError))
  ∧ (get_historical_data (db s) = [] ->
     update_model clock s = (with_log s [NoHistoricalData], Ok tt)).
Proof.
  split; [apply train_empty|apply update_model_no_history].
Qed.

Lemma empty_history_skips_retraining_witness :
  get_historical_data (db (fresh_system (H := sample_sklearn))) = []
  ∧ update_model (H := sample_sklearn) sample_clock fresh_system
    = (with_log fresh_system [NoHistoricalData], Ok tt).
Proof.
  split; [reflexivity|].
  apply (proj2 (empty_history_skips_retraining (H := sample_sklearn)
                  sample_clock fresh_system)).
  reflexivity.
Defined.

(** C3 (the code departs from the claim): [get_historical_data] takes no
    time bound.  A call that passes [timestamp_after] raises [TypeError]
    on every database, so that [evaluate_predictions], which makes that
    call, raises [TypeError] in every state; without argument the method
    returns the graded rows of all times, in the order of their fixture
    ids. *)
Theorem get_historical_data_rejects_time_bound `{Sklearn}
    (clock : nat -> string) (db : FootballDatabase) (bound : string)
    (s : System) :
  call_get_historical_data db [("timestamp_after", bound)]
  = Raise TypeError
  ∧ (∃ rows,
       call_get_historical_data (V := string) db [] = Ok rows
       ∧ (∀ k row, (k, row) ∈ rows
                   <-> predictions db !! k = Some row
                       ∧ is_graded row = true)
       ∧ StronglySorted (fun a b => a.1 < b.1) rows)
  ∧ (evaluate_predictions clock s).2 = Raise TypeError.
Proof.
  split; [done|]. split; [|done].
  exists (get_historical_data db). split; [done|].
  split; [apply get_historical_data_elem|apply get_historical_data_ascending].
Qed.

End PipelineClaims.

(** * Further properties of the code *)

(** ** The store *)

Section StoreMore.
Import Database.

Lemma latest_from_app {A} (ts : A -> string) (best : A) (l : list A) (r : A) :
  latest_from ts best (l ++ [r])
  = if String.ltb (ts (latest_from ts best l)) (ts r) then r
    else latest_from ts best l.
Proof.
  revert best. induction l as [|x l IH]; intros best; simpl; [done|].
  destruct (String.ltb (ts best) (ts x)); apply IH.
Qed.

Lemma order_by_limit_1_newest {A} (ts : A -> string) (l : list A) (r : A) :
  (∀ x, x ∈ l -> String.ltb (ts x) (ts r) = true) ->
  order_by_timestamp_desc_limit_1 ts (l ++ [r]) = Some r.
Proof.
  intros Hlt. destruct l as [|b l]; [done|]. simpl.
  rewrite latest_from_app, Hlt; [done|]. apply latest_from_elem.
Qed.

(** X1: [store_prediction] is an upsert.  With ids that SQLite can
    hold it returns: the table has one row more when the fixture id was
    not stored and as many rows as before when it was, and of two calls
    for the same fixture id only the second is kept.  With any other id
    it raises [OverflowError]. *)
Theorem store_prediction_upsert db fixture_id
    league home away outcome prob weather_data now
    league' home' away' outcome' prob' weather_data' now' :
  match store_prediction db fixture_id league home away outcome prob
          weather_data now with
  | Ok db1 =>
      sqlite_int fixture_id = true
      ∧ sqlite_int league = true
      ∧ size (predictions db1)
        = (if decide (is_Some (predictions db !! fixture_id))
           then size (predictions db) else S (size (predictions db)))
      ∧ store_prediction db1 fixture_id league' home' away' outcome' prob'
          weather_data' now'
        = store_prediction db fixture_id league' home' away' outcome' prob'
            weather_data' now'
  | Raise e =>
      e = OverflowError
      ∧ sqlite_int fixture_id && sqlite_int league = false
  end.
Proof.
  unfold store_prediction.
  destruct (sqlite_int fixture_id) eqn:Hf; [|done].
  destruct (sqlite_int league) eqn:Hl; [|done]. cbn [andb].
  split; [done|]. split; [done|]. split.
  - unfold insert_or_replace; simpl. rewrite map_size_insert.
    destruct (predictions db !! fixture_id).
    + rewrite decide_True; [done|by eexists].
    + rewrite decide_False; [done|]. by intros [? ?].
  - destruct (sqlite_int league'); [|done]. cbn [andb]. f_equal.
    unfold insert_or_replace; simpl. by rewrite insert_insert_eq.
Qed.

(** X2: of two outcome updates for the same fixture only the second is
    kept, and its accuracy is computed against the stored forecast, which
    no update changes. *)
Theorem update_prediction_accuracy_twice db fixture_id actual actual' :
  (db1 <- update_prediction_accuracy db fixture_id actual ;;
   update_prediction_accuracy db1 fixture_id actual')%py
  = update_prediction_accuracy db fixture_id actual'
  ∧ match update_prediction_accuracy db fixture_id actual with
    | Ok db1 =>
        predicted_outcome <$> predictions db1 !! fixture_id
        = predicted_outcome <$> predictions db !! fixture_id
    | Raise e => e = OverflowError ∧ sqlite_int fixture_id = false
    end.
Proof.
  unfold update_prediction_accuracy.
  destruct (sqlite_int fixture_id) eqn:Hf; [|done]. cbn [bind].
  unfold select_then_update.
  destruct (predictions db !! fixture_id) as [row|] eqn:Hrow; simpl.
  - rewrite lookup_insert_eq. simpl. split; [|done].
    by rewrite insert_insert_eq.
  - by rewrite Hrow.
Qed.

Lemma Qsum_unit_bounds (l : list Q) :
  Forall (fun q => 0 <= q <= 1)%Q l ->
  (0 <= Qsum l <= inject_Z (Z.of_nat (length l)))%Q.
Proof.
  induction 1 as [|q l [Hq0 Hq1] _ [IH0 IH1]]; [by split|].
  unfold Qsum in *. simpl foldr. simpl length.
  rewrite Nat2Z.inj_succ, <- Z.add_1_l, inject_Z_plus.
  change (inject_Z 1) with 1%Q. split; lra.
Qed.

Lemma mean_unit_bounds (v : Q) (vs : list Q) :
  Forall (fun q => 0 <= q <= 1)%Q (v :: vs) ->
  (0 <= Qsum (v :: vs) / inject_Z (Z.of_nat (length (v :: vs))) <= 1)%Q.
Proof.
  intros Hall. destruct (Qsum_unit_bounds _ Hall) as [H0 H1].
  assert (Hpos : (0 < inject_Z (Z.of_nat (length (v :: vs))))%Q).
  { simpl length. rewrite Nat2Z.inj_succ.
    change 0%Q with (inject_Z 0). rewrite <- Zlt_Qlt. lia. }
  split.
  - apply Qle_shift_div_l; [done|]. lra.
  - apply Qle_shift_div_r; [done|]. lra.
Qed.






(** X4: [get_historical_data] returns the rows that carry an outcome and
    no other: a fixture is in the result right after
    [update_prediction_accuracy] found it, and it is not in the result
    right after [store_prediction] wrote it, whatever was recorded for it
    before. *)
Theorem get_historical_data_graded db fixture_id :
  (∀ k row, (k, row) ∈ get_historical_data db
            <-> predictions db !! k = Some row ∧ is_graded row = true)
  ∧ (∀ actual, is_Some (predictions db !! fixture_id) ->
       sqlite_int fixture_id = true ->
       ∃ db' row,
         update_prediction_accuracy db fixture_id actual = Ok db'
         ∧ (fixture_id, row) ∈ get_historical_data db'
         ∧ actual_outcome row = Some actual)
  ∧ (∀ league home away outcome prob weather_data now db' row,
       store_prediction db fixture_id league home away outcome prob
         weather_data now = Ok db' ->
       (fixture_id, row) ∉ get_historical_data db').
Proof.
  split; [apply get_historical_data_elem|]. split.
  - intros actual [row Hrow] Hf.
    exists (select_then_update db fixture_id actual),
      (set_outcome actual (grade (predicted_outcome row) actual) row).
    split; [unfold update_prediction_accuracy; by rewrite Hf|].
    split; [|done]. apply get_historical_data_elem. split; [|done].
    by rewrite (update_known _ _ _ _ Hrow), grade_eqb, lookup_insert_eq.
  - intros league home away outcome prob weather_data now db' row Hst Hin.
    apply store_prediction_inv in Hst as (_ & _ & ->).
    apply get_historical_data_elem in Hin as [Hrow Hg].
    rewrite lookup_insert_or_replace in Hrow. injection Hrow as <-.
    discriminate Hg.
Qed.

Lemma get_historical_data_graded_witness :
  is_Some (predictions two_league_ledger !! 1)
  ∧ sqlite_int 1 = true
  ∧ ∃ db' row,
      update_prediction_accuracy two_league_ledger 1 "Home" = Ok db'
      ∧ (1, row) ∈ get_historical_data db'
      ∧ actual_outcome row = Some "Home".
Proof.
  assert (Hs : is_Some (predictions two_league_ledger !! 1))
    by (by eexists).
  split; [exact Hs|]. split; [reflexivity|].
  exact (proj1 (proj2 (get_historical_data_graded two_league_ledger 1))
           "Home" Hs eq_refl).
Defined.


(** X5: with a clock that moves forward, [get_feature_importance] reads
    back the row written last: after [store_feature_importance] of a frame
    whose last row carries a timestamp later than every other one, the
    result is that last row alone. *)
Theorem get_feature_importance_last_row db
    (frame : list (string * Q * string)) (f : string) (i : Q) (t : string) :
  (∀ r, r ∈ feature_importance db -> String.ltb (fi_timestamp r) t = true) ->
  (∀ x, x ∈ frame -> String.ltb x.2 t = true) ->
  get_feature_importance (store_feature_importance db (frame ++ [(f, i, t)]))
  = [(f, i)].
Proof.
  intros Hold Hframe. unfold get_feature_importance, store_feature_importance.
  simpl. rewrite fmap_app, app_assoc. simpl.
  rewrite order_by_limit_1_newest; [done|].
  intros r [Hr|Hr]%elem_of_app; [by apply Hold|].
  apply list_elem_of_fmap in Hr as ([[f' i'] t'] & -> & Hx).
  by apply (Hframe _ Hx).
Qed.

Lemma get_feature_importance_last_row_witness :
  (∀ r, r ∈ feature_importance init_db ->
     String.ltb (fi_timestamp r) "2024-05-01T10:00:00.000002" = true)
  ∧ get_feature_importance
      (store_feature_importance init_db two_feature_snapshot)
    = [("temperature", (1 # 4)%Q)].
Proof.
  assert (Hold : ∀ r, r ∈ feature_importance init_db ->
            String.ltb (fi_timestamp r) "2024-05-01T10:00:00.000002" = true)
    by (intros r Hr; by apply elem_of_nil in Hr).
  split; [exact Hold|].
  apply (get_feature_importance_last_row init_db
           [("probability", (3 # 4)%Q, "2024-05-01T10:00:00.000001")]
           "temperature" (1 # 4)%Q "2024-05-01T10:00:00.000002" Hold).
  intros x Hx. apply list_elem_of_singleton in Hx as ->. reflexivity.
Defined.

End StoreMore.

Section CacheMore.
Import Database.
Context `{JsonCodec}.

Lemma get_cached_data_rows db ep ps :
  get_cached_data db ep ps
  = (fun r => json_loads (data r))
    <$> order_by_timestamp_desc_limit_1 cache_timestamp
          (List.filter (cache_matches ep ps) (cache db)).
Proof.
  unfold get_cached_data.
  by destruct (order_by_timestamp_desc_limit_1 _ _).
Qed.

(** X6: a weather observation that is cached can be read back: after
    [cache_weather_data] with a timestamp later than that of every entry
    already stored for the fixture, [get_cached_weather_data] for the same
    fixture returns the observation as [json.loads] reads the stored
    text. *)
Theorem cache_weather_round_trip db (fixture_id : Z) (weather_data : json)
    (now : string) :
  (∀ r, r ∈ cache db ->
     cache_matches "weather" (weather_params fixture_id) r = true ->
     String.ltb (cache_timestamp r) now = true) ->
  get_cached_weather_data
    (cache_weather_data db fixture_id weather_data now) fixture_id
  = Some (json_loads (json_dumps weather_data)).
Proof.
  intros Hold. unfold get_cached_weather_data, cache_weather_data.
  rewrite get_cached_data_rows. unfold cache_data; simpl.
  rewrite List.filter_app. simpl.
  unfold cache_matches at 2; simpl. rewrite !String.eqb_refl. simpl.
  rewrite order_by_limit_1_newest; [done|].
  intros r Hr. apply list_elem_of_In, filter_In in Hr as [Hr Hm].
  apply Hold; [by apply list_elem_of_In|done].
Qed.

(** X7: [cache_data] touches one key.  A lookup for another endpoint, or
    for parameters with another text, returns what it returned before;
    a lookup for the key of the call returns the payload of the call, as
    [json.loads] reads it, or what it returned before (when an entry of
    the key carries a timestamp that is not earlier). *)
Theorem cache_data_touches_one_key db (ep ep' : string) (ps ps' dt : json)
    (now : string) :
  (ep ≠ ep' ∨ json_dumps ps ≠ json_dumps ps' ->
     get_cached_data (cache_data db ep ps dt now) ep' ps'
     = get_cached_data db ep' ps')
  ∧ (get_cached_data (cache_data db ep ps dt now) ep ps
     = Some (json_loads (json_dumps dt))
     ∨ get_cached_data (cache_data db ep ps dt now) ep ps
       = get_cached_data db ep ps).
Proof.
  rewrite !get_cached_data_rows. unfold cache_data; simpl.
  rewrite !List.filter_app. split.
  - intros Hne. simpl.
    assert (Hm : cache_matches ep' ps'
                   {| endpoint := ep; params := json_dumps ps;
                      data := json_dumps dt; cache_timestamp := now |}
                 = false).
    { unfold cache_matches; simpl. apply andb_false_iff.
      rewrite !String.eqb_neq. tauto. }
    by rewrite Hm, app_nil_r.
  - assert (Hm : cache_matches ep ps
                   {| endpoint := ep; params := json_dumps ps;
                      data := json_dumps dt; cache_timestamp := now |}
                 = true).
    { unfold cache_matches; simpl. by rewrite !String.eqb_refl. }
    simpl. rewrite Hm.
    destruct (List.filter (cache_matches ep ps) (cache db)) as [|b l];
      [by left|].
    simpl. rewrite latest_from_app. simpl.
    match goal with
    | |- context [String.ltb ?t now] => destruct (String.ltb t now)
    end; [by left|by right].
Qed.

End CacheMore.

Section CacheMoreExamples.
Import Database.

Lemma cache_weather_round_trip_witness :
  (∀ r, r ∈ cache init_db ->
     cache_matches (H := python_json) "weather" (weather_params 7) r = true ->
     String.ltb (cache_timestamp r) "2024-05-01T10:00:00" = true)
  ∧ get_cached_weather_data (H := python_json)
      (cache_weather_data (H := python_json) init_db 7
         (JObj [("condition", JStr "rain"); ("temp_c", JNum 11)])
         "2024-05-01T10:00:00") 7
    = Some (JObj [("condition", JStr "rain"); ("temp_c", JNum 11)]).
Proof.
  assert (Hold : ∀ r, r ∈ cache init_db ->
     cache_matches (H := python_json) "weather" (weather_params 7) r = true ->
     String.ltb (cache_timestamp r) "2024-05-01T10:00:00" = true)
    by (intros r Hr; by apply elem_of_nil in Hr).
  split; [exact Hold|].
  exact (cache_weather_round_trip (H := python_json) init_db 7
           (JObj [("condition", JStr "rain"); ("temp_c", JNum 11)])
           "2024-05-01T10:00:00" Hold).
Defined.

Lemma cache_data_touches_one_key_witness :
  ("weather" ≠ "weather"
   ∨ json_dumps (JsonCodec := python_json) (weather_params 3)
     ≠ json_dumps (JsonCodec := python_json) (weather_params 1))
  ∧ get_cached_data (H := python_json)
      (cache_data (H := python_json)
         (apply_writes (H := python_json) init_db sample_writes)
         "weather" (weather_params 3) (JObj [("condition", JStr "fog")])
         "2024-05-04T10:00:00")
      "weather" (weather_params 1)
    = Some (JObj [("condition", JStr "sun"); ("temp_c", JNum 19)]).
Proof.
  assert (Hne : "weather" ≠ "weather"
                ∨ json_dumps (JsonCodec := python_json) (weather_params 3)
                  ≠ json_dumps (JsonCodec := python_json) (weather_params 1))
    by (right; discriminate).
  split; [exact Hne|].
  rewrite (proj1 (cache_data_touches_one_key (H := python_json)
                    (apply_writes (H := python_json) init_db sample_writes)
                    "weather" "weather" (weather_params 3) (weather_params 1)
                    (JObj [("condition", JStr "fog")])
                    "2024-05-04T10:00:00") Hne).
  reflexivity.
Defined.

End CacheMoreExamples.

(** ** The feature engine *)

Section FormMore.
Import FeatureEngineering.

Lemma form_points_unit (r : json) : (0 <= form_points r <= 1)%Q.
Proof.
  unfold form_points.
  destruct (eq_str r "W"); [lra|]. destruct (eq_str r "D"); lra.
Qed.

Lemma form_mean_unit (results : list json) :
  results ≠ [] ->
  (0 <= Qsum (form_points <$> results)
        / inject_Z (Z.of_nat (length results)) <= 1)%Q.
Proof.
  intros Hne. destruct results as [|r rs]; [done|].
  rewrite <- (length_fmap form_points (r :: rs)), fmap_cons.
  change FeatureEngineering.Qsum with Database.Qsum.
  apply (mean_unit_bounds (form_points r) (form_points <$> rs)).
  rewrite <- fmap_cons.
  apply Forall_fmap, Forall_forall. intros x _. apply form_points_unit.
Qed.

(** X8: [calculate_form] gives 0 for every falsy value (the empty string,
    null, the missing form), a number between 0 and 1 whenever it returns,
    and it fails, with [TypeError], only on a non-zero number or on
    true. *)
Theorem calculate_form_range (v : json) :
  (truthy v = false -> calculate_form v = Ok 0%Q)
  ∧ (∀ q, calculate_form v = Ok q -> (0 <= q <= 1)%Q)
  ∧ (∀ e, calculate_form v = Raise e -> e = TypeError ∧ is_Some (num_of v)).
Proof.
  unfold calculate_form. destruct (truthy v) eqn:Ht; simpl.
  - split; [done|].
    destruct v as [|b|q|s|l|kv]; simpl in *; try done.
    + split; [done|]. intros e [= <-]. split; [done|by eexists].
    + split; [done|]. intros e [= <-]. split; [done|by eexists].
    + split; [|done]. intros q [= <-]. apply form_mean_unit.
      destruct s; [done|]. done.
    + split; [|done]. intros q [= <-]. apply form_mean_unit.
      by destruct l.
    + split; [|done]. intros q [= <-]. apply form_mean_unit.
      by destruct kv.
  - split; [done|]. split; [|done]. intros q [= <-]. lra.
Qed.

Lemma calculate_form_range_witness :
  truthy JNull = false ∧ calculate_form JNull = Ok 0%Q.
Proof.
  split; [reflexivity|].
  exact (proj1 (calculate_form_range JNull) eq_refl).
Defined.

Lemma form_points_char (c : Ascii.ascii) :
  form_points (JStr (String c EmptyString))
  = if Ascii.eqb c "W"%char then 1%Q
    else if Ascii.eqb c "D"%char then (1 # 2)%Q else 0%Q.
Proof.
  unfold form_points, eq_str. simpl.
  by destruct (Ascii.eqb c "W"%char), (Ascii.eqb c "D"%char).
Qed.

Lemma form_points_counts (c : Ascii.ascii) :
  (form_points (JStr (String c EmptyString))
   == inject_Z (Z.of_nat (if Ascii.eqb c "W"%char then 1 else 0))
      + (1 # 2) * inject_Z (Z.of_nat (if Ascii.eqb c "D"%char then 1 else 0)))%Q.
Proof.
  rewrite form_points_char.
  destruct (Ascii.eqb_spec c "W"%char) as [->|HW]; [reflexivity|].
  destruct (Ascii.eqb c "D"%char); reflexivity.
Qed.

Lemma form_sum_counts (s : string) :
  (Qsum (form_points
           <$> ((fun c => JStr (String c EmptyString))
                  <$> String.list_ascii_of_string s))
   == inject_Z (Z.of_nat (count_char "W"%char s))
      + (1 # 2) * inject_Z (Z.of_nat (count_char "D"%char s)))%Q.
Proof.
  induction s as [|c s IH]; [reflexivity|].
  simpl String.list_ascii_of_string. rewrite !fmap_cons.
  unfold Qsum in *. simpl foldr. rewrite IH, form_points_counts.
  simpl count_char. rewrite !Nat2Z.inj_add, !inject_Z_plus. lra.
Qed.

(** X9: on a non-empty form string [calculate_form] returns the number of
    'W' plus half the number of 'D', divided by the length of the string;
    every other character counts as a loss. *)
Theorem calculate_form_counts (s : string) :
  s ≠ "" ->
  ∃ q, calculate_form (JStr s) = Ok q
       ∧ (q == (inject_Z (Z.of_nat (count_char "W"%char s))
                + (1 # 2) * inject_Z (Z.of_nat (count_char "D"%char s)))
               / inject_Z (Z.of_nat (String.length s)))%Q.
Proof.
  intros Hne. unfold calculate_form.
  assert (Ht : truthy (JStr s) = true) by (by destruct s).
  rewrite Ht. simpl. eexists. split; [reflexivity|].
  rewrite form_sum_counts, !length_fmap.
  replace (length (String.list_ascii_of_string s)) with (String.length s);
    [reflexivity|].
  clear. induction s as [|c s IH]; simpl; [done|]. by rewrite IH.
Qed.

Lemma calculate_form_counts_witness :
  "WWDLW" ≠ ""
  ∧ ∃ q, calculate_form (JStr "WWDLW") = Ok q ∧ (q == 7 # 10)%Q.
Proof.
  split; [discriminate|].
  destruct (calculate_form_counts "WWDLW" ltac:(discriminate))
    as (q & Hq & Heq).
  exists q. split; [exact Hq|]. rewrite Heq. reflexivity.
Defined.

End FormMore.

Section RecentPerformanceMore.
Import FeatureEngineering.

Lemma points_bounds team m : 0 <= points team m <= 3.
Proof. unfold points. repeat case_bool_decide; lia. Qed.

Lemma Zsum_points_bounds team (sel : list H2HMatch) :
  0 <= Zsum (points team <$> sel) <= Z.of_nat (length sel) * 3.
Proof.
  induction sel as [|m sel IH]; [done|].
  pose proof (points_bounds team m).
  rewrite fmap_cons. unfold Zsum in *. simpl foldr. simpl length. lia.
Qed.

Lemma points_ratio_unit team (sel : list H2HMatch) :
  sel ≠ [] -> (0 <= points_ratio team sel <= 1)%Q.
Proof.
  intros Hne. unfold points_ratio.
  pose proof (Zsum_points_bounds team sel) as [H0 H1].
  assert (Hpos : (0 < inject_Z (Z.of_nat (length sel) * 3))%Q).
  { change 0%Q with (inject_Z 0). rewrite <- Zlt_Qlt.
    destruct sel; [done|]. simpl length. lia. }
  split.
  - apply Qle_shift_div_l; [done|]. rewrite Qmult_0_l.
    change 0%Q with (inject_Z 0). by rewrite <- Zle_Qle.
  - apply Qle_shift_div_r; [done|]. rewrite Qmult_1_l.
    by rewrite <- Zle_Qle.
Qed.

Lemma recent_performance_any_window team ms n :
  calculate_recent_performance (JArr (encode <$> ms)) team n
  = performance_of team (encode <$> take n (by_date_desc ms)).
Proof.
  unfold calculate_recent_performance.
  destruct ms as [|m0 ms'] eqn:Hms.
  - by destruct n.
  - rewrite <- Hms.
    assert (Ht : truthy (JArr (encode <$> ms)) = true) by (by rewrite Hms).
    rewrite Ht. cbn [negb iter bind].
    rewrite (mapM_fmap match_date encode keyed) by apply match_date_encode.
    cbn [bind]. rewrite sorted_desc_keyed. cbn [bind].
    rewrite <- list_fmap_compose.
    change (snd ∘ keyed) with encode.
    by rewrite <- fmap_take.
Qed.

(** X10: on every list of played matches, for every team and every window
    size, [calculate_recent_performance] returns a number between 0 and 1,
    and 0 when the window size is 0. *)
Theorem calculate_recent_performance_range (ms : list H2HMatch) (team : Z)
    (n : nat) :
  ∃ q, calculate_recent_performance (JArr (encode <$> ms)) team n = Ok q
       ∧ (0 <= q <= 1)%Q
       ∧ (n = 0%nat ∨ ms = [] -> q = 0%Q).
Proof.
  rewrite recent_performance_any_window.
  destruct (take n (by_date_desc ms)) as [|s sel] eqn:Hsel.
  - exists 0%Q. repeat split; try done; lra.
  - exists (points_ratio team (s :: sel)).
    split; [by apply performance_of_encode|].
    split; [by apply points_ratio_unit|].
    intros [->| ->]; [done|].
    change (by_date_desc []) with (@nil H2HMatch) in Hsel.
    by rewrite take_nil in Hsel.
Qed.

Lemma calculate_recent_performance_range_witness :
  (0%nat = 0%nat ∨ [{| m_date := "2024-03-02"; m_home := 33; m_away := 34;
                       m_goals_home := 2; m_goals_away := 0 |}] = [])
  ∧ calculate_recent_performance
      (JArr (encode <$> [{| m_date := "2024-03-02"; m_home := 33;
                            m_away := 34; m_goals_home := 2;
                            m_goals_away := 0 |}])) 33 0
    = Ok 0%Q.
Proof.
  split; [by left|].
  destruct (calculate_recent_performance_range
              [{| m_date := "2024-03-02"; m_home := 33; m_away := 34;
                  m_goals_home := 2; m_goals_away := 0 |}] 33 0)
    as (q & Hq & _ & H0).
  rewrite Hq. f_equal. apply H0. by left.
Defined.

(** X11: a head-to-head match without result (both goals null) makes
    [calculate_recent_performance] fail with [TypeError] when the team is
    one of its two sides, and counts as a draw, one point of three, when
    the team is neither. *)
Theorem unplayed_match_points (date : string) (home away team : Z) :
  (team = home ∨ team = away ->
   calculate_recent_performance (JArr [unplayed date home away]) team 5
   = Raise TypeError)
  ∧ (team ≠ home -> team ≠ away ->
     ∃ q, calculate_recent_performance (JArr [unplayed date home away]) team 5
          = Ok q
          ∧ (q == 1 # 3)%Q).
Proof.
  unfold calculate_recent_performance. cbn [truthy negb iter bind].
  change (mapM match_date [unplayed date home away])
    with (Ok [(JStr date, unplayed date home away)]).
  cbn [bind sorted_desc insert_desc]. simpl take.
  unfold performance_of. cbn [mapM].
  unfold match_points, won_as.
  change (team_id_of (unplayed date home away) "home") with (Ok (jz home)).
  change (team_id_of (unplayed date home away) "away") with (Ok (jz away)).
  change (goals_of (unplayed date home away) "home") with (Ok JNull).
  change (goals_of (unplayed date home away) "away") with (Ok JNull).
  cbn [bind]. rewrite !eq_int_jz. split.
  - intros [-> | ->].
    + by rewrite Z.eqb_refl.
    + rewrite Z.eqb_refl. by destruct (Z.eqb home away).
  - intros Hh Ha.
    destruct (Z.eqb_spec home team) as [|_]; [congruence|].
    destruct (Z.eqb_spec away team) as [|_]; [congruence|].
    eexists. split; [reflexivity|]. reflexivity.
Qed.

Lemma unplayed_match_points_witness :
  (33 = 33 ∨ 33 = 34)
  ∧ calculate_recent_performance (JArr [unplayed "2025-01-01" 33 34]) 33 5
    = Raise TypeError.
Proof.
  split; [by left|].
  apply (proj1 (unplayed_match_points "2025-01-01" 33 34 33)). by left.
Defined.

End RecentPerformanceMore.

Section MissingData.
Import FeatureEngineering.

Variable football_data : list (string * json).

Lemma has_league_absent (table : string) (league_id : Z) :
  assoc table football_data = None ->
  has_league football_data table league_id = Ok false.
Proof.
  intros Hn. unfold has_league, contains. cbn [bind].
  rewrite Hn. by rewrite bool_decide_eq_false_2 by (by intros [? ?]).
Qed.

Lemma get_team_data_absent (team_id league_id : Z) :
  assoc "team_statistics" football_data = None ->
  assoc "standings" football_data = None ->
  get_team_data football_data team_id league_id = Ok (JObj [], JObj []).
Proof.
  intros Hs Ht. unfold get_team_data.
  by rewrite !has_league_absent.
Qed.

Lemma get_injuries_absent (team_id league_id : Z) :
  assoc "injuries" football_data = None ->
  get_injuries football_data team_id league_id = Ok [].
Proof. intros Hi. unfold get_injuries. by rewrite has_league_absent. Qed.

Lemma get_h2h_data_absent (home away : Z) :
  assoc "h2h" football_data = None ->
  get_h2h_data football_data home away = Ok (JArr []).
Proof.
  intros Hh. unfold get_h2h_data, contains. cbn [bind].
  rewrite Hh. by rewrite bool_decide_eq_false_2 by (by intros [? ?]).
Qed.

(** X12: missing data is not an error: when [football_data] has none of
    the tables (as when football_data.json is not found and the module
    falls back to the empty dict), [feature_engineering] returns, for any
    two teams and any league, the frame whose sixteen fields are all 0. *)
Theorem feature_engineering_no_data (home away league : Z) :
  assoc "team_statistics" football_data = None ->
  assoc "standings" football_data = None ->
  assoc "injuries" football_data = None ->
  assoc "h2h" football_data = None ->
  feature_engineering football_data home away league
  = Ok ((fun name => (name, JNum 0)) <$> feature_names).
Proof.
  intros Hs Ht Hi Hh. unfold feature_engineering.
  rewrite !get_team_data_absent, !get_injuries_absent, get_h2h_data_absent
    by done.
  reflexivity.
Qed.

(** X14: [get_injuries] keeps the injuries of the team and no other: every
    record it returns is a record of the league's list whose team id is
    the one asked for; without an injury table for the league the result
    is empty. *)
Theorem get_injuries_of_team (team_id league_id : Z) (injuries : list json) :
  get_injuries football_data team_id league_id = Ok injuries ->
  (∀ x, x ∈ injuries -> is_team team_id x = Ok true)
  ∧ (has_league football_data "injuries" league_id = Ok false ->
     injuries = []).
Proof.
  unfold get_injuries. intros Hg. split.
  - destruct (has_league football_data "injuries" league_id) as [[|]|];
      cbn [bind] in Hg; [|by injection Hg as <-; intros x Hx;
                            apply elem_of_nil in Hx|done].
    destruct (league_entry football_data "injuries" league_id) as [e|];
      cbn [bind] in Hg; [|done].
    destruct (getitem e "response") as [response|]; cbn [bind] in Hg; [|done].
    destruct (iter response) as [l|]; cbn [bind] in Hg; [|done].
    revert injuries Hg. induction l as [|y l IH]; intros injuries Hg.
    + injection Hg as <-. intros x Hx. by apply elem_of_nil in Hx.
    + simpl in Hg. destruct (is_team team_id y) as [b|] eqn:Hy; [|done].
      destruct (filterM (is_team team_id) l) as [ys|]; [|done].
      injection Hg as <-. intros x Hx. destruct b.
      * apply elem_of_cons in Hx as [->|Hx]; [done|by apply (IH ys)].
      * by apply (IH ys).
  - intros Hn. rewrite Hn in Hg. cbn [bind] in Hg. by injection Hg as <-.
Qed.

(** X15: [get_team_data] returns two dicts whenever it returns: the team
    statistics, and a standing that is either the empty dict or an entry
    of the league table whose team id is the one asked for. *)
Theorem get_team_data_dicts (team_id league_id : Z) (team_stats standings : json) :
  get_team_data football_data team_id league_id = Ok (team_stats, standings) ->
  (∃ kv, team_stats = JObj kv)
  ∧ (∃ kv, standings = JObj kv)
  ∧ (standings = JObj [] ∨ is_team team_id standings = Ok true).
Proof.
  unfold get_team_data. intros Hg.
  destruct (has_league football_data "team_statistics" league_id) as [c|];
    cbn [bind] in Hg; [|done].
  match type of Hg with
  | bind ?m _ = _ => destruct m as [ts|]; cbn [bind] in Hg; [|done]
  end.
  destruct (has_league football_data "standings" league_id) as [c'|];
    cbn [bind] in Hg; [|done].
  match type of Hg with
  | bind ?m _ = _ => destruct m as [st|] eqn:Hst; cbn [bind] in Hg; [|done]
  end.
  destruct (keys ts) eqn:Hkt; cbn [bind] in Hg; [|done].
  destruct (keys st) eqn:Hks; cbn [bind] in Hg; [|done].
  injection Hg as <- <-.
  split; [destruct ts; try done; by eexists|].
  split; [destruct st; try done; by eexists|].
  destruct c'; [|left; by injection Hst as <-].
  destruct (league_entry football_data "standings" league_id) as [e|];
    cbn [bind] in Hst; [|done].
  destruct (getitem e "response") as [response|]; cbn [bind] in Hst; [|done].
  destruct (iter response) as [l|]; cbn [bind] in Hst; [|done].
  clear -Hst. induction l as [|y l IH]; simpl in Hst.
  - left. by injection Hst as <-.
  - destruct (is_team team_id y) as [[|]|] eqn:Hy; [|by apply IH|done].
    right. by injection Hst as <-.
Qed.

End MissingData.

Section MissingDataExamples.
Import FeatureEngineering.

Lemma feature_engineering_no_data_witness :
  assoc "team_statistics" (@nil (string * json)) = None
  ∧ feature_engineering [] 33 34 39
    = Ok ((fun name => (name, JNum 0)) <$> feature_names).
Proof.
  split; [reflexivity|].
  exact (feature_engineering_no_data [] 33 34 39 eq_refl eq_refl eq_refl
           eq_refl).
Defined.

Lemma get_injuries_of_team_witness :
  let data := [("injuries",
                JObj [("39", JObj [("response",
                         JArr [ JObj [("team", JObj [("id", jz 33)])];
                                JObj [("team", JObj [("id", jz 34)])] ])])])] in
  get_injuries data 33 39 = Ok [JObj [("team", JObj [("id", jz 33)])]]
  ∧ ∀ x, x ∈ [JObj [("team", JObj [("id", jz 33)])]] ->
         is_team 33 x = Ok true.
Proof.
  intros data. split; [reflexivity|].
  exact (proj1 (get_injuries_of_team data 33 39 _ eq_refl)).
Defined.

Lemma get_team_data_dicts_witness :
  get_team_data (scenario_data 33 34 39) 34 39
  = Ok (JObj [], standing 34 10 "LLDWL" (-4))
  ∧ (standing 34 10 "LLDWL" (-4) = JObj []
     ∨ is_team 34 (standing 34 10 "LLDWL" (-4)) = Ok true).
Proof.
  split; [reflexivity|].
  exact (proj2 (proj2 (get_team_data_dicts (scenario_data 33 34 39) 34 39 _ _
                         eq_refl))).
Defined.

End MissingDataExamples.

(** ** The model *)

Section ModelMore.
Import Model.
Context `{Sklearn}.
Local Open Scope list_scope.

Lemma Qltb_true (p q : Q) : Qltb p q = true <-> (p < q)%Q.
Proof.
  unfold Qltb. rewrite negb_true_iff, <- not_true_iff_false, Qle_bool_iff.
  split; [apply Qnot_le_lt|apply Qlt_not_le].
Qed.

Lemma Qltb_false (p q : Q) : Qltb p q = false <-> (q <= p)%Q.
Proof. unfold Qltb. by rewrite negb_false_iff, Qle_bool_iff. Qed.

(** The invariant of the scan of [np.argmax]: [best] is the first position
    of the greatest entry seen so far. *)
Lemma argmax_from_spec (pre l : list Q) (best : nat) (bv : Q) :
  (pre ++ l) !! best = Some bv ->
  (best < length pre)%nat ->
  (∀ p, p ∈ pre -> (p <= bv)%Q) ->
  (∀ j p, (j < best)%nat -> pre !! j = Some p -> (p < bv)%Q) ->
  ∃ m, (pre ++ l) !! argmax_from best bv (length pre) l = Some m
       ∧ (∀ p, p ∈ pre ++ l -> (p <= m)%Q)
       ∧ (∀ j p, (j < argmax_from best bv (length pre) l)%nat ->
            (pre ++ l) !! j = Some p -> (p < m)%Q).
Proof.
  revert pre best bv. induction l as [|x l IH]; intros pre best bv Hb Hlt Hmax Hfirst.
  - simpl. exists bv. rewrite app_nil_r in *. repeat split; try done.
  - simpl. replace (pre ++ x :: l) with ((pre ++ [x]) ++ l) in *
      by (by rewrite <- app_assoc).
    replace (S (length pre)) with (length (pre ++ [x]))
      by (rewrite length_app; simpl; lia).
    destruct (Qltb bv x) eqn:Hx.
    + apply Qltb_true in Hx. apply IH.
      * rewrite lookup_app_l by (rewrite length_app; simpl; lia).
        by rewrite lookup_app_r, Nat.sub_diag.
      * rewrite length_app; simpl; lia.
      * intros p [Hp|Hp]%elem_of_app.
        -- apply Qle_trans with bv; [by apply Hmax|by apply Qlt_le_weak].
        -- apply list_elem_of_singleton in Hp as ->. apply Qle_refl.
      * intros j p Hj Hp.
        rewrite lookup_app_l in Hp by lia.
        apply Qle_lt_trans with bv; [|done].
        apply Hmax. by apply list_elem_of_lookup_2 in Hp.
    + apply Qltb_false in Hx. apply IH.
      * done.
      * rewrite length_app; simpl; lia.
      * intros p [Hp|Hp]%elem_of_app; [by apply Hmax|].
        by apply list_elem_of_singleton in Hp as ->.
      * intros j p Hj Hp. apply (Hfirst j p Hj).
        by rewrite lookup_app_l in Hp by lia.
Qed.

Lemma argmax_spec (l : list Q) (i : nat) :
  argmax l = Ok i ->
  ∃ m, l !! i = Some m
       ∧ (∀ p, p ∈ l -> (p <= m)%Q)
       ∧ (∀ j p, (j < i)%nat -> l !! j = Some p -> (p < m)%Q).
Proof.
  destruct l as [|x l]; [done|]. simpl. intros [= <-].
  apply (argmax_from_spec [x] l 0 x); simpl; try done; try lia.
  intros p Hp. apply list_elem_of_singleton in Hp as ->. apply Qle_refl.
Qed.

Lemma index_lookup {A} (l : list A) (i : nat) (a : A) :
  index l i = Ok a -> l !! i = Some a.
Proof. unfold index. destruct (l !! i); [by intros [= ->]|done]. Qed.

Ltac raised := split; [reflexivity | intros ? ? ?; discriminate].

Lemma predict_reads_only (m : PredictionModel) (X : Frame) :
  (predict X m).1 = m.
Proof.
  unfold predict, transform, with_model, mbind, mget, mraise, mret, lift.
  destruct (scaler m) as [sc|]; [|done].
  destruct (scaler_transform sc X) as [Xs|]; [|done].
  destruct (model m) as [c|] eqn:Hc; [|done].
  destruct (clf_predict_proba c Xs) as [proba|]; [|done].
  destruct (index proba 0) as [probs|]; [|done].
  destruct (argmax probs) as [i|]; [|done]. rewrite ?Hc.
  destruct (index (classes_ c) i) as [lab|]; [|done].
  by destruct (index probs i).
Qed.

(** X16: [predict] reads the model and never changes it.  When it
    returns, a classifier and a fitted scaler are loaded, the confidence is
    the greatest entry of the first row of class probabilities of the
    scaled input, and the label is the class at the first position of that
    entry. *)
Theorem predict_argmax (m : PredictionModel) (X : Frame) :
  (predict X m).1 = m
  ∧ ∀ label conf,
      (predict X m).2 = Ok (label, conf) ->
      ∃ c sc X_scaled proba probabilities i,
        model m = Some c
        ∧ scaler m = Some sc
        ∧ scaler_transform sc X = Ok X_scaled
        ∧ clf_predict_proba c X_scaled = Ok proba
        ∧ proba !! 0%nat = Some probabilities
        ∧ classes_ c !! i = Some label
        ∧ probabilities !! i = Some conf
        ∧ (∀ p, p ∈ probabilities -> (p <= conf)%Q)
        ∧ (∀ j p, (j < i)%nat -> probabilities !! j = Some p -> (p < conf)%Q).
Proof.
  unfold predict, transform, with_model, mbind, mget, mraise, mret, lift.
  destruct (scaler m) as [sc|] eqn:Hsc; [|raised].
  destruct (scaler_transform sc X) as [Xs|] eqn:HX; [|raised].
  destruct (model m) as [c|] eqn:Hc; [|raised].
  destruct (clf_predict_proba c Xs) as [proba|] eqn:Hp; [|raised].
  destruct (index proba 0) as [probs|] eqn:H0; [|raised].
  destruct (argmax probs) as [i|] eqn:Hi; [|raised]. rewrite ?Hc.
  destruct (index (classes_ c) i) as [lab|] eqn:Hl; [|raised].
  destruct (index probs i) as [cf|] eqn:Hcf; [|raised].
  split; [reflexivity|]. intros label conf [= <- <-].
  apply index_lookup in H0, Hl, Hcf.
  destruct (argmax_spec probs i Hi) as (mx & Hmx & Hmax & Hfirst).
  rewrite Hcf in Hmx. injection Hmx as <-.
  exists c, sc, Xs, proba, probs, i. repeat split; done.
Qed.

End ModelMore.

Section ModelMoreExamples.
Import Model.

Lemma predict_argmax_witness :
  (predict (H := sample_sklearn) [[Some (1 # 2)%Q]] sample_ready_model).2
  = Ok ("Home", 1%Q)
  ∧ ∃ c sc, model sample_ready_model = Some c
            ∧ scaler sample_ready_model = Some sc.
Proof.
  split; [reflexivity|].
  destruct (proj2 (predict_argmax (H := sample_sklearn) sample_ready_model
                     [[Some (1 # 2)%Q]]) "Home" 1%Q eq_refl)
    as (c & sc & _ & _ & _ & _ & Hc & Hsc & _).
  by exists c, sc.
Defined.

End ModelMoreExamples.

Section ModelLifecycle.
Import Model.
Context `{Sklearn}.
Local Open Scope list_scope.

(** X17: [load_model] is all or nothing: the model is ready only when both
    files are present and readable, and then holds what the files hold; in
    every other case (a file missing, a file unreadable) the classifier is
    [None], the scaler is the fresh unfitted one, and nothing is raised. *)
Theorem init_all_or_nothing (mf : file (option classifier))
    (sf : file (option fitted_scaler)) :
  (model (init mf sf), scaler (init mf sf))
  = match mf, sf with
    | Holds c, Holds sc => (c, sc)
    | _, _ => (None, None)
    end
  ∧ model_path (init mf sf) = mf
  ∧ scaler_path (init mf sf) = sf.
Proof. by destruct mf, sf. Qed.

(** X18: persist then restore.  [save_model] never changes the
    classifier and the scaler in memory.  When it returns, the two files
    hold them, and a model started from these files holds them again.
    When it raises, either the dump of the classifier failed and the
    scaler file is what it was, or the classifier file is already
    rewritten and the dump of the scaler failed. *)
Theorem save_then_load (m : PredictionModel) :
  let saved := (save_model m).1 in
  model saved = model m
  ∧ scaler saved = scaler m
  ∧ match (save_model m).2 with
    | Ok _ =>
        model_path saved = Holds (model m)
        ∧ scaler_path saved = Holds (scaler m)
        ∧ model (init (model_path saved) (scaler_path saved)) = model m
        ∧ scaler (init (model_path saved) (scaler_path saved)) = scaler m
    | Raise e =>
        (dump_model (model m) ≠ Written
         ∧ scaler_path saved = scaler_path m
         ∧ model_log saved = model_log m)
        ∨ (dump_model (model m) = Written
           ∧ model_path saved = Holds (model m)
           ∧ dump_scaler (scaler m) ≠ Written
           ∧ model_log saved = model_log m)
    end.
Proof.
  unfold save_model, dump_model_file, dump_scaler_file, joblib_dump, logm,
    mbind, mmodify.
  destruct (dump_model (model m)) eqn:Hm; cbn [fst snd model scaler
    model_path scaler_path model_log].
  2, 3: split; [done|]; split; [done|]; left; by repeat split.
  destruct (dump_scaler (scaler m)) eqn:Hs; cbn [fst snd model scaler
    model_path scaler_path model_log].
  2, 3: split; [done|]; split; [done|]; right; by repeat split.
  split; [done|]. split; [done|]. split; [done|]. split; [done|].
  by destruct (model m), (scaler m).
Qed.

Lemma n_test_lt (n : nat) : (2 <= n)%nat -> (n_test n < n)%nat.
Proof.
  intros Hn. unfold n_test.
  apply Nat.Div0.div_lt_upper_bound. lia.
Qed.

Lemma pick_seq {A} (l : list A) : pick l (seq 0 (length l)) = l.
Proof.
  unfold pick. induction l as [|x l IH]; [done|].
  simpl length. rewrite <- cons_seq, <- fmap_S_seq. cbn [omap list_omap].
  simpl. f_equal. rewrite <- IH at 2.
  apply list_omap_ext, Forall2_fmap_l, Forall_Forall2_diag, Forall_forall.
  done.
Qed.

Lemma length_pick {A} (l : list A) (idx : list nat) :
  Forall (fun i => (i < length l)%nat) idx ->
  length (pick l idx) = length idx.
Proof.
  unfold pick. induction 1 as [|i idx Hi _ IH]; [done|].
  apply lookup_lt_is_Some in Hi as [x Hx].
  cbn [omap list_omap]. rewrite Hx. simpl. by rewrite IH.
Qed.

Lemma pick_partition {A} (l : list A) (perm : list nat) (k : nat) :
  perm ≡ₚ seq 0 (length l) -> (k <= length l)%nat ->
  length (pick l (take k perm)) = k
  ∧ length (pick l (drop k perm)) = (length l - k)%nat
  ∧ pick l (take k perm) ++ pick l (drop k perm) ≡ₚ l.
Proof.
  intros Hperm Hk.
  assert (Hlen : length perm = length l)
    by (by rewrite Hperm, length_seq).
  assert (Hall : Forall (fun i => (i < length l)%nat) perm).
  { apply Forall_forall. intros i Hi. rewrite Hperm in Hi.
    apply elem_of_seq in Hi. lia. }
  split; [|split].
  - rewrite length_pick by (by apply Forall_take).
    rewrite length_take. lia.
  - rewrite length_pick by (by apply Forall_drop).
    rewrite length_drop. lia.
  - unfold pick. rewrite <- omap_app, take_drop, Hperm. apply reflexive_eq.
    apply pick_seq.
Qed.

(** X19: [train_test_split] in [train].  A table with no row or one row,
    or a table and labels of different lengths, make [train] raise the
    [ValueError] of the split and change nothing.  With at least two rows
    and as many labels, and a shuffle that is a permutation of the
    positions, the split returns: the test parts have [ceil(n / 5)]
    entries, the train parts the others, and the two parts together are
    the rows, and the labels, that were given. *)
Theorem train_needs_two_rows (m : PredictionModel) (X : Frame)
    (y : list string) :
  ((length X <= 1)%nat ∨ length X ≠ length y ->
   train_test_split X y = Raise ValueError
   ∧ train X y m = (m, Raise ValueError))
  ∧ ((2 <= length X)%nat -> length X = length y ->
     shuffle_42 (length X) ≡ₚ seq 0 (length X) ->
     ∃ X_train X_test y_train y_test,
       train_test_split X y = Ok (X_train, X_test, y_train, y_test)
       ∧ length X_test = n_test (length X)
       ∧ length y_test = n_test (length X)
       ∧ length X_train = (length X - n_test (length X))%nat
       ∧ length y_train = (length X - n_test (length X))%nat
       ∧ X_test ++ X_train ≡ₚ X
       ∧ y_test ++ y_train ≡ₚ y
       ∧ (5 * n_test (length X) >= length X
          ∧ 5 * n_test (length X) < length X + 5)%nat).
Proof.
  split.
  - intros Hn.
    assert (Hs : train_test_split X y = Raise ValueError).
    { unfold train_test_split.
      destruct (Nat.eqb_spec (length X) (length y)) as [Heq|Hne]; [|done].
      cbn [negb]. destruct Hn as [Hn|Hn]; [|done].
      assert (Hz : Nat.eqb (length X - n_test (length X)) 0 = true).
      { apply Nat.eqb_eq.
        destruct X as [|r [|r' X]]; simpl in *; try done. lia. }
      by rewrite Hz. }
    split; [done|]. unfold train, mbind, lift. by rewrite Hs.
  - intros Hn Hlen Hperm. unfold train_test_split.
    rewrite <- Hlen, Nat.eqb_refl. cbn [negb].
    pose proof (n_test_lt _ Hn) as Hlt.
    assert (Hz : Nat.eqb (length X - n_test (length X)) 0 = false)
      by (apply Nat.eqb_neq; lia).
    rewrite Hz.
    destruct (pick_partition X (shuffle_42 (length X)) (n_test (length X))
                Hperm) as (HX1 & HX2 & HX3); [lia|].
    rewrite Hlen in Hperm at 2.
    destruct (pick_partition y (shuffle_42 (length X)) (n_test (length X))
                Hperm) as (Hy1 & Hy2 & Hy3); [lia|].
    do 4 eexists. split; [reflexivity|].
    rewrite <- Hlen in Hy2.
    repeat split; try done.
    + unfold n_test.
      pose proof (Nat.div_mod_eq (length X + 4) 5).
      pose proof (Nat.mod_upper_bound (length X + 4) 5). lia.
    + unfold n_test.
      pose proof (Nat.div_mod_eq (length X + 4) 5).
      pose proof (Nat.mod_upper_bound (length X + 4) 5). lia.
Qed.

End ModelLifecycle.

Section ModelLifecycleExamples.
Import Model.

Lemma train_needs_two_rows_witness :
  (2 <= length [[Some (1 # 2)%Q]; [Some (1 # 3)%Q]; [Some (1 # 4)%Q]])%nat
  ∧ shuffle_42 (Sklearn := sample_sklearn) 3 ≡ₚ seq 0 3
  ∧ ∃ X_train X_test y_train y_test,
      train_test_split (H := sample_sklearn)
        [[Some (1 # 2)%Q]; [Some (1 # 3)%Q]; [Some (1 # 4)%Q]]
        ["Home"; "Away"; "Draw"]
      = Ok (X_train, X_test, y_train, y_test)
      ∧ length X_test = 1%nat
      ∧ length X_train = 2%nat.
Proof.
  split; [simpl; lia|]. split; [reflexivity|].
  destruct (proj2 (train_needs_two_rows (H := sample_sklearn)
                     sample_ready_model
                     [[Some (1 # 2)%Q]; [Some (1 # 3)%Q]; [Some (1 # 4)%Q]]
                     ["Home"; "Away"; "Draw"]))
    as (X_train & X_test & y_train & y_test & Hs & H1 & _ & H2 & _);
    [simpl; lia|reflexivity|reflexivity|].
  by exists X_train, X_test, y_train, y_test.
Defined.

End ModelLifecycleExamples.

Section TrainEffects.
Import Model.
Context `{Sklearn}.

(** X20: [train] writes its artifacts only at its end, one after the
    other.  When it returns, a classifier and a fitted scaler are in
    memory and the two files hold exactly them.  When it raises, either
    the two files are what they were, or training was complete and
    saving failed: the classifier file is truncated with the scaler file
    as it was, or it holds the new classifier while the scaler file is
    as it was or truncated. *)
Theorem train_persists (m : PredictionModel) (X : Frame) (y : list string) :
  let m' := (train X y m).1 in
  match (train X y m).2 with
  | Ok _ =>
      ∃ c sc, model m' = Some c ∧ scaler m' = Some sc
              ∧ model_path m' = Holds (Some c)
              ∧ scaler_path m' = Holds (Some sc)
  | Raise _ =>
      (model_path m' = model_path m ∧ scaler_path m' = scaler_path m)
      ∨ ∃ c sc,
          model m' = Some c ∧ scaler m' = Some sc
          ∧ ((dump_model (Some c) ≠ Written
              ∧ model_path m' = Corrupt
              ∧ scaler_path m' = scaler_path m)
             ∨ (dump_model (Some c) = Written
                ∧ dump_scaler (Some sc) ≠ Written
                ∧ model_path m' = Holds (Some c)
                ∧ (scaler_path m' = scaler_path m
                   ∨ scaler_path m' = Corrupt)))
  end.
Proof.
  unfold train, fit, transform, with_model, metrics, save_model,
    dump_model_file, dump_scaler_file, joblib_dump, logm,
    set_model, set_scaler, mbind, mget, mmodify, mraise, mret, lift.
  destruct (train_test_split X y) as [[[[X_train X_test] y_train] y_test]|];
    simpl; [|by left].
  destruct (scaler_fit X_train) as [sc|]; simpl; [|by left].
  destruct (scaler_transform sc X_train) as [X_train_scaled|]; simpl;
    [|by left].
  destruct (scaler_transform sc X_test) as [X_test_scaled|]; simpl;
    [|by left].
  destruct (grid_search_fit X_train_scaled y_train) as [best|]; simpl;
    [|by left].
  destruct (clf_predict best X_test_scaled) as [y_pred|]; simpl; [|by left].
  destruct (label_scores y_test y_pred) as [[[[a p] r] f]|]; simpl;
    [|by left].
  destruct (clf_predict_proba best X_test_scaled) as [proba|]; simpl;
    [|by left].
  destruct (roc_auc_score y_test proba) as [auc|]; simpl; [|by left].
  destruct (dump_model (Some best)) eqn:Hm; simpl.
  - destruct (dump_scaler (Some sc)) eqn:Hs; simpl.
    + by exists best, sc.
    + right. exists best, sc. split; [done|]. split; [done|]. right.
      rewrite Hs. repeat split; try done. by left.
    + right. exists best, sc. split; [done|]. split; [done|]. right.
      rewrite Hs. repeat split; try done. by right.
  - by left.
  - right. exists best, sc. split; [done|]. split; [done|]. left.
    rewrite Hm. by repeat split.
Qed.

Lemma insert_by_importance_perm (x : string * Q) (l : list (string * Q)) :
  insert_by_importance x l ≡ₚ x :: l.
Proof.
  induction l as [|y l IH]; [done|]. simpl.
  destruct (Qltb x.2 y.2); [|done].
  rewrite IH. apply Permutation_swap.
Qed.

Lemma insert_by_importance_sorted (x : string * Q) (l : list (string * Q)) :
  StronglySorted (fun a b => (b.2 <= a.2)%Q) l ->
  StronglySorted (fun a b => (b.2 <= a.2)%Q) (insert_by_importance x l).
Proof.
  induction 1 as [|y l Hs IH Hy]; simpl.
  - repeat constructor.
  - destruct (Qltb x.2 y.2) eqn:Hlt.
    + apply Qltb_true in Hlt. constructor; [done|].
      rewrite insert_by_importance_perm. constructor; [|done].
      by apply Qlt_le_weak.
    + apply Qltb_false in Hlt.
      constructor; [by constructor|].
      constructor; [done|].
      eapply Forall_impl; [exact Hy|]. intros z Hz. simpl in *.
      by apply Qle_trans with y.2.
Qed.

Lemma model_feature_importance_reads_only (m : PredictionModel) :
  (get_feature_importance m).1 = m.
Proof.
  unfold get_feature_importance, with_model, mbind, mget, mraise, mret, lift.
  destruct (model m) as [c|] eqn:Hc; [|done].
  destruct (feature_names_in_ c) as [names|]; [|done].
  rewrite !Hc. cbn beta iota.
  by destruct (Nat.eqb (length names) (length (feature_importances_ c))).
Qed.

(** X21: the feature-importance frame of the model lists every feature
    once with its importance, greatest importance first; the model is not
    changed; without a classifier the call fails with
    [AttributeError]. *)
Theorem model_feature_importance_sorted (m : PredictionModel) :
  (get_feature_importance m).1 = m
  ∧ (model m = None -> (get_feature_importance m).2 = Raise AttributeError)
  ∧ ∀ fi, (get_feature_importance m).2 = Ok fi ->
      ∃ c names,
        model m = Some c
        ∧ feature_names_in_ c = Ok names
        ∧ fi ≡ₚ zip names (feature_importances_ c)
        ∧ StronglySorted (fun a b => (b.2 <= a.2)%Q) fi.
Proof.
  unfold get_feature_importance, with_model, mbind, mget, mraise, mret, lift.
  destruct (model m) as [c|] eqn:Hc;
    [|split; [done|split; [done|intros ? ?; discriminate]]].
  destruct (feature_names_in_ c) as [names|] eqn:Hn;
    [|split; [done|split; [intros ?|intros ? ?]; discriminate]].
  rewrite !Hc. cbn beta iota.
  destruct (Nat.eqb (length names) (length (feature_importances_ c)));
    simpl; [|split; [done|split; [intros ?|intros ? ?]; discriminate]].
  split; [done|]. split; [intros ?; discriminate|]. intros fi [= <-].
  exists c, names. repeat split; try done.
  - induction (zip names (feature_importances_ c)) as [|x l IH]; [done|].
    simpl. by rewrite insert_by_importance_perm, IH.
  - induction (zip names (feature_importances_ c)) as [|x l IH];
      [constructor|].
    simpl. by apply insert_by_importance_sorted.
Qed.

End TrainEffects.

Section TrainEffectsExamples.
Import Model.

Lemma model_feature_importance_sorted_witness :
  (get_feature_importance (H := sample_sklearn) sample_ready_model).2
  = Ok [("probability", 1%Q)]
  ∧ ∃ c, model sample_ready_model = Some c.
Proof.
  split; [reflexivity|].
  destruct (proj2 (proj2 (model_feature_importance_sorted
                            (H := sample_sklearn) sample_ready_model))
              [("probability", 1%Q)] eq_refl) as (c & _ & Hc & _).
  by exists c.
Defined.

End TrainEffectsExamples.

Section EvaluateMore.
Import Model.
Context `{Sklearn}.

Ltac stops :=
  cbn [fst snd];
  split; [done|]; split; [intros ?; congruence|];
  split; [intros ? ? ? ? ?; congruence|intros ? ?; discriminate].

(** X26: [evaluate] reads the model and never changes it.  With a scaler
    that was never fitted it raises [NotFittedError]; with a fitted scaler
    and no classifier it raises [AttributeError]; when it returns, the four
    label scores compare [y] with the predictions of the classifier on the
    scaled input, and the ROC AUC is that of [y] against the class
    probabilities of the same scaled input. *)
Theorem evaluate_reads_only (m : PredictionModel) (X : Frame)
    (y : list string) :
  (evaluate X y m).1 = m
  ∧ (scaler m = None -> (evaluate X y m).2 = Raise NotFittedError)
  ∧ (∀ sc X_scaled,
       scaler m = Some sc -> scaler_transform sc X = Ok X_scaled ->
       model m = None -> (evaluate X y m).2 = Raise AttributeError)
  ∧ ∀ r, (evaluate X y m).2 = Ok r ->
      ∃ c sc X_scaled y_pred proba,
        model m = Some c
        ∧ scaler m = Some sc
        ∧ scaler_transform sc X = Ok X_scaled
        ∧ clf_predict c X_scaled = Ok y_pred
        ∧ label_scores y y_pred
          = Ok (m_accuracy r, m_precision r, m_recall r, m_f1 r)
        ∧ clf_predict_proba c X_scaled = Ok proba
        ∧ roc_auc_score y proba = Ok (m_roc_auc r).
Proof.
  unfold evaluate, metrics, transform, with_model, mbind, mget, mraise, mret,
    lift.
  destruct (scaler m) as [sc|] eqn:Hsc; [|stops].
  destruct (scaler_transform sc X) as [Xs|e] eqn:HX; [|stops].
  destruct (model m) as [c|] eqn:Hc; [|stops].
  destruct (clf_predict c Xs) as [y_pred|e] eqn:Hy; [|stops].
  destruct (label_scores y y_pred) as [[[[a p] rc] f]|e] eqn:Hs; [|stops].
  rewrite ?Hc. cbn beta iota.
  destruct (clf_predict_proba c Xs) as [proba|e] eqn:Hp; [|stops].
  destruct (roc_auc_score y proba) as [auc|e] eqn:Ha; [|stops].
  cbn [fst snd].
  split; [done|]. split; [intros ?; congruence|].
  split; [intros ? ? ? ? ?; congruence|].
  intros r [= <-]. by exists c, sc, Xs, y_pred, proba.
Qed.

End EvaluateMore.

Section EvaluateMoreExamples.
Import Model.

Lemma evaluate_reads_only_witness :
  scaler (init (H := sample_sklearn) Absent Absent) = None
  ∧ (evaluate (H := sample_sklearn) [[Some (1 # 2)%Q]] ["Home"]
       (init Absent Absent)).2
    = Raise NotFittedError.
Proof.
  split; [reflexivity|].
  apply (proj1 (proj2 (evaluate_reads_only (H := sample_sklearn)
                         (init Absent Absent) [[Some (1 # 2)%Q]] ["Home"]))).
  reflexivity.
Defined.

End EvaluateMoreExamples.

(** ** The orchestrator *)

Section OrchestratorMore.
Import Database Model Orchestrator.
Context `{Sklearn}.
Variable all_data : json.
Variable TeamDetails : Type.
Variable team_details : json -> result TeamDetails.
Variable engineer_features : MatchData TeamDetails -> result Frame.
Variable clock : nat -> string.
Local Open Scope list_scope.

Local Abbreviation process_fixture :=
  (process_fixture all_data TeamDetails team_details engineer_features).
Local Abbreviation process_league :=
  (process_league all_data TeamDetails team_details engineer_features).
Local Abbreviation predict_matches_for_all_leagues :=
  (predict_matches_for_all_leagues all_data TeamDetails team_details
     engineer_features).
Local Abbreviation cycle :=
  (cycle all_data TeamDetails team_details engineer_features clock).
Local Abbreviation run :=
  (run all_data TeamDetails team_details engineer_features clock).

Lemma process_fixture_always_raises (fixture standings : json) :
  always_raises (process_fixture fixture standings).
Proof.
  intros s.
  unfold Orchestrator.process_fixture, mbind, lift, mraise.
  repeat match goal with
         | |- context [match ?r with Ok _ => _ | Raise _ => _ end] =>
             destruct r; [|by eexists]
         end.
  unfold on_model.
  match goal with
  | |- context [predict ?X (pm s)] =>
      pose proof (predict_reads_only (pm s) X) as Hst;
      destruct (predict X (pm s)) as [m' r]
  end.
  simpl in Hst. subst m'. rewrite system_eta.
  destruct r as [[label conf]|e]; [|by eexists].
  repeat match goal with
         | |- context [match ?r with Ok _ => _ | Raise _ => _ end] =>
             destruct r; [|by eexists]
         end.
  by eexists.
Qed.

(** X22: [process_fixture] never stores a prediction: in every state, with
    or without a model, it raises and leaves database, model and log as
    they were (with a model that predicts, the error is the [TypeError] of
    the call of [store_prediction] without its [weather_data]). *)
Theorem process_fixture_never_stores (fixture standings : json) (s : System) :
  ∃ e, process_fixture fixture standings s = (s, Raise e).
Proof. apply process_fixture_always_raises. Qed.

Lemma run_tasks_always_raise {A} (tasks : list (M System A)) (s : System) :
  Forall always_raises tasks ->
  ∃ rs, run_tasks tasks s = (s, rs) ∧ length rs = length tasks.
Proof.
  induction 1 as [|t tasks Ht _ (rs & IH & Hlen)]; simpl.
  - by exists [].
  - destruct (Ht s) as [e ->]. rewrite IH. exists (Raise e :: rs).
    split; [done|]. simpl. by rewrite Hlen.
Qed.

(** What [process_league] does to the state is to log, and the tasks it
    creates are calls of [process_fixture]. *)
Lemma process_league_shape (l : Z) (season : string) (s : System) :
  ∃ records r,
    process_league l season s = (with_log s records, r)
    ∧ ∀ tasks, r = Ok tasks -> Forall always_raises tasks.
Proof.
  unfold Orchestrator.process_league, mbind, lift.
  destruct (assoc_Z l Config.TOP_LEAGUES) as [name|].
  2: { exists [], (Raise KeyError). rewrite with_log_nil. by split. }
  rewrite logger_with_log.
  destruct (fetch_data all_data "fixtures") as [fixtures|e].
  2: { exists [ProcessingLeague name], (Raise e). by split. }
  destruct (fetch_data all_data "standings") as [standings|e].
  2: { exists [ProcessingLeague name], (Raise e). by split. }
  destruct (truthy fixtures && truthy standings).
  - destruct (getitem fixtures "response") as [response|e].
    2: { exists [ProcessingLeague name], (Raise e). by split. }
    destruct (iter response) as [fs|e].
    2: { exists [ProcessingLeague name], (Raise e). by split. }
    eexists [ProcessingLeague name], _. split; [reflexivity|].
    intros tasks [= <-]. apply Forall_fmap, Forall_forall. intros f _.
    apply process_fixture_always_raises.
  - rewrite logger_with_log, with_log_app. simpl.
    eexists _, _. split; [reflexivity|].
    intros tasks [= <-]. constructor.
Qed.

Lemma run_leagues_shape (leagues : list (Z * string)) (season : string)
    (s : System) :
  ∃ records rs,
    run_tasks ((fun l => process_league l.1 season) <$> leagues) s
    = (with_log s records, rs)
    ∧ Forall always_raises (created rs).
Proof.
  revert s. induction leagues as [|l leagues IH]; intros s.
  - exists [], []. rewrite with_log_nil. split; [done|constructor].
  - rewrite fmap_cons. cbn [run_tasks].
    destruct (process_league_shape l.1 season s) as (rec1 & r & -> & Hr).
    destruct (IH (with_log s rec1)) as (rec2 & rs & -> & Hrs).
    rewrite with_log_app. exists (rec1 ++ rec2), (r :: rs).
    split; [done|]. destruct r as [tasks|e]; simpl; [|done].
    apply Forall_app. split; [by apply Hr|done].
Qed.

Lemma predict_phase_shape (s : System) :
  ∃ records r, predict_matches_for_all_leagues s = (with_log s records, r).
Proof.
  unfold Orchestrator.predict_matches_for_all_leagues.
  destruct (run_leagues_shape Config.TOP_LEAGUES Config.CURRENT_SEASON s)
    as (records & rs & -> & Hrs).
  destruct (run_tasks_always_raise _ (with_log s records) Hrs)
    as (outs & -> & _).
  exists records.
  destruct (first_error rs), (first_error outs); by eexists.
Qed.

Lemma keeps_ledger_bind {A B} (m : M System A) (k : A -> M System B) :
  keeps_ledger m -> (∀ a, keeps_ledger (k a)) -> keeps_ledger (mbind m k).
Proof.
  intros Hm Hk s. unfold mbind. specialize (Hm s).
  destruct (m s) as [s1 [a|e]]; simpl in *; [|done].
  destruct Hm as [Hm1 Hm2]. destruct (Hk a s1) as [H1 H2].
  split; congruence.
Qed.

Lemma keeps_ledger_on_model {A} (m : M PredictionModel A) :
  keeps_ledger (on_model m).
Proof. intros s. unfold on_model. by destruct (m (pm s)). Qed.

Lemma keeps_ledger_logger (r : LogRecord) : keeps_ledger (logger r).
Proof. by intros s. Qed.

Lemma keeps_ledger_now : keeps_ledger (now clock).
Proof. by intros s. Qed.

Lemma keeps_ledger_lift {A} (r : result A) : keeps_ledger (lift r).
Proof. by intros s. Qed.

Lemma keeps_ledger_stamp (frame : list (string * Q)) :
  keeps_ledger (stamp clock frame).
Proof.
  induction frame as [|[f i] frame IH]; [by intros s|].
  simpl. apply keeps_ledger_bind; [apply keeps_ledger_now|].
  intros t. apply keeps_ledger_bind; [apply IH|]. by intros rest s.
Qed.

Lemma keeps_ledger_update_model : keeps_ledger (update_model clock).
Proof.
  intros s. unfold update_model.
  match goal with
  | |- context [mbind mget ?k s] => change (mbind mget k s) with (k s s)
  end.
  cbv beta.
  destruct (get_historical_data (db s)) as [|kr rows];
    [apply keeps_ledger_logger|].
  refine (keeps_ledger_bind _ _ (keeps_ledger_on_model _) _ s). intros _.
  apply keeps_ledger_bind; [apply keeps_ledger_on_model|]. intros fi.
  apply keeps_ledger_bind; [apply keeps_ledger_stamp|]. intros rows'.
  intros s'. by unfold mbind, mget, set_db, mmodify, logger.
Qed.

Lemma keeps_ledger_evaluate : keeps_ledger (evaluate_predictions clock).
Proof. by intros s. Qed.

Lemma keeps_ledger_predict_phase :
  keeps_ledger predict_matches_for_all_leagues.
Proof.
  intros s. by destruct (predict_phase_shape s) as (records & r & ->).
Qed.

Lemma cycle_body_raises (s : System) :
  ∃ s' e,
    (mbind predict_matches_for_all_leagues (fun _ =>
       mbind (update_model clock) (fun _ => evaluate_predictions clock))) s
    = (s', Raise e)
    ∧ predictions (db s') = predictions (db s)
    ∧ cache (db s') = cache (db s).
Proof.
  unfold mbind.
  pose proof (keeps_ledger_predict_phase s) as [Hp1 Hc1].
  destruct (predict_matches_for_all_leagues s) as [s1 [[]|e]];
    [|by exists s1, e].
  pose proof (keeps_ledger_update_model s1) as [Hp2 Hc2].
  destruct (update_model clock s1) as [s2 [[]|e]]; simpl in *.
  - pose proof (evaluate_predictions_raises clock s2) as He.
    pose proof (keeps_ledger_evaluate s2) as [Hp3 Hc3].
    destruct (evaluate_predictions clock s2) as [s3 r] eqn:Hev.
    simpl in He. subst r. exists s3, TypeError.
    assert (Hs3 : s3 = (evaluate_predictions clock s2).1) by (by rewrite Hev).
    split; [done|]. subst s3. split; simpl; congruence.
  - exists s2, e. split; [done|]. split; congruence.
Qed.

Lemma cycle_shape (s : System) :
  ∃ s' e,
    cycle s = (with_log s' [CycleError e], Ok tt)
    ∧ predictions (db s') = predictions (db s)
    ∧ cache (db s') = cache (db s).
Proof.
  destruct (cycle_body_raises s) as (s' & e & Hbody & Hp & Hc).
  exists s', e. split; [|done].
  unfold Orchestrator.cycle, try_except.
  change (mbind predict_matches_for_all_leagues
            (fun _ => mbind (update_model clock)
                        (fun _ => evaluate_predictions clock)) s)
    with ((mbind predict_matches_for_all_leagues (fun _ =>
             mbind (update_model clock)
               (fun _ => evaluate_predictions clock))) s).
  by rewrite Hbody.
Qed.

(** X23: no cycle of the loop completes and none stops the loop: in every
    state the body of the cycle raises (at the latest in
    [evaluate_predictions], whose query is a [TypeError]), the handler logs
    the error as the last record of the cycle, and the cycle returns
    normally, with the predictions table and the cache as they were. *)
Theorem cycle_always_logs_error (s : System) :
  ∃ s' e,
    cycle s = (with_log s' [CycleError e], Ok tt)
    ∧ predictions (db s') = predictions (db s)
    ∧ cache (db s') = cache (db s).
Proof. apply cycle_shape. Qed.

(** X24: however many cycles run, the orchestrator writes no prediction
    and no cache entry: the predictions table and the cache are those of
    the start. *)
Theorem run_never_writes_ledger (n : nat) (s : System) :
  predictions (db (run n s)) = predictions (db s)
  ∧ cache (db (run n s)) = cache (db s).
Proof.
  revert s. induction n as [|n IH]; intros s; [done|].
  change (run (S n) s) with (run n (cycle s).1).
  destruct (cycle_shape s) as (s' & e & -> & Hp & Hc).
  cbn [fst].
  destruct (IH (with_log s' [CycleError e])) as [-> ->]. by simpl.
Qed.

Lemma stamp_shape (frame : list (string * Q)) (s : System) :
  ∃ rows,
    stamp clock frame s
    = ({| db := db s; pm := pm s; log := log s;
          ticks := ticks s + length frame |}, Ok rows)
    ∧ rows.*1 = frame.
Proof.
  revert s. induction frame as [|[f i] frame IH]; intros s.
  - exists []. split; [|done]. simpl. unfold mret.
    by rewrite Nat.add_0_r, system_eta.
  - simpl stamp. unfold mbind at 1. unfold now at 1.
    destruct (IH {| db := db s; pm := pm s; log := log s;
                    ticks := S (ticks s) |}) as (rows & Hrows & Hfst).
    unfold mbind. rewrite Hrows. simpl.
    exists ((f, i, clock (ticks s)) :: rows). split.
    + unfold mret. do 2 f_equal. lia.
    + by rewrite fmap_cons, Hfst.
Qed.

Lemma importance_rows_store (d : FootballDatabase)
    (rows : list (string * Q * string)) :
  importance_rows (store_feature_importance d rows)
  = importance_rows d ++ rows.*1.
Proof.
  unfold importance_rows, store_feature_importance. simpl.
  rewrite fmap_app. f_equal.
  induction rows as [|[[f i] t] rows IH]; [done|].
  by rewrite !fmap_cons, IH.
Qed.

Lemma labels_of_graded (db : FootballDatabase) :
  Some <$> labels_of (get_historical_data db)
  = (fun kr => actual_outcome kr.2) <$> get_historical_data db.
Proof.
  unfold labels_of, get_historical_data.
  induction (table_scan db) as [|kr l IH]; [done|].
  rewrite filter_cons. case_decide as Hg; [|done].
  rewrite fmap_cons. cbn [omap list_omap].
  unfold is_graded in Hg. destruct (actual_outcome kr.2); [|done].
  rewrite fmap_cons. by rewrite IH.
Qed.

(** X27: with graded rows in the ledger, [update_model] trains on them,
    taken in the order of their fixture ids: a row of the four remaining
    columns and the recorded outcome as label for each, and leaves the
    model as [train] left it.  When training or the reading of the
    importances fails, the error is passed on and database and log are
    what they were.  Otherwise the importance frame of the trained model
    is appended to the feature-importance table, one record says that the
    model was updated, and the predictions and the cache are
    untouched. *)
Theorem update_model_with_history (s : System) :
  get_historical_data (db s) ≠ [] ->
  ∃ (X : Frame) (y : list string),
    X = (fun kr => [Some (probability kr.2); temperature kr.2;
                    wind_speed kr.2; precipitation kr.2])
          <$> get_historical_data (db s)
    ∧ Some <$> y
      = (fun kr => actual_outcome kr.2) <$> get_historical_data (db s)
    ∧ length y = length X
    ∧ StronglySorted (fun a b => a.1 < b.1) (get_historical_data (db s))
    ∧ pm (update_model clock s).1 = (train X y (pm s)).1
    ∧ match (update_model clock s).2 with
      | Raise e =>
          db (update_model clock s).1 = db s
          ∧ log (update_model clock s).1 = log s
          ∧ ((train X y (pm s)).2 = Raise e
             ∨ (Model.get_feature_importance (train X y (pm s)).1).2
               = Raise e)
      | Ok _ =>
          ∃ fi,
            (Model.get_feature_importance (train X y (pm s)).1).2 = Ok fi
            ∧ importance_rows (db (update_model clock s).1)
              = importance_rows (db s) ++ fi
            ∧ predictions (db (update_model clock s).1) = predictions (db s)
            ∧ cache (db (update_model clock s).1) = cache (db s)
            ∧ log (update_model clock s).1 = log s ++ [ModelUpdated]
      end.
Proof.
  intros Hne.
  exists ((fun kr => features_of kr.2) <$> get_historical_data (db s)),
    (labels_of (get_historical_data (db s))).
  split; [done|]. split; [apply labels_of_graded|].
  split.
  { rewrite <- (length_fmap Some), labels_of_graded. by rewrite !length_fmap. }
  split; [apply get_historical_data_ascending|].
  destruct (update_model clock s) as [s' r] eqn:Hu. cbn [fst snd].
  unfold update_model in Hu.
  match type of Hu with
  | mbind mget ?k s = _ => change (k s s = (s', r)) in Hu
  end.
  cbv beta in Hu.
  destruct (get_historical_data (db s)) as [|kr rows]; [done|].
  unfold mbind at 1, on_model at 1 in Hu.
  destruct (train _ _ (pm s)) as [m1 [[]|e]]; cbn [fst snd] in *.
  2: { injection Hu as <- <-. split; [done|]. split; [done|].
       split; [done|]. by left. }
  unfold mbind at 1, on_model at 1 in Hu. cbn [pm db log ticks] in Hu.
  pose proof (model_feature_importance_reads_only m1) as Hro.
  destruct (Model.get_feature_importance m1) as [m2 [fi|e]];
    cbn [fst snd] in *; subst m2.
  2: { injection Hu as <- <-. split; [done|]. split; [done|].
       split; [done|]. by right. }
  unfold mbind at 1 in Hu.
  match type of Hu with
  | context [stamp clock fi ?s1] =>
      destruct (stamp_shape fi s1) as (stamped & Hst & Hfst)
  end.
  rewrite Hst in Hu. cbn [db pm log ticks] in Hu.
  unfold mbind, mget, set_db, mmodify, logger in Hu.
  cbn [fst snd db pm log ticks] in Hu.
  injection Hu as <- <-. cbn [db pm log ticks].
  split; [done|]. exists fi. split; [done|].
  split; [by rewrite importance_rows_store, Hfst|]. done.
Qed.

(** X25: a league whose fixtures or standings are missing or empty is
    skipped: [process_league] logs the failure, creates no task and raises
    nothing. *)
Theorem process_league_skips (l : Z) (name season : string) (s : System)
    (fixtures standings : json) :
  assoc_Z l Config.TOP_LEAGUES = Some name ->
  fetch_data all_data "fixtures" = Ok fixtures ->
  fetch_data all_data "standings" = Ok standings ->
  truthy fixtures = false ∨ truthy standings = false ->
  process_league l season s
  = (with_log s [ProcessingLeague name; FailedToFetch l], Ok []).
Proof.
  intros Hn Hf Hst Hfalse.
  unfold Orchestrator.process_league, mbind, lift.
  rewrite Hn, logger_with_log, Hf, Hst.
  assert (Hb : truthy fixtures && truthy standings = false)
    by (apply andb_false_iff; tauto).
  by rewrite Hb, logger_with_log, with_log_app.
Qed.

End OrchestratorMore.

Section OrchestratorMoreExamples.
Import Database Model Orchestrator.

Lemma process_league_skips_witness :
  truthy (JObj []) = false
  ∧ process_league (H := sample_sklearn) (JObj []) unit sample_team_details
      sample_features 39 "2023" fresh_system
    = (with_log fresh_system
         [ProcessingLeague "English Premier League"; FailedToFetch 39],
       Ok []).
Proof.
  split; [reflexivity|].
  apply (process_league_skips (H := sample_sklearn) (JObj []) unit
           sample_team_details sample_features 39 "English Premier League"
           "2023" fresh_system (JObj []) (JObj []));
    try reflexivity. by left.
Defined.

Lemma update_model_with_history_witness :
  get_historical_data (db one_graded_system) ≠ []
  ∧ (update_model sample_clock one_graded_system).2 = Raise ValueError
  ∧ db (update_model sample_clock one_graded_system).1
    = db one_graded_system
  ∧ log (update_model sample_clock one_graded_system).1
    = log one_graded_system.
Proof.
  assert (Hne : get_historical_data (db one_graded_system) ≠ [])
    by (vm_compute; discriminate).
  split; [exact Hne|].
  assert (Hr : (update_model sample_clock one_graded_system).2
               = Raise ValueError) by reflexivity.
  split; [exact Hr|].
  destruct (update_model_with_history (H := sample_sklearn) sample_clock
              one_graded_system Hne)
    as (X & y & _ & _ & _ & _ & _ & Hu).
  rewrite Hr in Hu. destruct Hu as (Hdb & Hlog & _). by split.
Defined.

End OrchestratorMoreExamples.
